(** * storjshare-cli: the farmer's telemetry loop, storage measurement and key vault

    A shallow embedding of [bin/farmer.js].  Every JavaScript function of the
    file that takes part in telemetry reporting or in protecting the private
    key is a Rocq function of the same name.  Asynchronous calls are
    defunctionalised: a function returns, in source order, the commands it
    issues to the runtime, and each callback is a function of its own.  A
    small model of Node's event loop ([Runtime]) runs the commands. *)

From Stdlib Require Import ZArith List String Ascii Bool Lia DecimalString Permutation.
From Stdlib.Strings Require Import Byte.
Import ListNotations.
Open Scope string_scope.
Open Scope list_scope.
Open Scope Z_scope.

(** ** JavaScript numbers as the program meets them

    Byte counts, millisecond clocks and the configured capacity are
    integer-valued doubles; they are modelled by [Z], which is exact below
    2^53.  [NaN] and [undefined] appear when a callback is invoked without a
    size and when a property is missing. *)
Module JS.

Inductive value : Type :=
| Num (z : Z)
| NaN
| Undefined.

(** [a + b] on numbers and [undefined]. *)
Definition add (a b : value) : value :=
  match a, b with
  | Num x, Num y => Num (x + y)
  | _, _ => NaN
  end.

(** [a - b]. *)
Definition sub (a b : value) : value :=
  match a, b with
  | Num x, Num y => Num (x - y)
  | _, _ => NaN
  end.

(** [a > b]: every comparison with [NaN] is false. *)
Definition gt (a b : value) : bool :=
  match a, b with
  | Num x, Num y => y <? x
  | _, _ => false
  end.

(** [Number(v)]. *)
Definition Number (v : value) : value :=
  match v with
  | Num z => Num z
  | NaN | Undefined => NaN
  end.

(** The time value of [new Date(v)]: a number within the range of ECMAScript
    time values denotes itself, anything else gives an invalid date. *)
Definition maxTime : Z := 8640000000000000.

Definition Date (v : value) : value :=
  match v with
  | Num z => if Z.abs z <=? maxTime then Num z else NaN
  | NaN | Undefined => NaN
  end.

(** Truthiness of a string: only the empty string is falsy. *)
Definition truthy (s : string) : bool := negb (s =? "")%string.

End JS.

(** ** The file system seen by [getDirectorySize] *)

#[local] Set Warnings "-register-all".

Inductive errno : Type := ENOENT | EACCES | ENOTDIR | EIO.

(** What is found at a path.  The children of a directory are the entries
    [fs.readdir] lists, each standing for [path.join(dir, diritem)]; an entry
    that vanished or cannot be reached is a [NoEntry] child. *)
Inductive node : Type :=
| NoEntry (e : errno)                        (* fs.stat fails with e *)
| File (size : Z)                            (* stat succeeds, not a directory *)
| DirUnlistable (size : Z) (e : errno)       (* a directory, fs.readdir fails *)
| Dir (size : Z) (entries : list node).      (* a directory and its listing *)

(** The arguments a Node callback receives: [(err, size)]. *)
Definition cbargs : Type := (option errno * JS.value)%type.

(** [getDirectorySize(dir, callback)]: the arguments passed to [callback].

    [async.each] starts the walk of every entry; the model completes them in
    listing order.  The first error ends the iteration through [done(err)],
    with the total accumulated so far.  Whether an error is reported, and the
    total of an error-free walk, do not depend on that order
    ([completion_order_is_immaterial]). *)
Fixpoint getDirectorySize (dir : node) : cbargs :=
  match dir with
  | NoEntry e => (Some e, JS.Num 0)            (* callback(err, 0) *)
  | File _ => (None, JS.Num 0)                 (* callback(err, 0), err null *)
  | DirUnlistable _ e => (Some e, JS.Undefined) (* callback(err) *)
  | Dir size entries =>
      (fix each (list : list node) (total : JS.value) : cbargs :=
         match list with
         | [] => (None, total)                  (* done(null) *)
         | child :: rest =>
             let '(err, size) := getDirectorySize child in
             let total := JS.add total size in
             match err with
             | Some e => (Some e, total)        (* next(err), done(err) *)
             | None => each rest total
             end
         end) entries (JS.Num size)
  end.

(** The iteration of [async.each] inside [getDirectorySize], named. *)
Fixpoint each (list : list node) (total : JS.value) : cbargs :=
  match list with
  | [] => (None, total)
  | child :: rest =>
      let '(err, size) := getDirectorySize child in
      let total := JS.add total size in
      match err with
      | Some e => (Some e, total)
      | None => each rest total
      end
  end.

(** Every entry of the tree can be stat-ed and every directory listed. *)
Fixpoint accessible (n : node) : bool :=
  match n with
  | NoEntry _ => false
  | File _ => true
  | DirUnlistable _ _ => false
  | Dir _ entries => forallb accessible entries
  end.

(** The stat sizes of the directories of a tree, added up. *)
Fixpoint dirs_size (n : node) : Z :=
  match n with
  | Dir size entries => fold_left (fun acc c => acc + dirs_size c) entries size
  | _ => 0
  end.

(** Some entry strictly below the root cannot be stat-ed or listed. *)
Definition inaccessible_descendant (n : node) : bool :=
  match n with
  | Dir _ entries => negb (forallb accessible entries)
  | _ => false
  end.

(** Induction on trees that reaches the entries of a directory. *)
Section NodeInduction.

Variable P : node -> Prop.
Hypothesis P_NoEntry : forall e, P (NoEntry e).
Hypothesis P_File : forall size, P (File size).
Hypothesis P_DirUnlistable : forall size e, P (DirUnlistable size e).
Hypothesis P_Dir : forall size entries, Forall P entries -> P (Dir size entries).

Fixpoint node_rect' (n : node) : P n :=
  match n with
  | NoEntry e => P_NoEntry e
  | File size => P_File size
  | DirUnlistable size e => P_DirUnlistable size e
  | Dir size entries =>
      P_Dir size entries
        ((fix all (l : list node) : Forall P l :=
            match l with
            | [] => Forall_nil P
            | c :: rest => Forall_cons c (node_rect' c) (all rest)
            end) entries)
  end.

End NodeInduction.

(** ** Configuration, samples and reports *)

Record storage_config : Type := {
  path : string;
  size : Z;              (* the number written by the setup wizard *)
  unit : string
}.

Record config : Type := {
  address : option string;       (* the payment address, when one was given *)
  storage : storage_config;
  telemetry_enabled : bool
}.

(** The bandwidth object: what the cache file holds and what a speed test
    produces. *)
Record bandwidth : Type := {
  upload : JS.value;
  download : JS.value;
  timestamp : JS.value
}.

Record report_t : Type := {
  storage_free : Z;
  storage_used : JS.value;
  bandwidth_upload : JS.value;
  bandwidth_download : JS.value;
  contact : string;
  payment : option string
}.

Inductive log_type : Type := error | info.

Inductive log_message : Type :=
| ErrMessage (m : string)            (* err.message *)
| SentReport (r : report_t).         (* 'sent telemetry report ' + JSON.stringify(report) *)

Record logline : Type := {
  type : log_type;
  message : log_message;
  at_time : Z
}.

(** The result a speed test hands to its callback. *)
Record speed_result : Type := {
  result_upload : JS.value;
  result_download : JS.value
}.

(** ** Commands a function issues to the runtime, in source order *)

Inductive cmd : Type :=
| StartSpeedTest (url : string)                       (* SpeedTest({url}).test(cb) *)
| StartMeasure (dir : string) (bw : option bandwidth) (* getDirectorySize(path, cb) *)
| SetTimeout (ms : Z)                                 (* setTimeout(() => report(..), ms) *)
| WriteFile (file : string) (content : string)        (* fs.writeFileSync *)
| WriteStdout (l : logline)                           (* process.stdout.write *)
| ReporterSend (r : report_t).                        (* reporter.send(report, cb) *)

Inductive exn : Type :=
| SyntaxError           (* thrown by JSON.parse *)
| Base58Error           (* thrown by base58.decode on a foreign character *)
| BadDecrypt.           (* thrown by decipher.final *)

Definition SPEEDTEST_URL : string := "ws://speedofme.storj.io".
(** [path.join(require('os').tmpdir(), 'speedtest.json')]; the directory
    plays no part. *)
Definition SPEEDTEST_RESULT_PATH : string := "speedtest.json".

(** [report(reporter, config, farmer)] and its callbacks.  [JSON.parse] and
    [JSON.stringify] belong to the runtime and are parameters: the parser
    answers [None] on a text for which it throws, and otherwise the object
    the text denotes, seen through the three properties [report] reads (a
    property the object lacks is [undefined]).  Texts that denote something
    other than an object are left out of the model. *)
Section Report.

Variable JSON_parse : string -> option bandwidth.
Variable JSON_stringify : bandwidth -> string.
Variable cfg : config.
Variable farmer_contact : string.               (* farmer._contact *)

Definition hours25 : Z := 60 * 60 * 25 * 1000.

(** Lines 211-225 of [send]: the local [totalSpace]. *)
Definition totalSpace (c : storage_config) : Z :=
  let totalSpace := size c in                  (* Number(config.storage.size) *)
  if (unit c =? "MB")%string then totalSpace * Z.pow 1024 2
  else if (unit c =? "GB")%string then totalSpace * Z.pow 1024 3
  else if (unit c =? "TB")%string then totalSpace * Z.pow 1024 4
  else totalSpace.

(** The callback of [getDirectorySize] inside [send]. *)
Definition measured (bw : option bandwidth) (args : cbargs) : list cmd :=
  let '(err, used) := args in
  match err with
  | Some _ => []                                (* if (err) { return; } *)
  | None =>
      let totalSpace := totalSpace (storage cfg) in
      let report := {|
        storage_free := size (storage cfg);
        storage_used := used;
        bandwidth_upload :=
          match bw with Some b => JS.Number (upload b) | None => JS.Num 0 end;
        bandwidth_download :=
          match bw with Some b => JS.Number (download b) | None => JS.Num 0 end;
        contact := farmer_contact;
        payment := address cfg |} in
      [ReporterSend report]
  end.

(** The callback of [reporter.send]. *)
Definition reported (now : Z) (err : option string) (r : report_t) : list cmd :=
  [WriteStdout {|
     type := match err with Some _ => error | None => info end;
     message := match err with Some m => ErrMessage m | None => SentReport r end;
     at_time := now |}].

(** The inner function [send]. *)
Definition send (bw : option bandwidth) : list cmd :=
  [StartMeasure (path (storage cfg)) bw; SetTimeout (5 * (60 * 1000))].

(** The local [needstest] after lines 255-263; [inl] when [JSON.parse]
    throws.  The second component is [bandwidth] as it stands then. *)
Definition needstest (file : option string) (now : Z)
  : exn + (bool * option bandwidth) :=
  match file with
  | None => inr (true, None)
  | Some text =>
      if negb (JS.truthy text) then inr (true, None)
      else
        match JSON_parse text with
        | None => inl SyntaxError
        | Some b =>
            inr (JS.gt (JS.sub (JS.Num now) (JS.Date (timestamp b)))
                       (JS.Num hours25),
                 Some b)
        end
  end.

(** The synchronous part of [report]: [file] is the content of the cache
    file when it exists, [now] the value of [new Date()]. *)
Definition report (file : option string) (now : Z) : exn + list cmd :=
  match needstest file now with
  | inl e => inl e
  | inr (needstest, bw) =>
      if needstest && JS.truthy SPEEDTEST_URL
      then inr [StartSpeedTest SPEEDTEST_URL]
      else inr (send bw)
  end.

(** The callback of the speed test; [now] is the clock when it runs. *)
Definition tested (now : Z) (res : string + speed_result) : list cmd :=
  match res with
  | inl msg =>
      [WriteStdout {| type := error; message := ErrMessage msg; at_time := now |}]
  | inr result =>
      let bw := {| upload := result_upload result;
                   download := result_download result;
                   timestamp := JS.Num now |} in
      WriteFile SPEEDTEST_RESULT_PATH (JSON_stringify bw) :: send (Some bw)
  end.

End Report.

(** The configuration [c] with the unit [u]. *)
Definition with_unit (c : config) (u : string) : config :=
  {| address := address c;
     storage := {| path := path (storage c); size := size (storage c); unit := u |};
     telemetry_enabled := telemetry_enabled c |}.

(** Whether a call of [report] started a speed test. *)
Definition starts_speed_test (r : exn + list cmd) : bool :=
  match r with
  | inr cs => existsb (fun c => match c with StartSpeedTest _ => true | _ => false end) cs
  | inl _ => false
  end.

(** ** A model of Node's event loop

    One thread runs one callback at a time to completion; the commands it
    issued become callbacks that wait in [pending] with the time at which
    their operation completes.  The outcome and the duration of every
    operation are given by the environment. *)
Module Runtime.

Inductive task : Type :=
| Timer                                         (* the function given to setTimeout *)
| SpeedTestDone (res : string + speed_result)   (* callback of SpeedTest(..).test *)
| MeasureDone (bw : option bandwidth) (args : cbargs)  (* callback of getDirectorySize *)
| ReporterDone (err : option string) (r : report_t).   (* callback of reporter.send *)

Record env : Type := {
  JSON_parse : string -> option bandwidth;
  JSON_stringify : bandwidth -> string;
  cfg : config;
  farmer_contact : string;
  (** a speed test started at [t]: what it hands back, and how long it takes *)
  speedtest : Z -> (string + speed_result) * N;
  (** the tree a walk of [dir] started at [t] finds, and how long it takes *)
  filesystem : Z -> string -> node * N;
  (** the delivery of a report started at [t]: its error, and how long it takes *)
  reporter : Z -> report_t -> option string * N
}.

Record state : Type := {
  clock : Z;                       (* milliseconds *)
  cache : option string;           (* content of SPEEDTEST_RESULT_PATH, if it exists *)
  pending : list (Z * task);
  stdout : list logline;
  sent : list report_t;            (* the calls of reporter.send *)
  ticks : nat;                     (* the calls of report *)
  thrown : option exn              (* an exception nobody caught *)
}.

Definition later (s : state) (d : N) (t : task) : state :=
  {| clock := clock s; cache := cache s;
     pending := pending s ++ [(clock s + Z.of_N d, t)];
     stdout := stdout s; sent := sent s; ticks := ticks s; thrown := thrown s |}.

(** The effect of one command. *)
Definition exec (e : env) (s : state) (c : cmd) : state :=
  match c with
  | StartSpeedTest _ =>
      let '(res, d) := speedtest e (clock s) in later s d (SpeedTestDone res)
  | StartMeasure dir bw =>
      let '(tree, d) := filesystem e (clock s) dir in
      later s d (MeasureDone bw (getDirectorySize tree))
  | SetTimeout ms =>
      {| clock := clock s; cache := cache s;
         pending := pending s ++ [(clock s + ms, Timer)];
         stdout := stdout s; sent := sent s; ticks := ticks s; thrown := thrown s |}
  | WriteFile file content =>
      {| clock := clock s;
         cache := if (file =? SPEEDTEST_RESULT_PATH)%string then Some content else cache s;
         pending := pending s;
         stdout := stdout s; sent := sent s; ticks := ticks s; thrown := thrown s |}
  | WriteStdout l =>
      {| clock := clock s; cache := cache s; pending := pending s;
         stdout := stdout s ++ [l]; sent := sent s; ticks := ticks s;
         thrown := thrown s |}
  | ReporterSend r =>
      let '(err, d) := reporter e (clock s) r in
      later {| clock := clock s; cache := cache s; pending := pending s;
               stdout := stdout s; sent := sent s ++ [r]; ticks := ticks s;
               thrown := thrown s |} d (ReporterDone err r)
  end.

Definition exec_all (e : env) (s : state) (cs : list cmd) : state :=
  fold_left (exec e) cs s.

(** A call of [report]. *)
Definition tick (e : env) (s : state) : state :=
  let s := {| clock := clock s; cache := cache s; pending := pending s;
              stdout := stdout s; sent := sent s; ticks := S (ticks s);
              thrown := thrown s |} in
  match report (JSON_parse e) (cfg e) (cache s) (clock s) with
  | inl x =>
      {| clock := clock s; cache := cache s; pending := pending s;
         stdout := stdout s; sent := sent s; ticks := ticks s; thrown := Some x |}
  | inr cs => exec_all e s cs
  end.

(** Running a callback. *)
Definition handle (e : env) (s : state) (t : task) : state :=
  match t with
  | Timer => tick e s
  | SpeedTestDone res =>
      exec_all e s (tested (JSON_stringify e) (cfg e) (clock s) res)
  | MeasureDone bw args =>
      exec_all e s (measured (cfg e) (farmer_contact e) bw args)
  | ReporterDone err r => exec_all e s (reported (clock s) err r)
  end.

(** The callback due first; among those due together, the one queued first. *)
Fixpoint take_due (q : list (Z * task)) : option ((Z * task) * list (Z * task)) :=
  match q with
  | [] => None
  | x :: rest =>
      match take_due rest with
      | None => Some (x, [])
      | Some (y, rest') =>
          if fst x <=? fst y then Some (x, rest) else Some (y, x :: rest')
      end
  end.

(** One turn of the loop; [None] when nothing is pending or an exception
    has ended the process. *)
Definition step (e : env) (s : state) : option state :=
  match thrown s with
  | Some _ => None
  | None =>
      match take_due (pending s) with
      | None => None
      | Some ((due, t), rest) =>
          Some (handle e {| clock := Z.max (clock s) due; cache := cache s;
                            pending := rest; stdout := stdout s; sent := sent s;
                            ticks := ticks s; thrown := thrown s |} t)
      end
  end.

Fixpoint run (e : env) (n : nat) (s : state) : state :=
  match n with
  | O => s
  | S n =>
      match step e s with
      | None => s
      | Some s' => run e n s'
      end
  end.

(** The end of [open]: [report] is called once, at once, when telemetry is
    enabled. *)
Definition boot (e : env) (t0 : Z) (file : option string) : state :=
  let s0 := {| clock := t0; cache := file; pending := []; stdout := [];
               sent := []; ticks := O; thrown := None |} in
  if telemetry_enabled (cfg e) then tick e s0 else s0.

Definition is_timer (t : task) : bool :=
  match t with Timer => true | _ => false end.

(** Callbacks that will lead to a call of [report] or to [send]: timers and
    speed tests under way. *)
Definition drives (t : task) : bool :=
  match t with Timer | SpeedTestDone _ => true | _ => false end.

(** Work of a tick that is under way: a speed test, a walk of the data
    directory or a delivery. *)
Definition is_work (t : task) : bool :=
  match t with Timer => false | _ => true end.

Definition count (p : task -> bool) (q : list (Z * task)) : nat :=
  List.length (filter (fun x => p (snd x)) q).

Definition in_flight (s : state) : nat := count is_work (pending s).

(** How many callbacks that drive the loop a command adds. *)
Definition starts (c : cmd) : nat :=
  match c with
  | StartSpeedTest _ | SetTimeout _ => 1
  | _ => 0
  end.

Definition starts_all (cs : list cmd) : nat := list_sum (map starts cs).

(** The reports among the commands. *)
Definition reports_of (cs : list cmd) : list report_t :=
  flat_map (fun c => match c with ReporterSend r => [r] | _ => [] end) cs.

End Runtime.

(** ** Strings and buffers

    A JavaScript string is a sequence of UTF-16 code units, each within 16
    bits.  [update(str, 'utf8')] and [buf.toString('utf8')] convert between
    such strings and bytes; the conversion is Node's and is modelled here as
    documented: an unpaired surrogate is encoded as U+FFFD, and bytes that
    form no valid sequence are decoded as U+FFFD.  How many U+FFFD a
    malformed run of bytes gives has changed between versions of Node; the
    model gives one per byte, and no property below depends on the number. *)
Definition jsstring : Type := list Z.

Module Utf8.

Definition is_high (u : Z) : bool := (0xD800 <=? u) && (u <=? 0xDBFF).
Definition is_low (u : Z) : bool := (0xDC00 <=? u) && (u <=? 0xDFFF).

(** A string without unpaired surrogates, every unit within 16 bits. *)
Fixpoint well_formed (s : jsstring) : bool :=
  match s with
  | [] => true
  | u :: rest =>
      if is_high u then
        match rest with
        | l :: rest' => is_low l && well_formed rest'
        | [] => false
        end
      else if is_low u then false
      else (0 <=? u) && (u <? 0x10000) && well_formed rest
  end.

Definition replacement : list Z := [0xEF; 0xBF; 0xBD].

(** The bytes of one code point. *)
Definition encode_point (c : Z) : list Z :=
  if c <? 0x80 then [c]
  else if c <? 0x800 then [0xC0 + c / 0x40; 0x80 + c mod 0x40]
  else if c <? 0x10000 then
    [0xE0 + c / 0x1000; 0x80 + (c / 0x40) mod 0x40; 0x80 + c mod 0x40]
  else
    [0xF0 + c / 0x40000; 0x80 + (c / 0x1000) mod 0x40;
     0x80 + (c / 0x40) mod 0x40; 0x80 + c mod 0x40].

Fixpoint encode (s : jsstring) : list Z :=
  match s with
  | [] => []
  | u :: rest =>
      if is_high u then
        match rest with
        | l :: rest' =>
            if is_low l
            then encode_point (0x10000 + (u - 0xD800) * 0x400 + (l - 0xDC00))
                   ++ encode rest'
            else replacement ++ encode rest
        | [] => replacement
        end
      else if is_low u then replacement ++ encode rest
      else encode_point u ++ encode rest
  end.

Definition continuation (b : Z) : bool := (0x80 <=? b) && (b <=? 0xBF).

(** The code units of the first character of [bs], and the bytes left. *)
Definition decode_step (b1 : Z) (t1 : list Z) : list Z * list Z :=
  let bad := ([0xFFFD], t1) in
  if b1 <? 0x80 then ([b1], t1)
  else if b1 <? 0xC2 then bad
  else if b1 <? 0xE0 then
    match t1 with
    | b2 :: t2 =>
        if continuation b2
        then ([(b1 - 0xC0) * 0x40 + (b2 - 0x80)], t2)
        else bad
    | _ => bad
    end
  else if b1 <? 0xF0 then
    match t1 with
    | b2 :: b3 :: t3 =>
        if continuation b2 && continuation b3 then
          let c := (b1 - 0xE0) * 0x1000 + (b2 - 0x80) * 0x40 + (b3 - 0x80) in
          if (c <? 0x800) || is_high c || is_low c then bad else ([c], t3)
        else bad
    | _ => bad
    end
  else if b1 <? 0xF5 then
    match t1 with
    | b2 :: b3 :: b4 :: t4 =>
        if continuation b2 && continuation b3 && continuation b4 then
          let c := (b1 - 0xF0) * 0x40000 + (b2 - 0x80) * 0x1000
                   + (b3 - 0x80) * 0x40 + (b4 - 0x80) in
          if (c <? 0x10000) || (0x10FFFF <? c) then bad
          else ([0xD800 + (c - 0x10000) / 0x400;
                 0xDC00 + (c - 0x10000) mod 0x400], t4)
        else bad
    | _ => bad
    end
  else bad.

(** Decoding, one character per unit of fuel. *)
Fixpoint decode_fuel (fuel : nat) (bs : list Z) : jsstring :=
  match fuel, bs with
  | S fuel, b1 :: t1 =>
      let '(units, rest) := decode_step b1 t1 in
      units ++ decode_fuel fuel rest
  | _, _ => []
  end.

(** Every step consumes a byte, so the length of the input is fuel enough. *)
Definition decode (bs : list Z) : jsstring := decode_fuel (List.length bs) bs.

(** A code unit that is a character by itself. *)
Definition scalar_unit (u : Z) : Prop :=
  0 <= u < 0xD800 \/ 0xE000 <= u < 0x10000.

Definition is_byte (z : Z) : Prop := 0 <= z < 256.

End Utf8.

Module Buffer.

Definition t : Type := list byte.

Definition byte_of_Z (z : Z) : byte :=
  match Byte.of_N (Z.to_N z) with
  | Some b => b
  | None => x00
  end.

Definition Z_of_byte (b : byte) : Z := Z.of_N (Byte.to_N b).

(** [new Buffer(size)]. *)
Definition alloc (size : nat) : t := repeat x00 size.

(** [src.copy(target, targetStart)]: as many bytes as fit. *)
Definition copy (src target : t) (targetStart : nat) : t :=
  let n := Nat.min (List.length src) (List.length target - targetStart) in
  firstn targetStart target ++ firstn n src ++ skipn (targetStart + n) target.

(** The bytes of [str] in the 'utf8' encoding. *)
Definition from_utf8 (str : jsstring) : t := map byte_of_Z (Utf8.encode str).

(** [buf.toString('utf8')]. *)
Definition toString_utf8 (buf : t) : jsstring := Utf8.decode (map Z_of_byte buf).

End Buffer.

(** ** The key vault

    [crypto] and [bs58] are libraries; what their calls return is a
    parameter.  [cipher_update p data] and [cipher_final p data] are what
    [update(data)] and [final()] return on the cipher that
    [crypto.createCipher('aes-256-cbc', p)] makes, and likewise for the
    decipher, whose [final] throws when it answers [None].  [base58_decode]
    throws when it answers [None]. *)
Section KeyVault.

Variable cipher_update cipher_final : jsstring -> Buffer.t -> Buffer.t.
Variable decipher_update : jsstring -> Buffer.t -> Buffer.t.
Variable decipher_final : jsstring -> Buffer.t -> option Buffer.t.
Variable base58_encode : Buffer.t -> string.
Variable base58_decode : string -> option Buffer.t.

Definition encrypt (password str : jsstring) : string :=
  let data := Buffer.from_utf8 str in
  let a := cipher_update password data in
  let b := cipher_final password data in
  let buf := Buffer.alloc (List.length a + List.length b) in
  let buf := Buffer.copy a buf 0 in
  let buf := Buffer.copy b buf (List.length a) in
  base58_encode buf.

Definition decrypt (password : jsstring) (str : string) : exn + jsstring :=
  match base58_decode str with
  | None => inl Base58Error
  | Some data =>
      let a := decipher_update password data in
      match decipher_final password data with
      | None => inl BadDecrypt
      | Some b =>
          let buf := Buffer.alloc (List.length a + List.length b) in
          let buf := Buffer.copy a buf 0 in
          let buf := Buffer.copy b buf (List.length a) in
          inr (Buffer.toString_utf8 buf)
      end
  end.

(** The contract the vault relies on: deciphering under the password that
    enciphered gives the data back, and decoding an encoded buffer gives
    the buffer back. *)
Definition decipher_inverts_cipher : Prop :=
  forall p data,
    exists b,
      decipher_final p (cipher_update p data ++ cipher_final p data) = Some b /\
      decipher_update p (cipher_update p data ++ cipher_final p data) ++ b = data.

Definition base58_decode_inverts_encode : Prop :=
  forall buf, base58_decode (base58_encode buf) = Some buf.

(** What [open] does with the stored key before the farmer is built. *)
Inductive unlocked : Type :=
| Exit (console : string)             (* console.log(..); process.exit() *)
| KeyPair (privkey : jsstring).       (* storj.KeyPair(privkey) is called *)

Definition open (passwd : jsstring) (privkey : string) : unlocked :=
  match decrypt passwd privkey with
  | inl _ => Exit "Failed to unlock private key - incorrect password"
  | inr privkey => KeyPair privkey
  end.

End KeyVault.


(** ** Scenarios: concrete configurations, trees and environments *)
Module Scenario.

Definition dq : string := String (ascii_of_nat 34) EmptyString.

(** A sample measured at time 0 and the text [JSON.stringify] gives for it:
    an object with the keys upload, download and timestamp. *)
Definition sample0 : bandwidth :=
  {| upload := JS.Num 100; download := JS.Num 200; timestamp := JS.Num 0 |}.

Definition sample0_text : string :=
  ("{" ++ dq ++ "upload" ++ dq ++ ":100," ++ dq ++ "download" ++ dq ++ ":200,"
       ++ dq ++ "timestamp" ++ dq ++ ":0}")%string.

(** [JSON.stringify] of a bandwidth object: a number is written in decimal,
    NaN as null, and a property that is undefined is left out. *)
Definition string_of_Z (z : Z) : string := NilZero.string_of_int (Z.to_int z).

Definition member (key : string) (v : JS.value) : list string :=
  match v with
  | JS.Num z => [(dq ++ key ++ dq ++ ":" ++ string_of_Z z)%string]
  | JS.NaN => [(dq ++ key ++ dq ++ ":null")%string]
  | JS.Undefined => []
  end.

Definition JSON_stringify (b : bandwidth) : string :=
  ("{" ++ String.concat ","
            (member "upload" (upload b) ++ member "download" (download b)
               ++ member "timestamp" (timestamp b))
       ++ "}")%string.

(** [JSON.parse] on the texts the scenarios read: the text of [sample0]
    denotes [sample0]; on the other text they use, an opening brace alone, it
    throws. *)
Definition JSON_parse (text : string) : option bandwidth :=
  if (text =? sample0_text)%string then Some sample0 else None.

Definition cfg0 : config :=
  {| address := Some "1FarmerPaymentAddress";
     storage := {| path := "/home/farmer/.storj-farmer-cli"; size := 2; unit := "GB" |};
     telemetry_enabled := true |}.

(** A data directory whose second level holds a directory that cannot be
    listed. *)
Definition locked_subdir : node :=
  Dir 4096 [File 100; Dir 4096 [File 250; File 4096]; DirUnlistable 4096 EACCES].

(** The same directory without the unreadable part. *)
Definition data_dir : node :=
  Dir 4096 [File 100; Dir 4096 [File 250; File 4096]].

(** The walk of the data directory takes 400 seconds; the cached sample is
    fresh. *)
Definition slow_disk : Runtime.env :=
  {| Runtime.JSON_parse := JSON_parse;
     Runtime.JSON_stringify := JSON_stringify;
     Runtime.cfg := cfg0;
     Runtime.farmer_contact := "farmer";
     Runtime.speedtest := fun _ => (inr {| result_upload := JS.Num 100;
                                           result_download := JS.Num 200 |}, 1000%N);
     Runtime.filesystem := fun _ _ => (data_dir, 400000%N);
     Runtime.reporter := fun _ _ => (None, 1000%N) |}.

(** The speed-test server cannot be reached. *)
Definition offline : Runtime.env :=
  {| Runtime.JSON_parse := JSON_parse;
     Runtime.JSON_stringify := JSON_stringify;
     Runtime.cfg := cfg0;
     Runtime.farmer_contact := "farmer";
     Runtime.speedtest := fun _ => (inl "connect ECONNREFUSED", 2000%N);
     Runtime.filesystem := fun _ _ => (data_dir, 50%N);
     Runtime.reporter := fun _ _ => (None, 1000%N) |}.

(** Stand-ins for [crypto] and [bs58] that meet the vault's contract: a
    cipher that hands the data through in [update], and a text encoding that
    writes every byte as one character. *)
Definition plain_update (p : jsstring) (data : Buffer.t) : Buffer.t := data.
Definition plain_final (p : jsstring) (data : Buffer.t) : Buffer.t := [].
Definition plain_decipher_final (p : jsstring) (data : Buffer.t) : option Buffer.t :=
  Some [].
Definition bytes_encode (buf : Buffer.t) : string := string_of_list_byte buf.
Definition bytes_decode (s : string) : option Buffer.t := Some (list_byte_of_string s).

End Scenario.

(** ** The string functions of the setup wizard

    [parseInt], [Number.prototype.toString] on the result and
    [String.prototype.split], on strings of UTF-16 code units.  A number that
    [parseInt] returns is an integer or NaN; [None] stands for NaN.  The
    integers are exact below 2^53, and [toString] writes plain decimal
    digits below 10^21. *)
Module Text.

(** The code units of a text of ASCII characters. *)
Definition units (s : string) : jsstring :=
  map (fun c => Z.of_nat (nat_of_ascii c)) (list_ascii_of_string s).

Definition is_digit (c : Z) : bool := (0x30 <=? c) && (c <=? 0x39).

(** StrWhiteSpaceChar: white space and line terminators.  (Whether U+180E is
    among them has changed with the Unicode tables; it is counted here.) *)
Definition is_whitespace (c : Z) : bool :=
  existsb (Z.eqb c)
    [0x09; 0x0A; 0x0B; 0x0C; 0x0D; 0x20; 0xA0; 0x1680; 0x180E;
     0x2000; 0x2001; 0x2002; 0x2003; 0x2004; 0x2005; 0x2006; 0x2007; 0x2008;
     0x2009; 0x200A; 0x2028; 0x2029; 0x202F; 0x205F; 0x3000; 0xFEFF].

Fixpoint skip_whitespace (s : jsstring) : jsstring :=
  match s with
  | c :: t => if is_whitespace c then skip_whitespace t else s
  | [] => []
  end.

(** The value of a digit in the given radix: 0-9, then a-z or A-Z. *)
Definition digit_value (radix c : Z) : option Z :=
  let v :=
    if (0x30 <=? c) && (c <=? 0x39) then Some (c - 0x30)
    else if (0x61 <=? c) && (c <=? 0x7A) then Some (c - 0x61 + 10)
    else if (0x41 <=? c) && (c <=? 0x5A) then Some (c - 0x41 + 10)
    else None in
  match v with
  | Some d => if d <? radix then Some d else None
  | None => None
  end.

(** The longest prefix of digits, read from the left; [acc] is [None] until
    a digit has been read. *)
Fixpoint read_digits (radix : Z) (s : jsstring) (acc : option Z) : option Z :=
  match s with
  | c :: t =>
      match digit_value radix c with
      | Some d =>
          read_digits radix t
            (Some (match acc with Some a => a * radix + d | None => d end))
      | None => acc
      end
  | [] => acc
  end.

(** [parseInt(string)] without a radix: white space, a sign, the prefix 0x
    or 0X for radix 16, then digits up to the first character that is none;
    NaN when there is no digit. *)
Definition parseInt (string : jsstring) : option Z :=
  let s := skip_whitespace string in
  let sign := match s with c :: _ => if c =? 0x2D then -1 else 1 | [] => 1 end in
  let s :=
    match s with
    | c :: t => if (c =? 0x2D) || (c =? 0x2B) then t else s
    | [] => s
    end in
  let hex :=
    match s with
    | z :: x :: _ => (z =? 0x30) && ((x =? 0x78) || (x =? 0x58))
    | _ => false
    end in
  let radix := if hex then 16 else 10 in
  let s := if hex then skipn 2 s else s in
  match read_digits radix s None with
  | Some n => Some (sign * n)
  | None => None
  end.

(** The decimal digits of a natural number, most significant first; the
    binary length of the number is fuel enough. *)
Fixpoint digits_fuel (fuel : nat) (n : Z) : jsstring :=
  match fuel with
  | O => []
  | S fuel =>
      if n <? 10 then [0x30 + n]
      else digits_fuel fuel (n / 10) ++ [0x30 + n mod 10]
  end.

Definition digits (n : Z) : jsstring := digits_fuel (S (Z.to_nat (Z.log2 n))) n.

(** [size.toString()]. *)
Definition toString (size : option Z) : jsstring :=
  match size with
  | Some n => if n <? 0 then 0x2D :: digits (- n) else digits n
  | None => units "NaN"
  end.

Fixpoint starts_with (p s : jsstring) : bool :=
  match p, s with
  | [], _ => true
  | c :: p', d :: s' => (c =? d) && starts_with p' s'
  | _ :: _, [] => false
  end.

(** [s] cut at the leftmost occurrence of [sep]: what stands before it and
    what follows it. *)
Fixpoint cut (sep s : jsstring) : option (jsstring * jsstring) :=
  if starts_with sep s then Some ([], skipn (List.length sep) s)
  else
    match s with
    | [] => None
    | c :: t =>
        match cut sep t with
        | Some (before, after) => Some (c :: before, after)
        | None => None
        end
    end.

(** [s.split(sep)[1]]: [None] is undefined.  With an empty separator the
    string is split into its code units. *)
Definition split_1 (s sep : jsstring) : option jsstring :=
  match sep with
  | [] => match s with _ :: c :: _ => Some [c] | _ => None end
  | _ :: _ =>
      match cut sep s with
      | None => None
      | Some (_, after) =>
          match cut sep after with
          | None => Some after
          | Some (piece, _) => Some piece
          end
      end
  end.

(** Lines 372-373 of the wizard: the size and the unit taken from the
    answer [result.space]. *)
Definition setup_storage (space : jsstring) : option Z * option jsstring :=
  let size := parseInt space in
  let unit := split_1 space (toString size) in
  (size, unit).

End Text.

(** ** Reading the loop: what a callback issues and what that queues *)
Module Loop.
Import Runtime.

(** The callback a command queues at the time [now], with its due time. *)
Definition queued (e : env) (now : Z) (c : cmd) : list (Z * task) :=
  match c with
  | StartSpeedTest _ =>
      [(now + Z.of_N (snd (speedtest e now)), SpeedTestDone (fst (speedtest e now)))]
  | StartMeasure dir bw =>
      [(now + Z.of_N (snd (filesystem e now dir)),
        MeasureDone bw (getDirectorySize (fst (filesystem e now dir))))]
  | SetTimeout ms => [(now + ms, Timer)]
  | ReporterSend r =>
      [(now + Z.of_N (snd (reporter e now r)), ReporterDone (fst (reporter e now r)) r)]
  | WriteFile _ _ | WriteStdout _ => []
  end.

(** The commands a callback issues when it runs in the state [s]; [inl] when
    it throws. *)
Definition commands (e : env) (s : state) (t : task) : exn + list cmd :=
  match t with
  | Timer => report (JSON_parse e) (cfg e) (cache s) (clock s)
  | SpeedTestDone res => inr (tested (JSON_stringify e) (cfg e) (clock s) res)
  | MeasureDone bw args => inr (measured (cfg e) (farmer_contact e) bw args)
  | ReporterDone err r => inr (reported (clock s) err r)
  end.

Definition is_measure (t : task) : bool :=
  match t with MeasureDone _ _ => true | _ => false end.

Definition is_speed_test (t : task) : bool :=
  match t with SpeedTestDone _ => true | _ => false end.

(** A measurement that failed, and no delivery. *)
Definition failed_measure_or_other (x : Z * task) : Prop :=
  match snd x with
  | MeasureDone _ args => fst args <> None
  | ReporterDone _ _ => False
  | _ => True
  end.

(** No speed test that failed. *)
Definition no_failed_test (x : Z * task) : Prop :=
  match snd x with
  | SpeedTestDone (inl _) => False
  | _ => True
  end.

(** What the calls of [report] so far have led to: the reports handed to the
    reporter, and the walks and speed tests still under way. *)
Definition load (s : state) : nat :=
  (List.length (sent s) + count is_measure (pending s)
   + count is_speed_test (pending s))%nat.

End Loop.

Module Scenario2.

(** The data directory does not exist. *)
Definition no_data_dir : Runtime.env :=
  {| Runtime.JSON_parse := Scenario.JSON_parse;
     Runtime.JSON_stringify := Scenario.JSON_stringify;
     Runtime.cfg := Scenario.cfg0;
     Runtime.farmer_contact := "farmer";
     Runtime.speedtest := fun _ => (inr {| result_upload := JS.Num 100;
                                           result_download := JS.Num 200 |}, 1000%N);
     Runtime.filesystem := fun _ _ => (NoEntry ENOENT, 5%N);
     Runtime.reporter := fun _ _ => (None, 1000%N) |}.

End Scenario2.

(** ** What the vault returns for a string with unpaired surrogates *)
Module Repair.
Import Utf8.

(** The string with every unpaired surrogate replaced by U+FFFD. *)
Fixpoint repair (s : jsstring) : jsstring :=
  match s with
  | [] => []
  | u :: rest =>
      if is_high u then
        match rest with
        | l :: rest' =>
            if is_low l then u :: l :: repair rest' else 0xFFFD :: repair rest
        | [] => [0xFFFD]
        end
      else if is_low u then 0xFFFD :: repair rest
      else u :: repair rest
  end.

Definition is_unit (u : Z) : bool := (0 <=? u) && (u <? 0x10000).

End Repair.

(** ** Files: what the validators, the wizard and [start] see of [fs]

    A state of the file system gives, for a place, the directory or the
    regular file that is there.  A place is written as the path that leads
    to it from the root, without [.], [..], doubled or trailing separators;
    the many paths that name one place ([data], [./data], [data/] and the
    absolute path) are told apart from it by [place].  Resolution is that
    of POSIX as Linux has it: a path that ends in a separator names a
    directory only, and a path through a regular file fails with ENOTDIR.
    Every entry can be read and written; symbolic links and faults of
    permissions and devices are left out. *)
Module Fs.

Inductive entry : Type :=
| Directory
| Regular (content : string).

Definition t : Type := string -> option entry.

Inductive fault : Type := EEXIST | EISDIR | NOENT | NOTDIR.

Definition put (fs : t) (q : string) (x : entry) : t :=
  fun q' => if (q' =? q)%string then Some x else fs q'.

Section Paths.

(** [path.dirname]; on a place it gives the place of the parent. *)
Variable dirname : string -> string.
(** The place a path names. *)
Variable place : string -> string.
(** Whether a path ends in a separator. *)
Variable directory_only : string -> bool.

(** The fault for a place at which nothing is: ENOTDIR when the nearest
    ancestor that exists is a regular file, ENOENT otherwise. *)
Fixpoint absent (fuel : nat) (fs : t) (q : string) : fault :=
  match fuel with
  | O => NOENT
  | S fuel =>
      match fs (dirname q) with
      | Some (Regular _) => NOTDIR
      | Some Directory => NOENT
      | None => absent fuel fs (dirname q)
      end
  end.

Definition missing (fs : t) (q : string) : fault :=
  absent (S (String.length q)) fs q.

(** [fs.existsSync(p)]. *)
Definition existsSync (fs : t) (p : string) : bool :=
  match fs (place p) with
  | Some Directory => true
  | Some (Regular _) => negb (directory_only p)
  | None => false
  end.

(** [fs.readFileSync(p).toString()]. *)
Definition readFileSync (fs : t) (p : string) : fault + string :=
  match fs (place p) with
  | Some (Regular content) => if directory_only p then inl NOTDIR else inr content
  | Some Directory => inl EISDIR
  | None => inl (missing fs (place p))
  end.

(** [fs.mkdirSync(p)]: the directory must be new and its parent a
    directory. *)
Definition mkdirSync (fs : t) (p : string) : fault + t :=
  match fs (place p) with
  | Some _ => inl EEXIST
  | None =>
      match fs (dirname (place p)) with
      | Some Directory => inr (put fs (place p) Directory)
      | _ => inl (missing fs (place p))
      end
  end.

(** [fs.writeFileSync(p, content)]: creates or replaces a regular file in a
    directory that exists. *)
Definition writeFileSync (fs : t) (p : string) (content : string) : fault + t :=
  match fs (place p) with
  | Some Directory => inl EISDIR
  | _ =>
      match fs (dirname (place p)) with
      | Some Directory =>
          if directory_only p then inl EISDIR
          else inr (put fs (place p) (Regular content))
      | _ => inl (missing fs (place p))
      end
  end.

End Paths.

End Fs.

(** ** The configuration file and the answers of the wizard *)
Module ConfigFile.

Record storage_t : Type := {
  path : string;
  size : option Z;              (* parseInt(result.space); None is NaN *)
  unit : option jsstring        (* result.space.split(size.toString())[1] *)
}.

Record network_t : Type := {
  net_address : string;
  port : Z;
  seeds : list string;
  opcodes : list string;
  forward : bool
}.

Record telemetry_t : Type := {
  service : string;
  enabled : bool
}.

Record t : Type := {
  keypath : string;
  address : string;             (* result.payto *)
  storage : storage_t;
  network : network_t;
  telemetry : telemetry_t
}.

End ConfigFile.

Module Result.

(** What [prompt.get(schema, ..)] hands to the callback of the wizard. *)
Record t : Type := {
  address : string;
  port : Z;
  forward : bool;
  seed : string;
  datadir : string;
  space : jsstring;
  payto : string;
  telemetry : bool;
  keypath : string;
  password : jsstring
}.

End Result.

Definition CONFNAME : string := "config.json".

(** How a start of the program ends, up to the call of [storj.KeyPair]. *)
Inductive crash : Type :=
| JsonSyntax                   (* JSON.parse throws *)
| FsFault (f : Fs.fault).      (* an fs function throws *)

Inductive started : Type :=
| Exited (console : string)                    (* console.log(..); process.exit() *)
| Crashed (c : crash)                          (* an exception nobody catches *)
| PromptFailed (err : string)                  (* console.log(err) *)
| Opened (config : ConfigFile.t) (u : unlocked). (* open(..) was called *)

(** The validators of the schema that touch files, the callback of the
    wizard, [start] and the choice between them.  [path], [JSON], [crypto]
    and [bs58] are parameters, as is what the command line gave.
    [JSON.parse] answers [None] on a text for which it throws and otherwise
    the configuration the text denotes; texts that denote something else
    than a configuration are left out. *)
Section Setup.

Variable dirname : string -> string.                    (* path.dirname *)
Variable join : string -> string -> string.             (* path.join *)
Variable place : string -> string.
Variable directory_only : string -> bool.
Variable JSON_stringify : ConfigFile.t -> string.       (* JSON.stringify(config, null, 2) *)
Variable JSON_parse : string -> option ConfigFile.t.    (* None: it throws *)
Variable cipher_update cipher_final : jsstring -> Buffer.t -> Buffer.t.
Variable decipher_update : jsstring -> Buffer.t -> Buffer.t.
Variable decipher_final : jsstring -> Buffer.t -> option Buffer.t.
Variable base58_encode : Buffer.t -> string.
Variable base58_decode : string -> option Buffer.t.
Variable program_datadir : string.                      (* program.datadir *)
Variable program_password : jsstring.                   (* program.password, '' by default *)

(** [path.join(datadir, CONFNAME)] names a file that lies in the directory
    [datadir] names. *)
Definition holds_config (datadir : string) : Prop :=
  dirname (place (join datadir CONFNAME)) = place datadir
  /\ directory_only (join datadir CONFNAME) = false.

(** [schema.properties.port.conform]. *)
Definition conform_port (value : Z) : bool := (-1 <? value) && (value <=? 65535).

(** [schema.properties.datadir.conform]: refuses a path that exists,
    otherwise makes the directory. *)
Definition conform_datadir (fs : Fs.t) (value : string) : Fs.fault + (bool * Fs.t) :=
  if Fs.existsSync place directory_only fs value then inr (false, fs)
  else
    match Fs.mkdirSync dirname place fs value with
    | inl f => inl f
    | inr fs' => inr (true, fs')
    end.

(** [schema.properties.keypath.conform]. *)
Definition conform_keypath (fs : Fs.t) (value : string) : bool :=
  Fs.existsSync place directory_only fs (dirname value)
  && negb (Fs.existsSync place directory_only fs value).

(** The configuration the callback of the wizard builds (lines 372-394). *)
Definition wizard_config (result : Result.t) : ConfigFile.t :=
  let size := Text.parseInt (Result.space result) in
  let unit := Text.split_1 (Result.space result) (Text.toString size) in
  {| ConfigFile.keypath := Result.keypath result;
     ConfigFile.address := Result.payto result;
     ConfigFile.storage :=
       {| ConfigFile.path := program_datadir;
          ConfigFile.size := size;
          ConfigFile.unit := unit |};
     ConfigFile.network :=
       {| ConfigFile.net_address := Result.address result;
          ConfigFile.port := Result.port result;
          ConfigFile.seeds := [Result.seed result];
          ConfigFile.opcodes := ["0f01020202"; "0f02020202"; "0f03020202"];
          ConfigFile.forward := Result.forward result |};
     ConfigFile.telemetry :=
       {| ConfigFile.service := "https://status.storj.io";
          ConfigFile.enabled := Result.telemetry result |} |}.

(** [start(datadir)]; [keypass] is what the prompt for the password gives
    when it is asked. *)
Definition start (fs : Fs.t) (keypass : string + jsstring) (datadir : string)
  : started :=
  if negb (Fs.existsSync place directory_only fs datadir) then
    Exited "The supplied datadir does not exist"
  else if negb (Fs.existsSync place directory_only fs (join datadir CONFNAME)) then
    Exited "No storj configuration found in datadir"
  else
    match Fs.readFileSync dirname place directory_only fs (join datadir CONFNAME) with
    | inl f => Crashed (FsFault f)
    | inr text =>
        match JSON_parse text with
        | None => Crashed JsonSyntax
        | Some config =>
            match Fs.readFileSync dirname place directory_only fs
                    (ConfigFile.keypath config) with
            | inl f => Crashed (FsFault f)
            | inr privkey =>
                if negb (match program_password with [] => true | _ => false end)
                then
                  Opened config
                    (open decipher_update decipher_final base58_decode
                       program_password privkey)
                else
                  match keypass with
                  | inl err => PromptFailed err
                  | inr password =>
                      Opened config
                        (open decipher_update decipher_final base58_decode
                           password privkey)
                  end
            end
        end
    end.

(** The callback of the wizard (lines 372-406): the files it writes, and
    how the [start] it ends with comes out.  [privkey] is the key
    [storj.KeyPair()] has generated. *)
Definition configured (fs : Fs.t) (result : Result.t) (privkey : jsstring)
           (keypass : string + jsstring) : Fs.t * started :=
  let config := wizard_config result in
  match Fs.writeFileSync dirname place directory_only fs
          (join (Result.datadir result) CONFNAME) (JSON_stringify config) with
  | inl f => (fs, Crashed (FsFault f))
  | inr fs1 =>
      match Fs.writeFileSync dirname place directory_only fs1
              (ConfigFile.keypath config)
              (encrypt cipher_update cipher_final base58_encode
                 (Result.password result) privkey) with
      | inl f => (fs1, Crashed (FsFault f))
      | inr fs2 => (fs2, start fs2 keypass (Result.datadir result))
      end
  end.

(** The wizard for answers that the validators accept when they are given:
    the port is validated first, then the data directory (which is made by
    its validator), then the key path.  [None] stands for an answer that is
    refused and asked again, which is the business of [prompt]; the
    validators of the seed and of the space read no file and are not
    repeated here. *)
Definition wizard (fs : Fs.t) (result : Result.t) (privkey : jsstring)
           (keypass : string + jsstring) : option (Fs.t * started) :=
  if conform_port (Result.port result) then
    match conform_datadir fs (Result.datadir result) with
    | inl f => Some (fs, Crashed (FsFault f))
    | inr (false, _) => None
    | inr (true, fs1) =>
        if conform_keypath fs1 (Result.keypath result)
        then Some (configured fs1 result privkey keypass)
        else None
    end
  else None.

(** The last lines of the file: the wizard when [program.datadir] does not
    exist, [start] otherwise. *)
Definition main (fs : Fs.t) (result : Result.t) (privkey : jsstring)
           (keypass : string + jsstring) : option (Fs.t * started) :=
  if negb (Fs.existsSync place directory_only fs program_datadir)
  then wizard fs result privkey keypass
  else Some (fs, start fs keypass program_datadir).

End Setup.

Module Scenario3.

(** The path functions on the paths of the scenarios, which are absolute
    and have no [.], [..] or doubled separators; they may end in a
    separator. *)
Fixpoint strip_chars (s : list ascii) : list ascii :=
  match s with
  | [] => []
  | c :: t =>
      match strip_chars t with
      | [] => if Ascii.eqb c "/" then [] else [c]
      | t' => c :: t'
      end
  end.

Definition place (p : string) : string :=
  match strip_chars (list_ascii_of_string p) with
  | [] => "/"
  | l => string_of_list_ascii l
  end.

Fixpoint ends_in_separator (s : list ascii) : bool :=
  match s with
  | [] => false
  | [c] => Ascii.eqb c "/"
  | _ :: t => ends_in_separator t
  end.

Definition directory_only (p : string) : bool :=
  ends_in_separator (list_ascii_of_string p).

Definition join (a b : string) : string :=
  (match strip_chars (list_ascii_of_string a) with
   | [] => ""
   | l => string_of_list_ascii l
   end ++ "/" ++ b)%string.

Fixpoint dirname_chars (s : list ascii) : option (list ascii) :=
  match s with
  | [] => None
  | c :: t =>
      match dirname_chars t with
      | Some d => Some (c :: d)
      | None => if Ascii.eqb c "/" then Some [] else None
      end
  end.

Definition dirname (p : string) : string :=
  match dirname_chars (strip_chars (list_ascii_of_string p)) with
  | Some [] => "/"
  | Some d => string_of_list_ascii d
  | None => if directory_only p then "/" else "."
  end.

(** A home directory with nothing in it. *)
Definition home : Fs.t :=
  fun q => if (q =? "/home/farmer")%string then Some Fs.Directory
           else if (q =? "/home")%string then Some Fs.Directory
           else if (q =? "/")%string then Some Fs.Directory
           else None.

(** A home directory that holds a regular file [notes]. *)
Definition home_with_notes : Fs.t :=
  Fs.put home "/home/farmer/notes" (Fs.Regular "remember the milk").

(** [JSON.stringify] and [JSON.parse] on the one configuration a scenario
    writes: its text is a name for it. *)
Definition JSON_stringify (c : ConfigFile.t) : string := "{ the configuration }".
Definition JSON_parse (c : ConfigFile.t) (text : string) : option ConfigFile.t :=
  if (text =? "{ the configuration }")%string then Some c else None.

(** The answers of a farmer who keeps every default but the space. *)
Definition answers (datadir keypath : string) : Result.t :=
  {| Result.address := "127.0.0.1";
     Result.port := 4000;
     Result.forward := false;
     Result.seed := "storj://seed.example:4000/0000000000000000000000000000000000000000";
     Result.datadir := datadir;
     Result.space := Text.units "50MB";
     Result.payto := "";
     Result.telemetry := true;
     Result.keypath := keypath;
     Result.password := [0x70; 0x77] |}.

(** A private key in hexadecimal digits. *)
Definition key : jsstring := Text.units "1f2e3d4c".

End Scenario3.

(** ** Work that is queued ahead of a timer *)
Module Backlog.
Import Runtime.

(** The turns a callback can still take: the callback of a walk may hand a
    report to the reporter, whose callback is one more turn. *)
Definition weight (t : task) : nat :=
  match t with
  | MeasureDone _ _ => 2
  | ReporterDone _ _ => 1
  | Timer | SpeedTestDone _ => 0
  end.

Definition backlog (q : list (Z * task)) : nat :=
  list_sum (map (fun x => weight (snd x)) q).

End Backlog.

Module Scenario4.

(** The walk of the data directory takes a second, the delivery of a report
    400 seconds; the cached sample is fresh. *)
Definition slow_reporter : Runtime.env :=
  {| Runtime.JSON_parse := Scenario.JSON_parse;
     Runtime.JSON_stringify := Scenario.JSON_stringify;
     Runtime.cfg := Scenario.cfg0;
     Runtime.farmer_contact := "farmer";
     Runtime.speedtest := fun _ => (inr {| result_upload := JS.Num 100;
                                           result_download := JS.Num 200 |}, 1000%N);
     Runtime.filesystem := fun _ _ => (Scenario.data_dir, 1000%N);
     Runtime.reporter := fun _ _ => (None, 400000%N) |}.

End Scenario4.

(** * Properties *)

(** The text of the cached sample is what [JSON.stringify] writes. *)
Example stringify_sample0 :
  Scenario.JSON_stringify Scenario.sample0 = Scenario.sample0_text.
Proof. reflexivity. Qed.

(** ** Storage measurement *)

Lemma getDirectorySize_Dir (size : Z) (entries : list node) :
  getDirectorySize (Dir size entries) = each entries (JS.Num size).
Proof.
  simpl. generalize (JS.Num size).
  induction entries as [|c rest IH]; intro total; [reflexivity|].
  simpl. destruct (getDirectorySize c) as [[e|] sz]; [reflexivity|apply IH].
Qed.

Lemma each_error_free (entries : list node) :
  Forall (fun c => fst (getDirectorySize c) = None <-> accessible c = true) entries ->
  forall total,
    fst (each entries total) = None <-> forallb accessible entries = true.
Proof.
  induction 1 as [|c rest Hc _ IH]; intro total; simpl; [tauto|].
  destruct (getDirectorySize c) as [[e|] sz] eqn:E; simpl in Hc.
  - simpl. destruct (accessible c); simpl; [|split; discriminate].
    destruct Hc as [_ Hc]. specialize (Hc eq_refl). discriminate.
  - destruct Hc as [Hc _]. rewrite (Hc eq_refl). simpl. apply IH.
Qed.

Lemma getDirectorySize_error_free (n : node) :
  fst (getDirectorySize n) = None <-> accessible n = true.
Proof.
  induction n as [e|size|size e|size entries IH] using node_rect'.
  - simpl. split; discriminate.
  - simpl. tauto.
  - simpl. split; discriminate.
  - rewrite getDirectorySize_Dir. simpl accessible. now apply each_error_free.
Qed.

Lemma each_total (entries : list node) :
  Forall (fun c => accessible c = true ->
                   getDirectorySize c = (None, JS.Num (dirs_size c))) entries ->
  forall total,
    forallb accessible entries = true ->
    each entries (JS.Num total)
    = (None, JS.Num (fold_left (fun acc c => acc + dirs_size c) entries total)).
Proof.
  induction 1 as [|c rest Hc _ IH]; intros total Hall; simpl; [reflexivity|].
  simpl in Hall. apply andb_true_iff in Hall as [Ha Hall].
  rewrite (Hc Ha). simpl. now apply IH.
Qed.

(** An error-free walk adds up the stat sizes of the directories; a regular
    file is answered with [callback(err, 0)] and adds nothing. *)
Lemma getDirectorySize_total (n : node) :
  accessible n = true -> getDirectorySize n = (None, JS.Num (dirs_size n)).
Proof.
  induction n as [e|size|size e|size entries IH] using node_rect'; simpl accessible;
    intro Ha; try discriminate; [reflexivity|].
  rewrite getDirectorySize_Dir. simpl dirs_size. now apply each_total.
Qed.

Lemma forallb_accessible_permutation (l l' : list node) :
  Permutation l l' -> forallb accessible l = forallb accessible l'.
Proof.
  induction 1 as [|x l l' _ IH|x y l|l l' l'' _ IH1 _ IH2]; simpl.
  - reflexivity.
  - now rewrite IH.
  - now rewrite !andb_assoc, (andb_comm (accessible y)).
  - congruence.
Qed.

Lemma dirs_size_permutation (l l' : list node) :
  Permutation l l' ->
  forall total,
    fold_left (fun acc c => acc + dirs_size c) l total
    = fold_left (fun acc c => acc + dirs_size c) l' total.
Proof.
  induction 1 as [|x l l' _ IH|x y l|l l' l'' _ IH1 _ IH2]; intro total; simpl.
  - reflexivity.
  - apply IH.
  - f_equal. lia.
  - now rewrite IH1.
Qed.

(** The order in which the entries of a directory complete is immaterial to
    whether the walk fails, and to the total of a walk that does not. *)
Lemma completion_order_is_immaterial (size : Z) (l l' : list node) :
  Permutation l l' ->
  (fst (getDirectorySize (Dir size l)) = None
   <-> fst (getDirectorySize (Dir size l')) = None)
  /\ (fst (getDirectorySize (Dir size l)) = None ->
      getDirectorySize (Dir size l) = getDirectorySize (Dir size l')).
Proof.
  intro Hperm.
  assert (Hacc : accessible (Dir size l) = accessible (Dir size l')).
  { simpl. now apply forallb_accessible_permutation. }
  split.
  - now rewrite !getDirectorySize_error_free, Hacc.
  - intro H. apply getDirectorySize_error_free in H.
    rewrite (getDirectorySize_total _ H).
    rewrite Hacc in H. rewrite (getDirectorySize_total _ H).
    simpl. now rewrite (dirs_size_permutation l l' Hperm).
Qed.

(** C3, as stated, fails: the data directory with one unlistable
    subdirectory is not measured at all, [getDirectorySize] hands the
    EACCES error to its callback. *)
Lemma C3_unreadable_subdirectory_fails :
  inaccessible_descendant Scenario.locked_subdir = true
  /\ getDirectorySize Scenario.locked_subdir = (Some EACCES, JS.NaN)
  /\ getDirectorySize Scenario.data_dir = (None, JS.Num 8192).
Proof. repeat split. Qed.

(** C3, amended: [getDirectorySize] skips nothing.  When an entry strictly
    below the root cannot be stat-ed or listed, the callback of the root
    receives an error; the callback receives no error exactly when every
    entry of the tree is accessible. *)
Theorem C3_inaccessible_descendant_is_fatal (root : node) :
  (inaccessible_descendant root = true ->
   exists e, fst (getDirectorySize root) = Some e)
  /\ (fst (getDirectorySize root) = None <-> accessible root = true).
Proof.
  split; [|apply getDirectorySize_error_free].
  intro H. destruct (fst (getDirectorySize root)) as [e|] eqn:E; [now exists e|].
  apply getDirectorySize_error_free in E.
  destruct root; simpl in *; try discriminate.
  rewrite E in H. discriminate.
Qed.

(** The theorem at the data directory with the unlistable subdirectory. *)
Lemma C3_inaccessible_descendant_witness :
  inaccessible_descendant Scenario.locked_subdir = true
  /\ exists e, fst (getDirectorySize Scenario.locked_subdir) = Some e.
Proof.
  split; [reflexivity|].
  apply (proj1 (C3_inaccessible_descendant_is_fatal Scenario.locked_subdir)).
  reflexivity.
Defined.

(** ** The tick: what [report] and its callbacks issue *)

(** [send] starts the measurement and, in the same turn, the timer of the
    next tick. *)
Lemma send_commands (cfg : config) (bw : option bandwidth) :
  send cfg bw = [StartMeasure (path (storage cfg)) bw; SetTimeout 300000].
Proof. reflexivity. Qed.

(** C4, as stated, fails: for a data directory that does not exist the
    callback of [getDirectorySize] receives the ENOENT error (and the size
    0), and the callback in [send] returns without a report. *)
Lemma C4_missing_root_sends_no_report :
  getDirectorySize (NoEntry ENOENT) = (Some ENOENT, JS.Num 0)
  /\ measured Scenario.cfg0 "farmer" (Some Scenario.sample0)
       (getDirectorySize (NoEntry ENOENT)) = [].
Proof. split; reflexivity. Qed.

(** C4, amended: a root that cannot be stat-ed is answered with the error
    and the size 0, a root that cannot be listed with the error alone; for
    every tree whose measurement fails, the callback in [send] issues
    nothing, so no report is built or delivered.  The timer of the next tick
    was set by [send] before. *)
Theorem C4_failed_measurement_suppresses_report
  (cfg : config) (contact : string) (bw : option bandwidth) (root : node) :
  accessible root = false ->
  measured cfg contact bw (getDirectorySize root) = []
  /\ (forall e, getDirectorySize (NoEntry e) = (Some e, JS.Num 0))
  /\ (forall size e, getDirectorySize (DirUnlistable size e) = (Some e, JS.Undefined))
  /\ In (SetTimeout 300000) (send cfg bw).
Proof.
  intro Ha. repeat split.
  - destruct (getDirectorySize root) as [[e|] used] eqn:E; [reflexivity|].
    assert (H : fst (getDirectorySize root) = None) by now rewrite E.
    apply getDirectorySize_error_free in H. congruence.
  - simpl. auto.
Qed.

(** The theorem at a data directory that does not exist. *)
Lemma C4_failed_measurement_witness :
  measured Scenario.cfg0 "farmer" (Some Scenario.sample0)
    (getDirectorySize (NoEntry ENOENT)) = []
  /\ (forall e, getDirectorySize (NoEntry e) = (Some e, JS.Num 0))
  /\ (forall size e, getDirectorySize (DirUnlistable size e) = (Some e, JS.Undefined))
  /\ In (SetTimeout 300000) (send Scenario.cfg0 (Some Scenario.sample0)).
Proof.
  apply (C4_failed_measurement_suppresses_report
           Scenario.cfg0 "farmer" (Some Scenario.sample0) (NoEntry ENOENT)).
  reflexivity.
Defined.

(** C8: the local [totalSpace] of [send] is the configured number times
    1024^2, 1024^3 or 1024^4 for the units MB, GB and TB. *)
Theorem C8_totalSpace_binary_multiples (dir : string) (n : Z) :
  totalSpace {| path := dir; size := n; unit := "MB" |} = n * 1024 ^ 2
  /\ totalSpace {| path := dir; size := n; unit := "GB" |} = n * 1024 ^ 3
  /\ totalSpace {| path := dir; size := n; unit := "TB" |} = n * 1024 ^ 4
  /\ totalSpace {| path := dir; size := 2; unit := "GB" |} = 2 * 1024 ^ 3
  /\ totalSpace {| path := dir; size := 1; unit := "TB" |} = 1024 ^ 4.
Proof. unfold totalSpace; simpl; repeat split; lia. Qed.

(** With any other unit the number is left as it is. *)
Lemma totalSpace_other_unit (c : storage_config) :
  unit c <> "MB" -> unit c <> "GB" -> unit c <> "TB" -> totalSpace c = size c.
Proof.
  intros H1 H2 H3. unfold totalSpace.
  apply String.eqb_neq in H1, H2, H3. now rewrite H1, H2, H3.
Qed.


(** ** Freshness of the cached sample *)

(** C1, as stated, fails: a sample whose age is exactly 25 hours is not
    stale.  [needstest] stays false, no speed test is started and [send]
    runs with the cached sample. *)
Lemma C1_age_equal_to_window_is_fresh :
  needstest Scenario.JSON_parse (Some Scenario.sample0_text) hours25
  = inr (false, Some Scenario.sample0)
  /\ starts_speed_test
       (report Scenario.JSON_parse Scenario.cfg0 (Some Scenario.sample0_text) hours25)
     = false
  /\ report Scenario.JSON_parse Scenario.cfg0 (Some Scenario.sample0_text) hours25
     = inr (send Scenario.cfg0 (Some Scenario.sample0)).
Proof. repeat split. Qed.

(** C1, amended: a cached sample is stale, and a speed test is started,
    exactly when its age is greater than 25 hours.  At an age of 25 hours
    and at 25 hours less one millisecond the sample is fresh and [send] runs
    with it; at 25 hours and one millisecond the speed test is started. *)
Theorem C1_stale_iff_older_than_window
  (JSON_parse : string -> option bandwidth) (cfg : config)
  (text : string) (b : bandwidth) (ts now : Z) :
  JS.truthy text = true ->
  JSON_parse text = Some b ->
  timestamp b = JS.Num ts ->
  Z.abs ts <= JS.maxTime ->
  (starts_speed_test (report JSON_parse cfg (Some text) now) = true
   <-> hours25 < now - ts)
  /\ (hours25 < now - ts ->
      report JSON_parse cfg (Some text) now = inr [StartSpeedTest SPEEDTEST_URL])
  /\ (now - ts <= hours25 ->
      report JSON_parse cfg (Some text) now = inr (send cfg (Some b)))
  /\ (now - ts = hours25 \/ now - ts = hours25 - 1 ->
      starts_speed_test (report JSON_parse cfg (Some text) now) = false).
Proof.
  intros Htext Hparse Hts Hrange.
  assert (Hstale : hours25 < now - ts ->
            report JSON_parse cfg (Some text) now = inr [StartSpeedTest SPEEDTEST_URL]).
  { intro Hage. unfold report, needstest. rewrite Htext, Hparse, Hts. simpl.
    apply Z.leb_le in Hrange. rewrite Hrange. simpl.
    apply Z.ltb_lt in Hage. now rewrite Hage. }
  assert (Hfresh : now - ts <= hours25 ->
            report JSON_parse cfg (Some text) now = inr (send cfg (Some b))).
  { intro Hage. unfold report, needstest. rewrite Htext, Hparse, Hts. simpl.
    apply Z.leb_le in Hrange. rewrite Hrange. simpl.
    apply Z.ltb_ge in Hage. now rewrite Hage. }
  repeat split; try assumption.
  - intro H. destruct (Z.lt_ge_cases hours25 (now - ts)) as [Hlt|Hge]; [assumption|].
    rewrite (Hfresh Hge) in H. discriminate.
  - intro Hage. now rewrite (Hstale Hage).
  - intro Hage. rewrite Hfresh; [reflexivity|]. unfold hours25 in *. lia.
Qed.

(** The theorem one millisecond past the window and one millisecond short
    of it, for the sample measured at time 0. *)
Lemma C1_stale_iff_older_than_window_witness :
  report Scenario.JSON_parse Scenario.cfg0 (Some Scenario.sample0_text) (hours25 + 1)
  = inr [StartSpeedTest SPEEDTEST_URL]
  /\ report Scenario.JSON_parse Scenario.cfg0 (Some Scenario.sample0_text) (hours25 - 1)
     = inr (send Scenario.cfg0 (Some Scenario.sample0)).
Proof.
  split.
  - apply (C1_stale_iff_older_than_window Scenario.JSON_parse Scenario.cfg0
             Scenario.sample0_text Scenario.sample0 0 (hours25 + 1));
      try reflexivity; unfold hours25, JS.maxTime; simpl; lia.
  - apply (C1_stale_iff_older_than_window Scenario.JSON_parse Scenario.cfg0
             Scenario.sample0_text Scenario.sample0 0 (hours25 - 1));
      try reflexivity; unfold hours25, JS.maxTime; simpl; lia.
Defined.

(** ** The cache file *)

(** C5, as stated, fails: with a cache file that holds an opening brace,
    [report] throws the SyntaxError of [JSON.parse] and starts no speed
    test, whereas without a cache file it starts one. *)
Lemma C5_unparsable_cache_throws :
  Scenario.JSON_parse "{" = None
  /\ report Scenario.JSON_parse Scenario.cfg0 (Some "{") 0 = inl SyntaxError
  /\ report Scenario.JSON_parse Scenario.cfg0 None 0 = inr [StartSpeedTest SPEEDTEST_URL]
  /\ starts_speed_test (report Scenario.JSON_parse Scenario.cfg0 (Some "{") 0) = false.
Proof. repeat split. Qed.

(** C5, amended: a missing cache file, and an empty one, leave [report]
    without a sample and make it start a speed test.  On a cache file whose
    content is not empty and not parseable [report] throws: no speed test is
    started, nothing is sent, no timer is set, and the loop makes no further
    turn. *)
Theorem C5_missing_cache_is_stale_unparsable_throws (e : Runtime.env) (now : Z) :
  report (Runtime.JSON_parse e) (Runtime.cfg e) None now
  = inr [StartSpeedTest SPEEDTEST_URL]
  /\ report (Runtime.JSON_parse e) (Runtime.cfg e) (Some "") now
     = inr [StartSpeedTest SPEEDTEST_URL]
  /\ (forall text,
        JS.truthy text = true ->
        Runtime.JSON_parse e text = None ->
        report (Runtime.JSON_parse e) (Runtime.cfg e) (Some text) now = inl SyntaxError
        /\ forall s,
             Runtime.cache s = Some text ->
             Runtime.thrown (Runtime.tick e s) = Some SyntaxError
             /\ Runtime.pending (Runtime.tick e s) = Runtime.pending s
             /\ Runtime.sent (Runtime.tick e s) = Runtime.sent s
             /\ Runtime.step e (Runtime.tick e s) = None).
Proof.
  split; [reflexivity|]. split; [reflexivity|].
  intros text Htext Hparse.
  assert (Hthrow : forall t, report (Runtime.JSON_parse e) (Runtime.cfg e) (Some text) t
                             = inl SyntaxError).
  { intro t. unfold report, needstest. now rewrite Htext, Hparse. }
  split; [apply Hthrow|].
  intros s Hs. unfold Runtime.step, Runtime.tick. simpl.
  rewrite Hs, Hthrow. simpl. repeat split.
Qed.

(** The theorem at a cache file that holds an opening brace. *)
Lemma C5_unparsable_witness :
  report Scenario.JSON_parse Scenario.cfg0 (Some "{") 0 = inl SyntaxError.
Proof.
  apply (proj2 (proj2 (C5_missing_cache_is_stale_unparsable_throws Scenario.offline 0)) "{");
    reflexivity.
Defined.

(** ** The loop *)

Module RuntimeFacts.
Import Runtime.

Lemma count_app (p : task -> bool) (q1 q2 : list (Z * task)) :
  count p (q1 ++ q2) = (count p q1 + count p q2)%nat.
Proof. unfold count. now rewrite filter_app, length_app. Qed.

Lemma count_cons (p : task -> bool) (x : Z * task) (q : list (Z * task)) :
  count p (x :: q) = ((if p (snd x) then 1 else 0) + count p q)%nat.
Proof. unfold count. simpl. now destruct (p (snd x)). Qed.

Lemma take_due_none (q : list (Z * task)) : take_due q = None -> q = [].
Proof.
  destruct q as [|y q]; [reflexivity|]. simpl.
  destruct (take_due q) as [[z rest']|]; [|discriminate].
  destruct (_ <=? _); discriminate.
Qed.

(** [take_due] removes exactly the callback it returns. *)
Lemma take_due_count (p : task -> bool) (q : list (Z * task)) :
  forall x rest,
    take_due q = Some (x, rest) ->
    count p q = ((if p (snd x) then 1 else 0) + count p rest)%nat.
Proof.
  induction q as [|y q IH]; intros x rest H; simpl in H; [discriminate|].
  destruct (take_due q) as [[z rest']|] eqn:E.
  - destruct (fst y <=? fst z); injection H as <- <-.
    + apply count_cons.
    + rewrite !count_cons, (IH z rest' eq_refl). lia.
  - injection H as <- <-. rewrite (take_due_none q E). apply count_cons.
Qed.


Lemma exec_drives (e : env) (s : state) (c : cmd) :
  count drives (pending (exec e s c)) = (count drives (pending s) + starts c)%nat.
Proof.
  destruct c; simpl.
  - destruct (speedtest e (clock s)) as [res d]. simpl. now rewrite count_app.
  - destruct (filesystem e (clock s) dir) as [tree d]. simpl.
    rewrite count_app. reflexivity.
  - now rewrite count_app.
  - lia.
  - lia.
  - destruct (reporter e (clock s) r) as [err d]. simpl.
    rewrite count_app. reflexivity.
Qed.

Lemma exec_all_drives (e : env) (cs : list cmd) :
  forall s,
    count drives (pending (exec_all e s cs))
    = (count drives (pending s) + starts_all cs)%nat.
Proof.
  unfold exec_all, starts_all.
  induction cs as [|c cs IH]; intro s; simpl; [lia|].
  rewrite IH, exec_drives. lia.
Qed.

Lemma exec_thrown (e : env) (s : state) (c : cmd) : thrown (exec e s c) = thrown s.
Proof.
  destruct c; simpl; try reflexivity.
  - now destruct (speedtest e (clock s)).
  - now destruct (filesystem e (clock s) dir).
  - now destruct (reporter e (clock s) r).
Qed.

(** A call of [report] that returns has started one speed test or set one
    timer. *)
Lemma report_starts_one (parse : string -> option bandwidth) (c : config)
      (file : option string) (now : Z) (cs : list cmd) :
  report parse c file now = inr cs -> starts_all cs = 1%nat.
Proof.
  unfold report. destruct (needstest parse file now) as [x|[flag bw]]; [discriminate|].
  destruct (flag && JS.truthy SPEEDTEST_URL); intro H; injection H as <-; reflexivity.
Qed.

Lemma tick_drives (e : env) (s : state) :
  (count drives (pending (tick e s)) <= count drives (pending s) + 1)%nat.
Proof.
  unfold tick. simpl.
  destruct (report (JSON_parse e) (cfg e) (cache s) (clock s)) as [x|cs] eqn:E; simpl.
  - lia.
  - rewrite exec_all_drives. simpl. rewrite (report_starts_one _ _ _ _ _ E). lia.
Qed.

Lemma handle_drives (e : env) (s : state) (t : task) :
  (count drives (pending (handle e s t))
   <= count drives (pending s) + (if drives t then 1 else 0))%nat.
Proof.
  destruct t; unfold handle; cbn [drives].
  - apply tick_drives.
  - rewrite exec_all_drives. destruct res; unfold tested, send, starts_all; simpl; lia.
  - rewrite exec_all_drives. unfold measured, starts_all.
    destruct args as [[x|] used]; simpl; lia.
  - rewrite exec_all_drives. unfold starts_all. simpl. lia.
Qed.

(** One turn keeps the number of drivers at one at most. *)
Lemma step_drives (e : env) (s s' : state) :
  step e s = Some s' ->
  (count drives (pending s) <= 1)%nat ->
  (count drives (pending s') <= 1)%nat.
Proof.
  unfold step. destruct (thrown s); [discriminate|].
  destruct (take_due (pending s)) as [[[due t] rest]|] eqn:E; [|discriminate].
  intros H Hs. injection H as <-.
  pose proof (take_due_count drives _ _ _ E) as Hc. simpl in Hc.
  match goal with |- (count drives (pending (handle e ?s0 t)) <= 1)%nat =>
    pose proof (handle_drives e s0 t) as Hh end.
  simpl in Hh. destruct (drives t); lia.
Qed.

Lemma run_invariant (e : env) (I : state -> Prop) :
  (forall s s', step e s = Some s' -> I s -> I s') ->
  forall n s, I s -> I (run e n s).
Proof.
  intros Hstep. induction n as [|n IH]; intros s Hs; simpl; [assumption|].
  destruct (step e s) as [s'|] eqn:E; [|assumption].
  apply IH. now apply (Hstep s).
Qed.

Lemma boot_drives (e : env) (t0 : Z) (file : option string) :
  (count drives (pending (boot e t0 file)) <= 1)%nat.
Proof.
  unfold boot. destruct (telemetry_enabled (cfg e)); [|unfold count; simpl; lia].
  match goal with |- (count drives (pending (tick e ?s0)) <= 1)%nat =>
    pose proof (tick_drives e s0) as H end.
  simpl in H. exact H.
Qed.


Lemma run_stopped (e : env) (n : nat) (s : state) : step e s = None -> run e n s = s.
Proof. intro H. destruct n; simpl; [reflexivity|]. now rewrite H. Qed.


Lemma exec_sent (e : env) (s : state) (c : cmd) :
  sent (exec e s c) = sent s ++ reports_of [c].
Proof.
  destruct c; simpl; rewrite ?app_nil_r; try reflexivity.
  - now destruct (speedtest e (clock s)).
  - now destruct (filesystem e (clock s) dir).
  - now destruct (reporter e (clock s) r).
Qed.

Lemma exec_all_sent (e : env) (cs : list cmd) :
  forall s, sent (exec_all e s cs) = sent s ++ reports_of cs.
Proof.
  unfold exec_all.
  induction cs as [|c cs IH]; intro s; simpl; [now rewrite app_nil_r|].
  rewrite IH, exec_sent, <- app_assoc. f_equal.
  unfold reports_of. simpl. now rewrite app_nil_r.
Qed.

(** [report] itself delivers nothing. *)
Lemma report_sends_nothing (parse : string -> option bandwidth) (c : config)
      (file : option string) (now : Z) (cs : list cmd) :
  report parse c file now = inr cs -> reports_of cs = [].
Proof.
  unfold report. destruct (needstest parse file now) as [x|[flag bw]]; [discriminate|].
  destruct (flag && JS.truthy SPEEDTEST_URL); intro H; injection H as <-; reflexivity.
Qed.

(** A turn adds to [sent] only reports built by the callback in [send]. *)
Lemma step_sent (e : env) (s s' : state) :
  step e s = Some s' ->
  exists new,
    sent s' = sent s ++ new
    /\ Forall (fun r => storage_free r = size (storage (cfg e))) new.
Proof.
  unfold step. destruct (thrown s); [discriminate|].
  destruct (take_due (pending s)) as [[[due t] rest]|]; [|discriminate].
  intro H. injection H as <-. destruct t; unfold handle.
  - unfold tick. simpl.
    destruct (report (JSON_parse e) (cfg e) (cache s) (Z.max (clock s) due))
      as [x|cs] eqn:E; simpl.
    + exists []. now rewrite app_nil_r.
    + rewrite exec_all_sent, (report_sends_nothing _ _ _ _ _ E). simpl.
      exists []. now split.
  - rewrite exec_all_sent. simpl. exists []. split; [|constructor].
    now destruct res.
  - rewrite exec_all_sent. simpl. unfold measured. destruct args as [[x|] used].
    + exists []. now split.
    + eexists. split; [reflexivity|]. simpl. constructor; [reflexivity|constructor].
  - rewrite exec_all_sent. simpl. exists []. now split.
Qed.

Lemma sent_free_invariant (e : env) (t0 : Z) (file : option string) (n : nat) :
  Forall (fun r => storage_free r = size (storage (cfg e)))
         (sent (run e n (boot e t0 file))).
Proof.
  apply (RuntimeFacts.run_invariant e
           (fun s => Forall (fun r => storage_free r = size (storage (cfg e))) (sent s))).
  - intros s s' Hstep Hs. destruct (step_sent e s s' Hstep) as [new [-> Hnew]].
    apply Forall_app. now split.
  - unfold boot. destruct (telemetry_enabled (cfg e)); [|constructor].
    unfold tick. simpl.
    destruct (report (JSON_parse e) (cfg e) file t0) as [x|cs] eqn:E; simpl.
    + constructor.
    + rewrite exec_all_sent, (report_sends_nothing _ _ _ _ _ E). constructor.
Qed.

Lemma exec_ticks (e : env) (s : state) (c : cmd) : ticks (exec e s c) = ticks s.
Proof.
  destruct c; simpl; try reflexivity.
  - now destruct (speedtest e (clock s)).
  - now destruct (filesystem e (clock s) dir).
  - now destruct (reporter e (clock s) r).
Qed.

Lemma exec_all_ticks (e : env) (cs : list cmd) :
  forall s, ticks (exec_all e s cs) = ticks s.
Proof.
  unfold exec_all. induction cs as [|c cs IH]; intro s; simpl; [reflexivity|].
  now rewrite IH, exec_ticks.
Qed.

(** Only a timer leads to a call of [report]. *)
Lemma handle_ticks (e : env) (s : state) (t : task) :
  is_timer t = false -> ticks (handle e s t) = ticks s.
Proof. destruct t; [discriminate| | |]; intros _; apply exec_all_ticks. Qed.

(** With no timer and no speed test pending, a turn calls [report] no more
    and queues neither. *)
Lemma step_without_driver (e : env) (s s' : state) :
  step e s = Some s' ->
  count drives (pending s) = 0%nat ->
  count drives (pending s') = 0%nat /\ ticks s' = ticks s.
Proof.
  unfold step. destruct (thrown s); [discriminate|].
  destruct (take_due (pending s)) as [[[due t] rest]|] eqn:E; [|discriminate].
  intros H Hs. injection H as <-.
  pose proof (take_due_count drives _ _ _ E) as Hc. simpl in Hc.
  match goal with |- count drives (pending (handle e ?s0 t)) = _ /\ _ =>
    pose proof (handle_drives e s0 t) as Hh;
    pose proof (handle_ticks e s0 t) as Ht end.
  cbn [pending] in Hh.
  destruct (drives t) eqn:Hd; [lia|].
  split; [lia|]. rewrite Ht; [reflexivity|]. now destruct t.
Qed.

Lemma run_without_driver (e : env) (n : nat) :
  forall s,
    count drives (pending s) = 0%nat ->
    count drives (pending (run e n s)) = 0%nat /\ ticks (run e n s) = ticks s.
Proof.
  induction n as [|n IH]; intros s Hs; simpl; [now split|].
  destruct (step e s) as [s'|] eqn:E; [|now split].
  destruct (step_without_driver e s s' E Hs) as [Hd Ht].
  destruct (IH s' Hd) as [Hd' Ht']. split; [assumption|congruence].
Qed.

End RuntimeFacts.

(** C2, on the code: when the speed test of a tick fails, its callback
    writes the error line and returns; [send] is not called, so no timer is
    set.  From then on nothing is pending: the first tick was the last. *)
Theorem C2_failed_speed_test_ends_the_loop
  (e : Runtime.env) (t0 : Z) (msg : string) (d : N) (n : nat) :
  telemetry_enabled (Runtime.cfg e) = true ->
  Runtime.speedtest e t0 = (inl msg, d) ->
  (1 <= n)%nat ->
  tested (Runtime.JSON_stringify e) (Runtime.cfg e) (t0 + Z.of_N d) (inl msg)
  = [WriteStdout {| type := error; message := ErrMessage msg;
                    at_time := t0 + Z.of_N d |}]
  /\ Runtime.pending (Runtime.run e n (Runtime.boot e t0 None)) = []
  /\ Runtime.ticks (Runtime.run e n (Runtime.boot e t0 None)) = 1%nat
  /\ Runtime.sent (Runtime.run e n (Runtime.boot e t0 None)) = []
  /\ Runtime.step e (Runtime.run e n (Runtime.boot e t0 None)) = None.
Proof.
  intros Hen Htest Hn. split; [reflexivity|].
  destruct n as [|n]; [lia|].
  unfold Runtime.boot. rewrite Hen. unfold Runtime.tick. simpl.
  rewrite Htest. simpl.
  replace (Z.max t0 (t0 + Z.of_N d)) with (t0 + Z.of_N d) by lia.
  rewrite RuntimeFacts.run_stopped; simpl; repeat split.
Qed.

(** The theorem in the scenario without a reachable speed-test server. *)
Lemma C2_failed_speed_test_witness :
  Runtime.pending (Runtime.run Scenario.offline 3 (Runtime.boot Scenario.offline 0 None)) = []
  /\ Runtime.ticks (Runtime.run Scenario.offline 3 (Runtime.boot Scenario.offline 0 None))
     = 1%nat.
Proof.
  pose proof (C2_failed_speed_test_ends_the_loop Scenario.offline 0
                "connect ECONNREFUSED" 2000%N 3 eq_refl eq_refl) as H.
  assert (Hn : (1 <= 3)%nat) by lia.
  destruct (H Hn) as [_ [Hp [Ht _]]]. now split.
Defined.

(** The other outcomes do set the timer: whenever [send] runs, with a cached
    sample or after a speed test that succeeded, the next tick is due 5
    minutes later, whatever the measurement and the delivery do afterwards. *)
Lemma send_schedules_next_tick (e : Runtime.env) (s : Runtime.state)
      (bw : option bandwidth) :
  In (Runtime.clock s + 300000, Runtime.Timer)
     (Runtime.pending (Runtime.exec_all e s (send (Runtime.cfg e) bw))).
Proof.
  unfold send, Runtime.exec_all. simpl.
  destruct (Runtime.filesystem e (Runtime.clock s) (path (storage (Runtime.cfg e))))
    as [tree d].
  simpl. apply in_or_app. right. now left.
Qed.

(** C10: every report handed to [reporter.send] carries the configured
    number itself in [storage.free].  The unit, and with it [totalSpace],
    has no influence on what the callback in [send] issues.  For 2 GB the
    field is 2, not 2 * 1024^3. *)
Theorem C10_free_is_raw_configured_size
  (e : Runtime.env) (t0 : Z) (file : option string) (n : nat) (r : report_t) :
  In r (Runtime.sent (Runtime.run e n (Runtime.boot e t0 file))) ->
  storage_free r = size (storage (Runtime.cfg e))
  /\ (forall u contact bw args,
        measured (with_unit (Runtime.cfg e) u) contact bw args
        = measured (Runtime.cfg e) contact bw args)
  /\ (size (storage (Runtime.cfg e)) = 2 ->
      unit (storage (Runtime.cfg e)) = "GB" ->
      storage_free r = 2
      /\ totalSpace (storage (Runtime.cfg e)) = 2 * 1024 ^ 3
      /\ storage_free r <> totalSpace (storage (Runtime.cfg e))).
Proof.
  intro Hin.
  assert (Hfree : storage_free r = size (storage (Runtime.cfg e))).
  { pose proof (RuntimeFacts.sent_free_invariant e t0 file n) as Hall.
    rewrite Forall_forall in Hall. now apply Hall. }
  split; [assumption|]. split.
  - intros u contact bw [[x|] used]; reflexivity.
  - intros Hsize Hunit. unfold totalSpace. rewrite Hunit, Hfree, Hsize.
    simpl. repeat split; lia.
Qed.

(** The theorem at the first report of the scenario with the slow disk. *)
Lemma C10_free_is_raw_witness :
  In {| storage_free := 2; storage_used := JS.Num 8192;
        bandwidth_upload := JS.Num 100; bandwidth_download := JS.Num 200;
        contact := "farmer"; payment := Some "1FarmerPaymentAddress" |}
     (Runtime.sent (Runtime.run Scenario.slow_disk 2
                      (Runtime.boot Scenario.slow_disk 0 (Some Scenario.sample0_text))))
  /\ storage_free
       {| storage_free := 2; storage_used := JS.Num 8192;
          bandwidth_upload := JS.Num 100; bandwidth_download := JS.Num 200;
          contact := "farmer"; payment := Some "1FarmerPaymentAddress" |}
     = size (storage Scenario.cfg0).
Proof.
  assert (Hin : In {| storage_free := 2; storage_used := JS.Num 8192;
                      bandwidth_upload := JS.Num 100; bandwidth_download := JS.Num 200;
                      contact := "farmer"; payment := Some "1FarmerPaymentAddress" |}
                   (Runtime.sent (Runtime.run Scenario.slow_disk 2
                      (Runtime.boot Scenario.slow_disk 0 (Some Scenario.sample0_text))))).
  { left. reflexivity. }
  split; [exact Hin|].
  exact (proj1 (C10_free_is_raw_configured_size Scenario.slow_disk 0
                  (Some Scenario.sample0_text) 2 _ Hin)).
Defined.

(** ** Buffers and strings *)

Module BufferFacts.

Lemma Z_of_byte_of_Z (z : Z) : 0 <= z < 256 -> Buffer.Z_of_byte (Buffer.byte_of_Z z) = z.
Proof.
  intro Hz. unfold Buffer.Z_of_byte, Buffer.byte_of_Z.
  destruct (Byte.of_N (Z.to_N z)) as [b|] eqn:E.
  - apply Byte.to_of_N in E. rewrite E. lia.
  - apply Byte.of_N_None_iff in E. lia.
Qed.

Lemma map_Z_of_byte_of_Z (bs : list Z) :
  Forall (fun z => 0 <= z < 256) bs ->
  map Buffer.Z_of_byte (map Buffer.byte_of_Z bs) = bs.
Proof.
  induction 1 as [|z bs Hz _ IH]; simpl; [reflexivity|].
  now rewrite IH, Z_of_byte_of_Z.
Qed.

(** The two [copy] calls of [encrypt] and [decrypt] fill the new buffer with
    [a] followed by [b]. *)
Lemma copy_copy_alloc (a b : Buffer.t) :
  Buffer.copy b (Buffer.copy a (Buffer.alloc (List.length a + List.length b)) 0)
              (List.length a)
  = a ++ b.
Proof.
  assert (H1 : Buffer.copy a (Buffer.alloc (List.length a + List.length b)) 0
               = a ++ repeat x00 (List.length b)).
  { unfold Buffer.copy, Buffer.alloc. rewrite repeat_length. simpl.
    rewrite Nat.sub_0_r, Nat.min_l by lia.
    rewrite firstn_all, repeat_app, skipn_app, repeat_length, Nat.sub_diag.
    rewrite skipn_all2 by (rewrite repeat_length; lia). reflexivity. }
  rewrite H1. unfold Buffer.copy.
  rewrite length_app, repeat_length.
  replace (List.length a + List.length b - List.length a)%nat with (List.length b) by lia.
  rewrite Nat.min_id, firstn_all, firstn_app, Nat.sub_diag, firstn_all. simpl.
  rewrite app_nil_r, skipn_all2 by (rewrite length_app, repeat_length; lia).
  now rewrite app_nil_r.
Qed.

End BufferFacts.

Module Utf8Facts.
Import Utf8.

(** The euro sign takes three bytes, a character beyond the basic plane four
    bytes and two code units; a surrogate written as three bytes is not
    accepted back. *)
Example encode_examples :
  encode [0x20AC] = [0xE2; 0x82; 0xAC]
  /\ encode [0xD83D; 0xDE00] = [0xF0; 0x9F; 0x98; 0x80]
  /\ encode [0xD83D] = [0xEF; 0xBF; 0xBD]
  /\ encode [0xDE00; 0x41] = [0xEF; 0xBF; 0xBD; 0x41].
Proof. repeat split. Qed.

Example decode_examples :
  decode [0xE2; 0x82; 0xAC] = [0x20AC]
  /\ decode [0xF0; 0x9F; 0x98; 0x80] = [0xD83D; 0xDE00]
  /\ decode [0xEF; 0xBF; 0xBD] = [0xFFFD]
  /\ decode [0xED; 0xA0; 0x80] = [0xFFFD; 0xFFFD; 0xFFFD]
  /\ decode [0xC0; 0x80] = [0xFFFD; 0xFFFD].
Proof. repeat split. Qed.

Ltac dlia := Z.div_mod_to_equations; lia.

(** Decide the comparisons of the goal by arithmetic. *)
Ltac decide_cmp :=
  repeat match goal with
    | |- context [?a <? ?b] =>
        first [ rewrite (proj2 (Z.ltb_lt a b)) by dlia
              | rewrite (proj2 (Z.ltb_ge a b)) by dlia ]
    | |- context [?a <=? ?b] =>
        first [ rewrite (proj2 (Z.leb_le a b)) by dlia
              | rewrite (proj2 (Z.leb_gt a b)) by dlia ]
    end.

Lemma not_surrogate_scalar (u : Z) :
  is_high u = false -> is_low u = false -> 0 <= u < 0x10000 -> scalar_unit u.
Proof.
  unfold is_high, is_low, scalar_unit. intros Hh Hl Hu.
  apply andb_false_iff in Hh, Hl.
  rewrite !Z.leb_gt in Hh, Hl. lia.
Qed.

Ltac lists := cbn [app andb orb negb]; cbv zeta.

Lemma decode_step_unit (u : Z) (rest : list Z) :
  scalar_unit u ->
  exists b1 t1,
    encode_point u = b1 :: t1 /\ decode_step b1 (t1 ++ rest) = ([u], rest).
Proof.
  unfold scalar_unit. intro Hu. unfold encode_point.
  destruct (Z.ltb_spec u 0x80); [|destruct (Z.ltb_spec u 0x800)].
  - eexists _, _. split; [reflexivity|]. unfold decode_step. now decide_cmp.
  - eexists _, _. split; [reflexivity|]. unfold decode_step, continuation. lists.
    decide_cmp. lists. do 2 f_equal. dlia.
  - decide_cmp. eexists _, _. split; [reflexivity|].
    unfold decode_step, continuation, is_high, is_low. lists.
    decide_cmp. lists.
    replace ((0xE0 + u / 0x1000 - 0xE0) * 0x1000
             + (0x80 + (u / 0x40) mod 0x40 - 0x80) * 0x40
             + (0x80 + u mod 0x40 - 0x80)) with u by dlia.
    destruct Hu as [Hu|Hu]; decide_cmp; reflexivity.
Qed.

Lemma decode_step_pair (h l : Z) (rest : list Z) :
  is_high h = true -> is_low l = true ->
  exists b1 t1,
    encode_point (0x10000 + (h - 0xD800) * 0x400 + (l - 0xDC00)) = b1 :: t1
    /\ decode_step b1 (t1 ++ rest) = ([h; l], rest).
Proof.
  unfold is_high, is_low. intros Hh Hl.
  apply andb_true_iff in Hh as [Hh1 Hh2], Hl as [Hl1 Hl2].
  apply Z.leb_le in Hh1, Hh2, Hl1, Hl2.
  remember (0x10000 + (h - 0xD800) * 0x400 + (l - 0xDC00)) as c eqn:Hc.
  assert (Hrange : 0x10000 <= c <= 0x10FFFF) by dlia.
  unfold encode_point. decide_cmp.
  eexists _, _. split; [reflexivity|].
  unfold decode_step, continuation. lists. decide_cmp. lists.
  replace ((0xF0 + c / 0x40000 - 0xF0) * 0x40000
           + (0x80 + (c / 0x1000) mod 0x40 - 0x80) * 0x1000
           + (0x80 + (c / 0x40) mod 0x40 - 0x80) * 0x40
           + (0x80 + c mod 0x40 - 0x80)) with c by dlia.
  decide_cmp. lists. do 2 f_equal; [dlia|]. f_equal. dlia.
Qed.

Lemma decode_step_shorter (b1 : Z) (t1 units rest : list Z) :
  decode_step b1 t1 = (units, rest) -> (List.length rest <= List.length t1)%nat.
Proof.
  unfold decode_step.
  repeat match goal with
    | |- context [if ?c then _ else _] => destruct c
    | |- context [match ?l with [] => _ | _ :: _ => _ end] => destruct l
    end;
    intro H; injection H as _ <-; simpl; lia.
Qed.

Lemma decode_fuel_enough (n : nat) :
  forall m bs,
    (List.length bs <= n)%nat -> (List.length bs <= m)%nat ->
    decode_fuel n bs = decode_fuel m bs.
Proof.
  induction n as [|n IH]; intros m bs Hn Hm.
  - destruct bs; [|simpl in Hn; lia]. now destruct m.
  - destruct bs as [|b1 t1]; [now destruct m|].
    destruct m as [|m]; [simpl in Hm; lia|]. simpl.
    destruct (decode_step b1 t1) as [units rest] eqn:E.
    apply decode_step_shorter in E. simpl in Hn, Hm.
    f_equal. apply IH; lia.
Qed.

Lemma decode_cons (b1 : Z) (t1 : list Z) :
  decode (b1 :: t1)
  = fst (decode_step b1 t1) ++ decode (snd (decode_step b1 t1)).
Proof.
  unfold decode. simpl. destruct (decode_step b1 t1) as [units rest] eqn:E. simpl.
  f_equal. apply decode_fuel_enough; [|lia]. now apply decode_step_shorter in E.
Qed.

(** Decoding what [encode] wrote gives the string back, when no surrogate of
    the string stands alone. *)
Lemma decode_encode_bounded (k : nat) :
  forall s, (List.length s <= k)%nat -> well_formed s = true -> decode (encode s) = s.
Proof.
  induction k as [|k IH]; intros s Hk Hwf.
  - destruct s; [reflexivity|simpl in Hk; lia].
  - destruct s as [|u rest]; [reflexivity|].
    cbn [List.length] in Hk. cbn [well_formed] in Hwf. cbn [encode].
    destruct (is_high u) eqn:Hh.
    + destruct rest as [|l rest']; [discriminate|].
      apply andb_true_iff in Hwf as [Hl Hwf]. rewrite Hl.
      destruct (decode_step_pair u l (encode rest') Hh Hl) as [b1 [t1 [-> Hstep]]].
      rewrite <- app_comm_cons, decode_cons, Hstep. cbn [fst snd app].
      rewrite IH; [reflexivity| cbn [List.length] in Hk; lia | assumption].
    + destruct (is_low u) eqn:Hl; [discriminate|].
      apply andb_true_iff in Hwf as [Hu Hwf]. apply andb_true_iff in Hu as [Hu1 Hu2].
      apply Z.leb_le in Hu1. apply Z.ltb_lt in Hu2.
      destruct (decode_step_unit u (encode rest)
                  (not_surrogate_scalar u Hh Hl (conj Hu1 Hu2)))
        as [b1 [t1 [-> Hstep]]].
      rewrite <- app_comm_cons, decode_cons, Hstep. cbn [fst snd app].
      rewrite IH; [reflexivity| lia | assumption].
Qed.

Lemma decode_encode (s : jsstring) : well_formed s = true -> decode (encode s) = s.
Proof. apply (decode_encode_bounded (List.length s)). lia. Qed.

Lemma encode_point_bytes (c : Z) :
  0 <= c <= 0x10FFFF -> Forall is_byte (encode_point c).
Proof.
  intro Hc. unfold encode_point, is_byte.
  destruct (Z.ltb_spec c 0x80); [|destruct (Z.ltb_spec c 0x800);
    [|destruct (Z.ltb_spec c 0x10000)]];
    repeat constructor; dlia.
Qed.

Lemma encode_bytes_bounded (k : nat) :
  forall s, (List.length s <= k)%nat -> well_formed s = true -> Forall is_byte (encode s).
Proof.
  induction k as [|k IH]; intros s Hk Hwf.
  - destruct s; [constructor|simpl in Hk; lia].
  - destruct s as [|u rest]; [constructor|].
    cbn [List.length] in Hk. cbn [well_formed] in Hwf. cbn [encode].
    destruct (is_high u) eqn:Hh.
    + destruct rest as [|l rest']; [discriminate|].
      apply andb_true_iff in Hwf as [Hl Hwf]. rewrite Hl.
      apply Forall_app. split; [|apply IH; [cbn [List.length] in Hk; lia|assumption]].
      apply encode_point_bytes.
      unfold is_high, is_low in Hh, Hl.
      apply andb_true_iff in Hh as [Hh1 Hh2], Hl as [Hl1 Hl2].
      apply Z.leb_le in Hh1, Hh2, Hl1, Hl2. lia.
    + destruct (is_low u) eqn:Hl; [discriminate|].
      apply andb_true_iff in Hwf as [Hu Hwf]. apply andb_true_iff in Hu as [Hu1 Hu2].
      apply Z.leb_le in Hu1. apply Z.ltb_lt in Hu2.
      apply Forall_app. split; [|apply IH; [lia|assumption]].
      apply encode_point_bytes. lia.
Qed.

Lemma encode_bytes (s : jsstring) : well_formed s = true -> Forall is_byte (encode s).
Proof. apply (encode_bytes_bounded (List.length s)). lia. Qed.

(** The first character a step decodes is never the unit D800 alone. *)
Lemma decode_step_not_lone (b1 : Z) (t1 : list Z) :
  forall tail, fst (decode_step b1 t1) ++ tail <> [0xD800].
Proof.
  intro tail. unfold decode_step.
  repeat match goal with
    | |- context [if ?c then _ else _] => destruct c eqn:?
    | |- context [match ?l with [] => _ | _ :: _ => _ end] => destruct l
    end;
    cbn [fst app]; try discriminate; intro H; injection H as H;
    unfold continuation, is_high in *;
    repeat match goal with
      | E : _ || _ = false |- _ => apply orb_false_iff in E as [? ?]
      | E : _ && _ = true |- _ => apply andb_true_iff in E as [? ?]
      | E : _ && _ = false |- _ => apply andb_false_iff in E
      | E : (_ <? _) = true |- _ => apply Z.ltb_lt in E
      | E : (_ <? _) = false |- _ => apply Z.ltb_ge in E
      | E : (_ <=? _) = true |- _ => apply Z.leb_le in E
      end;
    rewrite ?Z.leb_gt in *; try lia.
Qed.

Lemma decode_not_lone (bs : list Z) : decode bs <> [0xD800].
Proof.
  destruct bs as [|b1 t1]; [discriminate|].
  rewrite decode_cons. apply decode_step_not_lone.
Qed.

End Utf8Facts.

(** ** The key vault *)

Lemma toString_from_utf8 (s : jsstring) :
  Utf8.well_formed s = true -> Buffer.toString_utf8 (Buffer.from_utf8 s) = s.
Proof.
  intro Hwf. unfold Buffer.toString_utf8, Buffer.from_utf8.
  rewrite BufferFacts.map_Z_of_byte_of_Z by now apply Utf8Facts.encode_bytes.
  now apply Utf8Facts.decode_encode.
Qed.

(** C6, amended: for every password and every plaintext without an unpaired
    surrogate, [decrypt] under the password returns exactly what [encrypt]
    was given, provided the decipher inverts the cipher under one password
    and [base58.decode] inverts [base58.encode]. *)
Theorem C6_round_trip_of_well_formed_strings
  (cipher_update cipher_final decipher_update : jsstring -> Buffer.t -> Buffer.t)
  (decipher_final : jsstring -> Buffer.t -> option Buffer.t)
  (base58_encode : Buffer.t -> string) (base58_decode : string -> option Buffer.t)
  (P S : jsstring) :
  decipher_inverts_cipher cipher_update cipher_final decipher_update decipher_final ->
  base58_decode_inverts_encode base58_encode base58_decode ->
  Utf8.well_formed S = true ->
  decrypt decipher_update decipher_final base58_decode P
    (encrypt cipher_update cipher_final base58_encode P S)
  = inr S.
Proof.
  intros Hcipher Hbase58 Hwf. unfold decrypt, encrypt.
  rewrite BufferFacts.copy_copy_alloc, Hbase58.
  destruct (Hcipher P (Buffer.from_utf8 S)) as [b [Hfinal Hdata]].
  rewrite Hfinal, BufferFacts.copy_copy_alloc, Hdata.
  now rewrite toString_from_utf8.
Qed.

(** The stand-ins of the scenarios meet the contract. *)
Lemma plain_contract :
  decipher_inverts_cipher Scenario.plain_update Scenario.plain_final
    Scenario.plain_update Scenario.plain_decipher_final.
Proof.
  intros p data. exists []. split; [reflexivity|].
  unfold Scenario.plain_update, Scenario.plain_final. now rewrite !app_nil_r.
Defined.

Lemma bytes_contract :
  base58_decode_inverts_encode Scenario.bytes_encode Scenario.bytes_decode.
Proof.
  intro buf. unfold Scenario.bytes_decode, Scenario.bytes_encode.
  now rewrite list_byte_of_string_of_list_byte.
Defined.

(** The theorem at a key text with a character of one, two, three and four
    bytes, under the stand-in libraries. *)
Lemma C6_round_trip_witness :
  decrypt Scenario.plain_update Scenario.plain_decipher_final Scenario.bytes_decode
    [0x70; 0x77]
    (encrypt Scenario.plain_update Scenario.plain_final Scenario.bytes_encode
       [0x70; 0x77] [0x6B; 0xE9; 0x20AC; 0xD83D; 0xDE00])
  = inr [0x6B; 0xE9; 0x20AC; 0xD83D; 0xDE00].
Proof.
  apply (C6_round_trip_of_well_formed_strings
           Scenario.plain_update Scenario.plain_final Scenario.plain_update
           Scenario.plain_decipher_final Scenario.bytes_encode Scenario.bytes_decode
           [0x70; 0x77] [0x6B; 0xE9; 0x20AC; 0xD83D; 0xDE00]
           plain_contract bytes_contract).
  reflexivity.
Defined.

(** C6, as stated, fails: the string that consists of the unpaired surrogate
    D800 is written as the bytes EF BF BD and read back as U+FFFD; whatever
    the cipher and the text encoding, [decrypt] never returns that string. *)
Lemma C6_lone_surrogate_is_not_restored :
  Utf8.well_formed [0xD800] = false
  /\ Buffer.from_utf8 [0xD800] = [xef; xbf; xbd]
  /\ decrypt Scenario.plain_update Scenario.plain_decipher_final Scenario.bytes_decode
       [0x70; 0x77]
       (encrypt Scenario.plain_update Scenario.plain_final Scenario.bytes_encode
          [0x70; 0x77] [0xD800])
     = inr [0xFFFD]
  /\ (forall cipher_update cipher_final decipher_update decipher_final
             base58_encode base58_decode P,
        decrypt decipher_update decipher_final base58_decode P
          (encrypt cipher_update cipher_final base58_encode P [0xD800])
        <> inr [0xD800]).
Proof.
  repeat split.
  intros cu cf du df be bd P. unfold decrypt.
  destruct (bd _) as [data|]; [|discriminate].
  destruct (df P data) as [b|]; [|discriminate].
  intro H. injection H as H. revert H. apply Utf8Facts.decode_not_lone.
Qed.

(** [open] ends the process with the message about the password when
    [base58.decode] or the decipher's [final] throws; otherwise it hands the
    decoded bytes of [update] and [final], joined, to [storj.KeyPair]. *)
Theorem open_exits_when_decrypt_throws
  (decipher_update : jsstring -> Buffer.t -> Buffer.t)
  (decipher_final : jsstring -> Buffer.t -> option Buffer.t)
  (base58_decode : string -> option Buffer.t)
  (passwd : jsstring) (privkey : string) :
  (base58_decode privkey = None ->
   open decipher_update decipher_final base58_decode passwd privkey
   = Exit "Failed to unlock private key - incorrect password")
  /\ (forall data,
        base58_decode privkey = Some data ->
        decipher_final passwd data = None ->
        open decipher_update decipher_final base58_decode passwd privkey
        = Exit "Failed to unlock private key - incorrect password")
  /\ (forall data b,
        base58_decode privkey = Some data ->
        decipher_final passwd data = Some b ->
        open decipher_update decipher_final base58_decode passwd privkey
        = KeyPair (Buffer.toString_utf8 (decipher_update passwd data ++ b))).
Proof.
  unfold open, decrypt. repeat split.
  - intros ->. reflexivity.
  - intros data -> ->. reflexivity.
  - intros data b -> ->. now rewrite BufferFacts.copy_copy_alloc.
Qed.

Lemma open_exits_when_decrypt_throws_witness :
  open Scenario.plain_update (fun _ _ => None) Scenario.bytes_decode [0x70; 0x77] "3yZe7d"
  = Exit "Failed to unlock private key - incorrect password".
Proof.
  refine (proj1 (proj2 (open_exits_when_decrypt_throws Scenario.plain_update
                          (fun _ _ => None) Scenario.bytes_decode [0x70; 0x77] "3yZe7d"))
            _ eq_refl eq_refl).
Defined.

(** ** Further properties of a tick *)

(** An error-free walk answers with the stat sizes of the directories added
    up; what a regular file holds is not counted. *)
Theorem measurement_counts_directories_only (root : node) :
  (forall size, getDirectorySize (File size) = (None, JS.Num 0))
  /\ (accessible root = true ->
      getDirectorySize root = (None, JS.Num (dirs_size root)))
  /\ getDirectorySize (Dir 4096 [File 100; Dir 4096 [File 250; File 4096]])
     = (None, JS.Num 8192).
Proof.
  split; [reflexivity|]. split; [apply getDirectorySize_total|reflexivity].
Qed.

Lemma measurement_counts_directories_only_witness :
  getDirectorySize Scenario.data_dir = (None, JS.Num (dirs_size Scenario.data_dir)).
Proof.
  apply (proj1 (proj2 (measurement_counts_directories_only Scenario.data_dir))).
  reflexivity.
Defined.

(** A failed speed test writes one error line: the cache file keeps its
    content, nothing is handed to the reporter and no callback is queued. *)
Theorem failed_speed_test_is_isolated
  (e : Runtime.env) (s : Runtime.state) (msg : string) :
  Runtime.cache (Runtime.handle e s (Runtime.SpeedTestDone (inl msg))) = Runtime.cache s
  /\ Runtime.sent (Runtime.handle e s (Runtime.SpeedTestDone (inl msg))) = Runtime.sent s
  /\ Runtime.pending (Runtime.handle e s (Runtime.SpeedTestDone (inl msg)))
     = Runtime.pending s
  /\ Runtime.stdout (Runtime.handle e s (Runtime.SpeedTestDone (inl msg)))
     = Runtime.stdout s
         ++ [{| type := error; message := ErrMessage msg; at_time := Runtime.clock s |}].
Proof. repeat split. Qed.

(** With a fresh cached sample and a measurement of 5000 bytes a tick hands
    exactly one report to the reporter, with the measured size and the
    cached rates. *)
Theorem fresh_tick_sends_one_report
  (e : Runtime.env) (text : string) (now up down ts : Z) :
  JS.truthy text = true ->
  Runtime.JSON_parse e text
  = Some {| upload := JS.Num up; download := JS.Num down; timestamp := JS.Num ts |} ->
  Z.abs ts <= JS.maxTime ->
  now - ts <= hours25 ->
  report (Runtime.JSON_parse e) (Runtime.cfg e) (Some text) now
  = inr [StartMeasure (path (storage (Runtime.cfg e)))
           (Some {| upload := JS.Num up; download := JS.Num down;
                    timestamp := JS.Num ts |});
         SetTimeout 300000]
  /\ measured (Runtime.cfg e) (Runtime.farmer_contact e)
       (Some {| upload := JS.Num up; download := JS.Num down; timestamp := JS.Num ts |})
       (None, JS.Num 5000)
     = [ReporterSend {| storage_free := size (storage (Runtime.cfg e));
                        storage_used := JS.Num 5000;
                        bandwidth_upload := JS.Num up;
                        bandwidth_download := JS.Num down;
                        contact := Runtime.farmer_contact e;
                        payment := address (Runtime.cfg e) |}].
Proof.
  intros Htext Hparse Hrange Hage. split; [|reflexivity].
  unfold report, needstest. rewrite Htext, Hparse. simpl.
  apply Z.leb_le in Hrange. rewrite Hrange. simpl.
  apply Z.ltb_ge in Hage. now rewrite Hage.
Qed.

Lemma fresh_tick_sends_one_report_witness :
  report Scenario.JSON_parse Scenario.cfg0 (Some Scenario.sample0_text) 1000
  = inr [StartMeasure "/home/farmer/.storj-farmer-cli" (Some Scenario.sample0);
         SetTimeout 300000].
Proof.
  refine (proj1 (fresh_tick_sends_one_report Scenario.slow_disk Scenario.sample0_text
                   1000 100 200 0 eq_refl eq_refl _ _)).
  - unfold JS.maxTime. simpl. lia.
  - unfold hours25. lia.
Defined.

(** Whichever tick it is, a failed speed test is the end of the loop: once
    its callback has run, no timer and no speed test is pending, and
    [report] is not called again. *)
Theorem failed_speed_test_stops_every_later_tick
  (e : Runtime.env) (t0 : Z) (file : option string) (k n : nat)
  (due : Z) (msg : string) (rest : list (Z * Runtime.task)) :
  Runtime.thrown (Runtime.run e k (Runtime.boot e t0 file)) = None ->
  Runtime.take_due (Runtime.pending (Runtime.run e k (Runtime.boot e t0 file)))
  = Some ((due, Runtime.SpeedTestDone (inl msg)), rest) ->
  Runtime.ticks (Runtime.run e (S n) (Runtime.run e k (Runtime.boot e t0 file)))
  = Runtime.ticks (Runtime.run e k (Runtime.boot e t0 file))
  /\ Runtime.count Runtime.drives
       (Runtime.pending (Runtime.run e (S n) (Runtime.run e k (Runtime.boot e t0 file))))
     = 0%nat.
Proof.
  intros Hthrown Hdue.
  assert (Hone : (Runtime.count Runtime.drives
                    (Runtime.pending (Runtime.run e k (Runtime.boot e t0 file))) <= 1)%nat).
  { apply (RuntimeFacts.run_invariant e
             (fun s => (Runtime.count Runtime.drives (Runtime.pending s) <= 1)%nat)).
    - apply RuntimeFacts.step_drives.
    - apply RuntimeFacts.boot_drives. }
  pose proof (RuntimeFacts.take_due_count Runtime.drives _ _ _ Hdue) as Hc. simpl in Hc.
  simpl. unfold Runtime.step. rewrite Hthrown, Hdue.
  match goal with |- context [Runtime.run e n ?s1] =>
    destruct (RuntimeFacts.run_without_driver e n s1) as [Hd Ht] end.
  - simpl. lia.
  - split; [rewrite Ht; reflexivity|exact Hd].
Qed.

Lemma failed_speed_test_stops_every_later_tick_witness :
  Runtime.ticks (Runtime.run Scenario.offline 4
                   (Runtime.run Scenario.offline 0 (Runtime.boot Scenario.offline 0 None)))
  = 1%nat.
Proof.
  refine (proj1 (failed_speed_test_stops_every_later_tick Scenario.offline 0 None 0 3
                   2000 "connect ECONNREFUSED" [] eq_refl eq_refl)).
Defined.

(** ** The numbers and units of the wizard *)

Module TextFacts.
Import Text.

Lemma digit_value_decimal (d : Z) :
  0 <= d < 10 -> digit_value 10 (0x30 + d) = Some d.
Proof.
  intro Hd. unfold digit_value.
  rewrite (proj2 (Z.leb_le 0x30 (0x30 + d))) by lia.
  rewrite (proj2 (Z.leb_le (0x30 + d) 0x39)) by lia.
  cbn [andb]. rewrite (proj2 (Z.ltb_lt (0x30 + d - 0x30) 10)) by lia.
  f_equal. lia.
Qed.

Lemma digit_value_not_digit (c : Z) :
  is_digit c = false -> digit_value 10 c = None.
Proof.
  unfold is_digit, digit_value. intros ->.
  destruct ((0x61 <=? c) && (c <=? 0x7A)) eqn:Hl.
  - apply andb_true_iff in Hl as [H1 H2]. apply Z.leb_le in H1, H2.
    now rewrite (proj2 (Z.ltb_ge (c - 0x61 + 10) 10)) by lia.
  - destruct ((0x41 <=? c) && (c <=? 0x5A)) eqn:Hu; [|reflexivity].
    apply andb_true_iff in Hu as [H1 H2]. apply Z.leb_le in H1, H2.
    now rewrite (proj2 (Z.ltb_ge (c - 0x41 + 10) 10)) by lia.
Qed.

(** Reading the digits of [n] gives [n], and reading goes on behind them. *)
Lemma read_digits_fuel (fuel : nat) :
  forall n rest,
    0 <= n < 2 ^ Z.of_nat (S fuel) ->
    read_digits 10 (digits_fuel (S fuel) n ++ rest) None
    = read_digits 10 rest (Some n).
Proof.
  induction fuel as [|fuel IH]; intros n rest Hn;
    cbn [digits_fuel]; destruct (Z.ltb_spec n 10) as [Hlt|Hge];
    try (cbn [app read_digits]; now rewrite digit_value_decimal by lia).
  - change (2 ^ Z.of_nat 1) with 2 in Hn. lia.
  - assert (Hq : 0 <= n / 10 < 2 ^ Z.of_nat (S fuel)).
    { rewrite (Nat2Z.inj_succ (S fuel)), Z.pow_succ_r in Hn by lia.
      split; [apply Z.div_pos; lia|].
      apply Z.div_lt_upper_bound; lia. }
    pose proof (IH (n / 10) (0x30 + n mod 10 :: rest) Hq) as Hread.
    cbn [digits_fuel] in Hread.
    rewrite <- app_assoc. cbn [app]. rewrite Hread.
    cbn [read_digits].
    rewrite digit_value_decimal by (apply Z.mod_pos_bound; lia).
    do 2 f_equal. rewrite Z.mul_comm. symmetry. apply Z.div_mod. lia.
Qed.

Lemma log2_fuel (n : Z) : 0 <= n -> n < 2 ^ Z.of_nat (S (Z.to_nat (Z.log2 n))).
Proof.
  intro Hn. rewrite Nat2Z.inj_succ, Z2Nat.id by apply Z.log2_nonneg.
  destruct (Z.eq_dec n 0) as [->|Hz]; [reflexivity|].
  apply Z.log2_spec. lia.
Qed.

Lemma read_digits_digits (n : Z) (rest : jsstring) :
  0 <= n ->
  read_digits 10 (digits n ++ rest) None = read_digits 10 rest (Some n).
Proof.
  intro Hn. apply read_digits_fuel. split; [assumption|now apply log2_fuel].
Qed.

(** The first digit of a number: a digit, and no zero unless the number is
    zero. *)
Lemma digits_fuel_head (fuel : nat) :
  forall n,
    0 <= n < 2 ^ Z.of_nat (S fuel) ->
    exists d t,
      digits_fuel (S fuel) n = 0x30 + d :: t
      /\ 0 <= d < 10 /\ (d = 0 -> n = 0 /\ t = []).
Proof.
  induction fuel as [|fuel IH]; intros n Hn;
    cbn [digits_fuel]; destruct (Z.ltb_spec n 10) as [Hlt|Hge];
    try (exists n, []; split; [reflexivity|]; split; [lia|];
         intro Hz; split; [lia|reflexivity]).
  - change (2 ^ Z.of_nat 1) with 2 in Hn. lia.
  - assert (Hq : 0 <= n / 10 < 2 ^ Z.of_nat (S fuel)).
    { rewrite (Nat2Z.inj_succ (S fuel)), Z.pow_succ_r in Hn by lia.
      split; [apply Z.div_pos; lia|].
      apply Z.div_lt_upper_bound; lia. }
    destruct (IH (n / 10) Hq) as [d [t [Hd [Hrange Hzero]]]].
    cbn [digits_fuel] in Hd. rewrite Hd.
    exists d, (t ++ [0x30 + n mod 10]).
    split; [reflexivity|]. split; [assumption|].
    intro Hz. destruct (Hzero Hz) as [Hz' _].
    assert (0 < n / 10) by (apply Z.div_str_pos; lia). lia.
Qed.

Lemma digits_head (n : Z) :
  0 <= n ->
  exists d t, digits n = 0x30 + d :: t /\ 0 <= d < 10 /\ (d = 0 -> n = 0 /\ t = []).
Proof.
  intro Hn. apply digits_fuel_head. split; [assumption|now apply log2_fuel].
Qed.

Lemma starts_with_app (p s : jsstring) : starts_with p (p ++ s) = true.
Proof.
  induction p as [|c p IH]; [reflexivity|].
  cbn [app starts_with]. now rewrite Z.eqb_refl, IH.
Qed.

Lemma skipn_length_app (p s : jsstring) : skipn (List.length p) (p ++ s) = s.
Proof. induction p as [|c p IH]; [reflexivity|exact IH]. Qed.

Lemma cut_at_start (p s : jsstring) : cut p (p ++ s) = Some ([], s).
Proof.
  destruct (p ++ s) as [|c t] eqn:E; cbn [cut]; rewrite <- E;
    now rewrite starts_with_app, skipn_length_app.
Qed.

(** A separator that begins with a digit does not occur in a text without
    digits. *)
Lemma cut_no_digit (d : Z) (sep s : jsstring) :
  is_digit d = true ->
  forallb (fun c => negb (is_digit c)) s = true ->
  cut (d :: sep) s = None.
Proof.
  intros Hd. induction s as [|c t IH]; intro Hs; [reflexivity|].
  cbn [forallb] in Hs. apply andb_true_iff in Hs as [Hc Ht].
  cbn [cut starts_with].
  destruct (Z.eqb_spec d c) as [->|_].
  - rewrite Hd in Hc. discriminate.
  - cbn [andb]. now rewrite IH.
Qed.

Lemma digit_not_whitespace (c : Z) : is_digit c = true -> is_whitespace c = false.
Proof.
  unfold is_digit, is_whitespace. intro H.
  apply andb_true_iff in H as [H1 H2]. apply Z.leb_le in H1, H2.
  cbn [existsb]. repeat rewrite (proj2 (Z.eqb_neq c _)) by lia. reflexivity.
Qed.

(** A text that begins with the digits of [n], followed by no further
    digit, is parsed as [n]. *)
Lemma parseInt_digits (n : Z) (rest : jsstring) :
  0 <= n ->
  match rest with
  | [] => True
  | c :: _ => is_digit c = false /\ (n = 0 -> c <> 0x78 /\ c <> 0x58)
  end ->
  parseInt (digits n ++ rest) = Some n.
Proof.
  intros Hn Hrest.
  destruct (digits_head n Hn) as [d [t [Hd [Hrange Hzero]]]].
  assert (Hread : read_digits 10 (digits n ++ rest) None = Some n).
  { rewrite read_digits_digits by assumption.
    destruct rest as [|c rest']; [reflexivity|].
    cbn [read_digits]. destruct Hrest as [Hc _].
    now rewrite digit_value_not_digit. }
  assert (Hdigit : is_digit (0x30 + d) = true).
  { unfold is_digit. apply andb_true_iff. split; apply Z.leb_le; lia. }
  unfold parseInt. rewrite Hd in *. cbn [app skip_whitespace].
  rewrite (digit_not_whitespace _ Hdigit).
  rewrite (proj2 (Z.eqb_neq (0x30 + d) 0x2D)) by lia.
  rewrite (proj2 (Z.eqb_neq (0x30 + d) 0x2B)) by lia.
  cbn [orb].
  assert (Hhex : match t ++ rest with
                 | x :: _ => (0x30 + d =? 0x30) && ((x =? 0x78) || (x =? 0x58))
                 | [] => false
                 end = false).
  { destruct (Z.eq_dec d 0) as [Hz|Hnz].
    - destruct (Hzero Hz) as [Hn0 ->]. cbn [app].
      destruct rest as [|c rest']; [reflexivity|].
      destruct Hrest as [_ Hx]. destruct (Hx Hn0) as [H78 H58].
      apply Z.eqb_neq in H78, H58. rewrite H78, H58. apply andb_false_r.
    - rewrite (proj2 (Z.eqb_neq (0x30 + d) 0x30)) by lia.
      now destruct (t ++ rest). }
  replace (match t ++ rest with
           | [] => false
           | x :: _ => (0x30 + d =? 0x30) && ((x =? 0x78) || (x =? 0x58))
           end) with false by (symmetry; destruct (t ++ rest); exact Hhex).
  cbv zeta in Hread |- *. cbn [app] in Hread. rewrite Hread. f_equal. lia.
Qed.

(** The text behind the digits is what [split] returns second. *)
Lemma split_1_digits (n : Z) (rest : jsstring) :
  0 <= n ->
  cut (digits n) rest = None ->
  split_1 (digits n ++ rest) (digits n) = Some rest.
Proof.
  intros Hn Hcut. destruct (digits_head n Hn) as [d [t [Hd _]]].
  unfold split_1. rewrite cut_at_start, Hcut. now rewrite Hd.
Qed.

Lemma units_no_digit_MB_GB_TB (u : string) :
  In u ["MB"; "GB"; "TB"] ->
  forallb (fun c => negb (is_digit c)) (units u) = true.
Proof. intros [<-|[<-|[<-|[]]]]; reflexivity. Qed.

Lemma setup_storage_number_then_rest (n : Z) (rest : jsstring) :
  0 <= n ->
  match rest with
  | [] => True
  | c :: _ => is_digit c = false /\ (n = 0 -> c <> 0x78 /\ c <> 0x58)
  end ->
  cut (digits n) rest = None ->
  setup_storage (digits n ++ rest) = (Some n, Some rest).
Proof.
  intros Hn Hrest Hcut. unfold setup_storage.
  rewrite parseInt_digits by assumption. unfold toString.
  rewrite (proj2 (Z.ltb_ge n 0)) by lia.
  now rewrite split_1_digits.
Qed.

End TextFacts.

(** For an answer that is the decimal digits of a number [n] (below 2^53,
    where the numbers of [parseInt] are exact) followed by more, the wizard
    keeps the number as the size and everything behind it as the unit: MB,
    GB or TB when that is what follows, but just as well the rest of a
    fraction.  The one exception is a zero followed by x or X, which
    [parseInt] reads as the mark of a hexadecimal number: with no
    hexadecimal digit behind it the size is NaN. *)
Theorem setup_storage_keeps_number_and_remainder (n : Z) :
  0 <= n < 2 ^ 53 ->
  (forall u,
     In u ["MB"; "GB"; "TB"] ->
     Text.setup_storage (Text.digits n ++ Text.units u) = (Some n, Some (Text.units u)))
  /\ (forall c rest,
        Text.is_digit c = false ->
        (n = 0 -> c <> 0x78 /\ c <> 0x58) ->
        Text.cut (Text.digits n) (c :: rest) = None ->
        Text.setup_storage (Text.digits n ++ c :: rest) = (Some n, Some (c :: rest)))
  /\ (forall c rest,
        c = 0x78 \/ c = 0x58 ->
        match rest with
        | [] => True
        | h :: _ => Text.digit_value 16 h = None
        end ->
        fst (Text.setup_storage (Text.digits 0 ++ c :: rest)) = None).
Proof.
  intros [Hn _]. split; [|split].
  - intros u Hu.
    destruct (TextFacts.digits_head n Hn) as [d [t [Hd [Hrange _]]]].
    apply TextFacts.setup_storage_number_then_rest; [assumption| |].
    + destruct Hu as [<-|[<-|[<-|[]]]]; (split; [reflexivity|intros _; split; discriminate]).
    + rewrite Hd. apply TextFacts.cut_no_digit.
      * unfold Text.is_digit. apply andb_true_iff. split; apply Z.leb_le; lia.
      * now apply TextFacts.units_no_digit_MB_GB_TB.
  - intros c rest Hc Hx Hcut.
    apply TextFacts.setup_storage_number_then_rest; [assumption| |assumption].
    now split.
  - intros c rest Hc Hrest. unfold Text.setup_storage. cbn [fst].
    change (Text.digits 0 ++ c :: rest) with (0x30 :: c :: rest).
    unfold Text.parseInt. cbn [Text.skip_whitespace].
    change (Text.is_whitespace 0x30) with false. cbv iota.
    change (0x30 =? 0x2D) with false. change (0x30 =? 0x2B) with false.
    cbn [orb]. cbv iota.
    change (0x30 =? 0x30) with true. cbn [andb].
    assert (Hhex : (c =? 0x78) || (c =? 0x58) = true).
    { destruct Hc as [->| ->]; reflexivity. }
    rewrite Hhex. cbv zeta iota. cbn [skipn].
    destruct rest as [|h rest']; [reflexivity|].
    cbn [Text.read_digits]. now rewrite Hrest.
Qed.

(** The theorem at the answers 50MB, 2.5GB and 0xGB. *)
Lemma setup_storage_keeps_number_and_remainder_witness :
  Text.setup_storage (Text.units "50MB") = (Some 50, Some (Text.units "MB"))
  /\ Text.setup_storage (Text.units "2.5GB") = (Some 2, Some (Text.units ".5GB"))
  /\ fst (Text.setup_storage (Text.units "0xGB")) = None.
Proof.
  assert (H50 : 0 <= 50 < 2 ^ 53) by (split; [lia|reflexivity]).
  assert (H2 : 0 <= 2 < 2 ^ 53) by (split; [lia|reflexivity]).
  split; [|split].
  - exact (proj1 (setup_storage_keeps_number_and_remainder 50 H50) "MB"
             (or_introl eq_refl)).
  - refine (proj1 (proj2 (setup_storage_keeps_number_and_remainder 2 H2)) 0x2E
              (Text.units "5GB") eq_refl _ eq_refl).
    intro H. discriminate H.
  - exact (proj2 (proj2 (setup_storage_keeps_number_and_remainder 2 H2)) 0x78
             (Text.units "GB") (or_introl eq_refl) eq_refl).
Defined.

(** An answer that does not begin with white space, a sign or a digit has no
    number: the size is NaN, and the unit is undefined unless the text
    contains the letters NaN. *)
Theorem setup_storage_without_number (space : jsstring) :
  match space with
  | [] => True
  | c :: _ =>
      Text.is_whitespace c = false /\ c <> 0x2D /\ c <> 0x2B /\ Text.is_digit c = false
  end ->
  Text.cut (Text.units "NaN") space = None ->
  Text.setup_storage space = (None, None).
Proof.
  intros Hfirst Hcut.
  assert (Hparse : Text.parseInt space = None).
  { unfold Text.parseInt. destruct space as [|c t]; [reflexivity|].
    destruct Hfirst as [Hws [Hminus [Hplus Hdigit]]].
    cbn [Text.skip_whitespace]. rewrite Hws.
    apply Z.eqb_neq in Hminus, Hplus. rewrite Hminus, Hplus. cbn [orb].
    assert (Hzero : (c =? 0x30) = false).
    { apply Z.eqb_neq. intros ->. discriminate Hdigit. }
    replace (match t with
             | [] => false
             | x :: _ => (c =? 0x30) && ((x =? 0x78) || (x =? 0x58))
             end) with false by (destruct t; [reflexivity|now rewrite Hzero]).
    cbv zeta. cbn [Text.read_digits].
    now rewrite TextFacts.digit_value_not_digit. }
  unfold Text.setup_storage. rewrite Hparse. unfold Text.toString, Text.split_1.
  now rewrite Hcut.
Qed.

(** The theorem at the answer GB. *)
Lemma setup_storage_without_number_witness :
  Text.setup_storage (Text.units "GB") = (None, None).
Proof.
  apply setup_storage_without_number; [|reflexivity].
  repeat split; discriminate.
Defined.

(** ** The loop as a whole *)

Module LoopFacts.
Import Runtime Loop.

Lemma exec_pending (e : env) (s : state) (c : cmd) :
  pending (exec e s c) = pending s ++ queued e (clock s) c.
Proof.
  destruct c; simpl; rewrite ?app_nil_r; try reflexivity.
  - now destruct (speedtest e (clock s)).
  - now destruct (filesystem e (clock s) dir).
  - now destruct (reporter e (clock s) r).
Qed.

Lemma exec_clock (e : env) (s : state) (c : cmd) : clock (exec e s c) = clock s.
Proof.
  destruct c; simpl; try reflexivity.
  - now destruct (speedtest e (clock s)).
  - now destruct (filesystem e (clock s) dir).
  - now destruct (reporter e (clock s) r).
Qed.

Lemma exec_all_pending (e : env) (cs : list cmd) :
  forall s,
    pending (exec_all e s cs) = pending s ++ flat_map (queued e (clock s)) cs.
Proof.
  unfold exec_all. induction cs as [|c cs IH]; intro s; simpl.
  - now rewrite app_nil_r.
  - now rewrite IH, exec_pending, exec_clock, app_assoc.
Qed.

Lemma exec_all_thrown (e : env) (cs : list cmd) :
  forall s, thrown (exec_all e s cs) = thrown s.
Proof.
  unfold exec_all. induction cs as [|c cs IH]; intro s; simpl; [reflexivity|].
  now rewrite IH, RuntimeFacts.exec_thrown.
Qed.

(** What a turn of the loop is made of. *)
Lemma step_inversion (e : env) (s s' : state) :
  step e s = Some s' ->
  exists due t rest,
    thrown s = None
    /\ take_due (pending s) = Some ((due, t), rest)
    /\ s' = handle e {| clock := Z.max (clock s) due; cache := cache s;
                        pending := rest; stdout := stdout s; sent := sent s;
                        ticks := ticks s; thrown := thrown s |} t.
Proof.
  unfold step. destruct (thrown s) eqn:Ht; [discriminate|].
  destruct (take_due (pending s)) as [[[due t] rest]|]; [|discriminate].
  intro H. injection H as <-. now exists due, t, rest.
Qed.

(** A callback either throws, which only [report] does, or runs its
    commands. *)
Lemma handle_commands (e : env) (s : state) (t : task) :
  match commands e s t with
  | inl x =>
      t = Timer
      /\ thrown (handle e s t) = Some x
      /\ pending (handle e s t) = pending s
      /\ sent (handle e s t) = sent s
      /\ ticks (handle e s t) = S (ticks s)
  | inr cs =>
      pending (handle e s t) = pending s ++ flat_map (queued e (clock s)) cs
      /\ sent (handle e s t) = sent s ++ reports_of cs
      /\ ticks (handle e s t) = ((if is_timer t then 1 else 0) + ticks s)%nat
      /\ thrown (handle e s t) = thrown s
  end.
Proof.
  destruct t; unfold commands, handle.
  - unfold tick. cbn [clock cache pending stdout sent ticks thrown].
    destruct (report (JSON_parse e) (cfg e) (cache s) (clock s)) as [x|cs].
    + repeat split.
    + rewrite exec_all_pending, RuntimeFacts.exec_all_sent,
        RuntimeFacts.exec_all_ticks, exec_all_thrown. repeat split.
  - rewrite exec_all_pending, RuntimeFacts.exec_all_sent,
      RuntimeFacts.exec_all_ticks, exec_all_thrown. repeat split.
  - rewrite exec_all_pending, RuntimeFacts.exec_all_sent,
      RuntimeFacts.exec_all_ticks, exec_all_thrown. repeat split.
  - rewrite exec_all_pending, RuntimeFacts.exec_all_sent,
      RuntimeFacts.exec_all_ticks, exec_all_thrown. repeat split.
Qed.

Lemma take_due_Forall (P : Z * task -> Prop) (q : list (Z * task)) :
  forall x rest,
    take_due q = Some (x, rest) -> Forall P q -> P x /\ Forall P rest.
Proof.
  induction q as [|y q IH]; intros x rest H Hq; simpl in H; [discriminate|].
  inversion Hq as [|? ? Hy Hq']; subst.
  destruct (take_due q) as [[z rest']|] eqn:E.
  - destruct (IH z rest' eq_refl Hq') as [Hz Hrest'].
    destruct (fst y <=? fst z); injection H as <- <-; split; auto.
  - injection H as <- <-. split; auto.
Qed.

(** The commands of [report]: a speed test, or [send]. *)
Lemma report_cases (parse : string -> option bandwidth) (c : config)
      (file : option string) (now : Z) (cs : list cmd) :
  report parse c file now = inr cs ->
  cs = [StartSpeedTest SPEEDTEST_URL] \/ exists bw, cs = send c bw.
Proof.
  unfold report. destruct (needstest parse file now) as [x|[flag bw]]; [discriminate|].
  destruct (flag && JS.truthy SPEEDTEST_URL); intro H; injection H as <-.
  - now left.
  - right. now exists bw.
Qed.


(** *** While the measurement fails *)

Lemma failing_walk (e : env) (now : Z) :
  (forall t, accessible (fst (filesystem e t (path (storage (cfg e))))) = false) ->
  fst (getDirectorySize (fst (filesystem e now (path (storage (cfg e)))))) <> None.
Proof.
  intros Hfs H. apply getDirectorySize_error_free in H. rewrite Hfs in H. discriminate.
Qed.

Lemma handle_quiet (e : env) (s : state) (due : Z) (t : task) :
  (forall t, accessible (fst (filesystem e t (path (storage (cfg e))))) = false) ->
  failed_measure_or_other (due, t) ->
  sent s = [] -> Forall failed_measure_or_other (pending s) ->
  sent (handle e s t) = [] /\ Forall failed_measure_or_other (pending (handle e s t)).
Proof.
  intros Hfs Ht Hsent Hpending.
  pose proof (handle_commands e s t) as H.
  destruct (commands e s t) as [x|cs] eqn:E.
  - destruct H as [_ [_ [Hp [Hs _]]]]. now rewrite Hp, Hs.
  - destruct H as [Hp [Hs _]]. rewrite Hp, Hs, Hsent.
    assert (Hcs : reports_of cs = []
                  /\ Forall failed_measure_or_other (flat_map (queued e (clock s)) cs)).
    { destruct t as [|res|bw args|err r]; cbn [commands] in E.
      - destruct (report_cases _ _ _ _ _ E) as [->|[bw ->]].
        + split; [reflexivity|]. repeat constructor.
        + split; [reflexivity|]. unfold send. cbn [flat_map queued app].
          repeat constructor. apply (failing_walk e (clock s) Hfs).
      - injection E as <-. destruct res as [msg|res].
        + split; [reflexivity|]. constructor.
        + split; [reflexivity|]. unfold tested, send. cbn [flat_map queued app].
          repeat constructor. apply (failing_walk e (clock s) Hfs).
      - injection E as <-. unfold failed_measure_or_other in Ht. cbn [snd] in Ht.
        unfold measured. destruct args as [[x|] used]; [now split|].
        now contradiction Ht.
      - contradiction Ht. }
    destruct Hcs as [-> Hq]. split; [reflexivity|]. apply Forall_app. now split.
Qed.

Lemma no_report_invariant (e : env) (t0 : Z) (file : option string) (n : nat) :
  (forall t, accessible (fst (filesystem e t (path (storage (cfg e))))) = false) ->
  sent (run e n (boot e t0 file)) = []
  /\ Forall failed_measure_or_other (pending (run e n (boot e t0 file))).
Proof.
  intro Hfs.
  apply (RuntimeFacts.run_invariant e
           (fun s => sent s = [] /\ Forall failed_measure_or_other (pending s))).
  - intros s s' Hstep [Hsent Hpending].
    destruct (step_inversion e s s' Hstep) as [due [t [rest [_ [Hdue ->]]]]].
    destruct (take_due_Forall _ _ _ _ Hdue Hpending) as [Ht Hrest].
    now apply (handle_quiet e _ due t).
  - unfold boot. destruct (telemetry_enabled (cfg e)); [|now split].
    apply (handle_quiet e _ t0 Timer); try assumption; try exact I; constructor.
Qed.

(** *** Reports and ticks *)

Lemma handle_load (e : env) (s : state) (t : task) :
  (load (handle e s t) + ticks s
   <= load s + (if is_measure t then 1 else 0)
      + (if is_speed_test t then 1 else 0) + ticks (handle e s t))%nat.
Proof.
  unfold load. pose proof (handle_commands e s t) as H.
  destruct (commands e s t) as [x|cs] eqn:E.
  - destruct H as [-> [_ [Hp [Hs Hk]]]]. rewrite Hp, Hs, Hk. simpl. lia.
  - destruct H as [Hp [Hs [Hk _]]]. rewrite Hp, Hs, Hk.
    rewrite !RuntimeFacts.count_app, length_app.
    destruct t as [|res|bw args|err r]; cbn [commands] in E.
    + destruct (report_cases _ _ _ _ _ E) as [->|[bw ->]];
        unfold send, count; simpl; lia.
    + injection E as <-. destruct res; unfold tested, send, count; simpl; lia.
    + injection E as <-. unfold measured. destruct args as [[x|] used];
        unfold count; simpl; lia.
    + injection E as <-. unfold reported, count; simpl; lia.
Qed.

Lemma load_invariant (e : env) (t0 : Z) (file : option string) (n : nat) :
  (load (run e n (boot e t0 file)) <= ticks (run e n (boot e t0 file)))%nat.
Proof.
  apply (RuntimeFacts.run_invariant e (fun s => (load s <= ticks s)%nat)).
  - intros s s' Hstep Hs.
    destruct (step_inversion e s s' Hstep) as [due [t [rest [_ [Hdue ->]]]]].
    match goal with |- (load (handle e ?s0 t) <= _)%nat =>
      pose proof (handle_load e s0 t) as Hh end.
    pose proof (RuntimeFacts.take_due_count is_measure _ _ _ Hdue) as Hm.
    pose proof (RuntimeFacts.take_due_count is_speed_test _ _ _ Hdue) as Hs'.
    cbn [snd] in Hm, Hs'.
    unfold load in *. cbn [sent pending ticks] in Hh. lia.
  - unfold boot. destruct (telemetry_enabled (cfg e)); [|unfold load, count; simpl; lia].
    match goal with |- (load (tick e ?s0) <= _)%nat =>
      pose proof (handle_load e s0 Timer) as Hh end.
    cbn [handle is_measure is_speed_test] in Hh.
    unfold load, count in *. cbn [sent pending ticks filter List.length] in Hh. lia.
Qed.

(** *** What keeps the loop going *)

Lemma handle_alive (e : env) (s : state) (due : Z) (t : task) :
  (forall t, exists r, fst (speedtest e t) = inr r) ->
  no_failed_test (due, t) ->
  thrown s = None ->
  Forall no_failed_test (pending s) ->
  (thrown (handle e s t) = None ->
   count drives (pending (handle e s t))
   = (count drives (pending s) + (if drives t then 1 else 0))%nat)
  /\ Forall no_failed_test (pending (handle e s t)).
Proof.
  intros Htest Ht Hthrown Hpending.
  pose proof (handle_commands e s t) as H.
  destruct (commands e s t) as [x|cs] eqn:E.
  - destruct H as [_ [Hx [Hp _]]]. rewrite Hx, Hp. split; [discriminate|assumption].
  - destruct H as [Hp [_ [_ _]]]. rewrite Hp, RuntimeFacts.count_app.
    assert (Hcs : count drives (flat_map (queued e (clock s)) cs)
                  = (if drives t then 1 else 0)%nat
                  /\ Forall no_failed_test (flat_map (queued e (clock s)) cs)).
    { assert (Hok : no_failed_test
                      (clock s + Z.of_N (snd (speedtest e (clock s))),
                       SpeedTestDone (fst (speedtest e (clock s))))).
      { unfold no_failed_test. cbn [snd].
        destruct (Htest (clock s)) as [r ->]. exact I. }
      destruct t as [|res|bw args|err r]; cbn [commands] in E.
      - destruct (report_cases _ _ _ _ _ E) as [->|[bw ->]].
        + split; [reflexivity|]. cbn [flat_map queued app]. now repeat constructor.
        + split; [reflexivity|]. unfold send. cbn [flat_map queued app].
          repeat constructor.
      - injection E as <-. destruct res as [msg|res]; [contradiction Ht|].
        split; [reflexivity|]. unfold tested, send. cbn [flat_map queued app].
        repeat constructor.
      - injection E as <-. unfold measured. destruct args as [[x|] used].
        + split; [reflexivity|constructor].
        + split; [reflexivity|]. cbn [flat_map queued app]. repeat constructor.
      - injection E as <-. split; [reflexivity|constructor]. }
    destruct Hcs as [-> Hq]. split; [reflexivity|]. apply Forall_app. now split.
Qed.

Lemma alive_invariant (e : env) (t0 : Z) (file : option string) (n : nat) :
  telemetry_enabled (cfg e) = true ->
  (forall t, exists r, fst (speedtest e t) = inr r) ->
  (thrown (run e n (boot e t0 file)) = None ->
   count drives (pending (run e n (boot e t0 file))) = 1%nat)
  /\ Forall no_failed_test (pending (run e n (boot e t0 file))).
Proof.
  intros Hen Htest.
  apply (RuntimeFacts.run_invariant e
           (fun s => (thrown s = None -> count drives (pending s) = 1%nat)
                     /\ Forall no_failed_test (pending s))).
  - intros s s' Hstep [Hone Hpending].
    destruct (step_inversion e s s' Hstep) as [due [t [rest [Hthrown [Hdue ->]]]]].
    destruct (take_due_Forall _ _ _ _ Hdue Hpending) as [Ht Hrest].
    pose proof (RuntimeFacts.take_due_count drives _ _ _ Hdue) as Hc. cbn [snd] in Hc.
    match goal with |- (thrown (handle e ?s0 t) = None -> _) /\ _ =>
      destruct (handle_alive e s0 due t Htest Ht Hthrown Hrest) as [Hcount Hq] end.
    split; [|assumption]. intro Hn. rewrite (Hcount Hn). cbn [pending].
    specialize (Hone Hthrown). lia.
  - unfold boot. rewrite Hen.
    match goal with |- (thrown (tick e ?s0) = None -> _) /\ _ =>
      destruct (handle_alive e s0 t0 Timer Htest I eq_refl (Forall_nil _))
        as [Hcount Hq] end.
    split; [|exact Hq]. intro Hn. exact (Hcount Hn).
Qed.

End LoopFacts.

(** ** The telemetry loop over its whole run *)

(** While the walk of [config.storage.path] fails, nothing is handed to
    [reporter.send], however long the loop runs and whatever the cache file
    and the speed tests do. *)
Theorem no_report_while_measurement_fails
  (e : Runtime.env) (t0 : Z) (file : option string) (n : nat) :
  (forall t, accessible (fst (Runtime.filesystem e t (path (storage (Runtime.cfg e)))))
             = false) ->
  Runtime.sent (Runtime.run e n (Runtime.boot e t0 file)) = [].
Proof. intro Hfs. now apply LoopFacts.no_report_invariant. Qed.

(** The theorem for a data directory that does not exist, after two hundred
    turns of the loop. *)
Lemma no_report_while_measurement_fails_witness :
  Runtime.sent (Runtime.run Scenario2.no_data_dir 200
                  (Runtime.boot Scenario2.no_data_dir 0 None)) = [].
Proof.
  apply (no_report_while_measurement_fails Scenario2.no_data_dir 0 None 200).
  intro t. reflexivity.
Defined.

(** In every state of the loop the reports handed to [reporter.send],
    together with the walks and the speed tests under way, are at most as
    many as the calls of [report]: a call of [report] leads to one report at
    most. *)
Theorem reports_never_exceed_ticks
  (e : Runtime.env) (t0 : Z) (file : option string) (n : nat) :
  (Loop.load (Runtime.run e n (Runtime.boot e t0 file))
   <= Runtime.ticks (Runtime.run e n (Runtime.boot e t0 file)))%nat
  /\ (List.length (Runtime.sent (Runtime.run e n (Runtime.boot e t0 file)))
      <= Runtime.ticks (Runtime.run e n (Runtime.boot e t0 file)))%nat.
Proof.
  pose proof (LoopFacts.load_invariant e t0 file n) as H.
  split; [exact H|]. unfold Loop.load in H. lia.
Qed.

(** With telemetry enabled and speed tests that succeed, the loop goes on
    for as long as no exception is thrown: in every state exactly one timer
    or speed test is pending, and there is a next turn. *)
Theorem loop_goes_on_while_speed_tests_succeed
  (e : Runtime.env) (t0 : Z) (file : option string) (n : nat) :
  telemetry_enabled (Runtime.cfg e) = true ->
  (forall t, exists r, fst (Runtime.speedtest e t) = inr r) ->
  Runtime.thrown (Runtime.run e n (Runtime.boot e t0 file)) = None ->
  Runtime.count Runtime.drives
    (Runtime.pending (Runtime.run e n (Runtime.boot e t0 file))) = 1%nat
  /\ Runtime.step e (Runtime.run e n (Runtime.boot e t0 file)) <> None.
Proof.
  intros Hen Htest Hthrown.
  destruct (LoopFacts.alive_invariant e t0 file n Hen Htest) as [Hone _].
  specialize (Hone Hthrown). split; [exact Hone|].
  unfold Runtime.step. rewrite Hthrown.
  destruct (Runtime.take_due (Runtime.pending (Runtime.run e n (Runtime.boot e t0 file))))
    as [[[due t] rest]|] eqn:E; [discriminate|].
  apply RuntimeFacts.take_due_none in E. rewrite E in Hone. discriminate.
Qed.

(** The theorem on the slow disk with a fresh sample in the cache file,
    after fifty turns. *)
Lemma loop_goes_on_while_speed_tests_succeed_witness :
  Runtime.count Runtime.drives
    (Runtime.pending (Runtime.run Scenario.slow_disk 50
                        (Runtime.boot Scenario.slow_disk 0
                           (Some Scenario.sample0_text)))) = 1%nat.
Proof.
  refine (proj1 (loop_goes_on_while_speed_tests_succeed Scenario.slow_disk 0
                   (Some Scenario.sample0_text) 50 eq_refl _ _)).
  - intro t. eexists. reflexivity.
  - vm_compute. reflexivity.
Defined.

(** The callback of a speed test that succeeded leaves its sample in the
    cache file, stamped with the time at which it ran; a call of [report]
    up to 25 hours after that reads it back and goes to [send] with it,
    without a speed test. *)
Theorem fresh_sample_is_reused
  (e : Runtime.env) (s : Runtime.state) (r : speed_result) (now : Z) :
  JS.truthy (Runtime.JSON_stringify e
               {| upload := result_upload r; download := result_download r;
                  timestamp := JS.Num (Runtime.clock s) |}) = true ->
  Runtime.JSON_parse e
    (Runtime.JSON_stringify e
       {| upload := result_upload r; download := result_download r;
          timestamp := JS.Num (Runtime.clock s) |})
  = Some {| upload := result_upload r; download := result_download r;
            timestamp := JS.Num (Runtime.clock s) |} ->
  Z.abs (Runtime.clock s) <= JS.maxTime ->
  now - Runtime.clock s <= hours25 ->
  Runtime.cache (Runtime.handle e s (Runtime.SpeedTestDone (inr r)))
  = Some (Runtime.JSON_stringify e
            {| upload := result_upload r; download := result_download r;
               timestamp := JS.Num (Runtime.clock s) |})
  /\ report (Runtime.JSON_parse e) (Runtime.cfg e)
       (Runtime.cache (Runtime.handle e s (Runtime.SpeedTestDone (inr r)))) now
     = inr (send (Runtime.cfg e)
              (Some {| upload := result_upload r; download := result_download r;
                       timestamp := JS.Num (Runtime.clock s) |})).
Proof.
  intros Htext Hparse Hrange Hage.
  assert (Hcache : Runtime.cache (Runtime.handle e s (Runtime.SpeedTestDone (inr r)))
                   = Some (Runtime.JSON_stringify e
                             {| upload := result_upload r;
                                download := result_download r;
                                timestamp := JS.Num (Runtime.clock s) |})).
  { unfold Runtime.handle, tested, send, Runtime.exec_all.
    cbn [fold_left Runtime.exec].
    rewrite String.eqb_refl. cbn [Runtime.clock].
    destruct (Runtime.filesystem e (Runtime.clock s) (path (storage (Runtime.cfg e))))
      as [tree d].
    reflexivity. }
  split; [exact Hcache|]. rewrite Hcache.
  unfold report, needstest. rewrite Htext, Hparse. simpl.
  apply Z.leb_le in Hrange. rewrite Hrange. simpl.
  apply Z.ltb_ge in Hage. now rewrite Hage.
Qed.

(** The theorem for a speed test that ends at time 0 and a tick five
    minutes later. *)
Lemma fresh_sample_is_reused_witness :
  report Scenario.JSON_parse Scenario.cfg0
    (Runtime.cache
       (Runtime.handle Scenario.slow_disk
          {| Runtime.clock := 0; Runtime.cache := None; Runtime.pending := [];
             Runtime.stdout := []; Runtime.sent := []; Runtime.ticks := 1%nat;
             Runtime.thrown := None |}
          (Runtime.SpeedTestDone
             (inr {| result_upload := JS.Num 100; result_download := JS.Num 200 |}))))
    300000
  = inr (send Scenario.cfg0 (Some Scenario.sample0)).
Proof.
  refine (proj2 (fresh_sample_is_reused Scenario.slow_disk
                   {| Runtime.clock := 0; Runtime.cache := None; Runtime.pending := [];
                      Runtime.stdout := []; Runtime.sent := []; Runtime.ticks := 1%nat;
                      Runtime.thrown := None |}
                   {| result_upload := JS.Num 100; result_download := JS.Num 200 |}
                   300000 eq_refl eq_refl _ _)).
  - unfold JS.maxTime. simpl. lia.
  - unfold hours25. simpl. lia.
Defined.

(** ** Work of one tick under way at the next *)
Module OverlapFacts.
Import Runtime Loop Backlog.

Lemma task_eq_dec (a b : Z * task) : {a = b} + {a <> b}.
Proof. repeat decide equality. Qed.

Lemma take_due_In (q : list (Z * task)) :
  forall x rest,
    take_due q = Some (x, rest) -> forall z, In z q <-> z = x \/ In z rest.
Proof.
  induction q as [|y q IH]; intros x rest H z; simpl in H; [discriminate|].
  destruct (take_due q) as [[w rest']|] eqn:E.
  - specialize (IH w rest' eq_refl z).
    destruct (fst y <=? fst w); injection H as <- <-; simpl; split; intro Hz.
    + destruct Hz as [->|Hz]; auto.
    + destruct Hz as [->|Hz]; auto.
    + destruct Hz as [->|Hz]; [auto|]. apply IH in Hz. tauto.
    + destruct Hz as [->|[->|Hz]]; [right; apply IH; auto|auto|right; apply IH; auto].
  - apply RuntimeFacts.take_due_none in E. subst q.
    injection H as <- <-. simpl. split; intro Hz.
    + destruct Hz as [->|[]]. now left.
    + destruct Hz as [->|[]]. now left.
Qed.

(** The callback taken is due no later than any that is pending. *)
Lemma take_due_min (q : list (Z * task)) :
  forall x rest, take_due q = Some (x, rest) -> forall z, In z q -> fst x <= fst z.
Proof.
  induction q as [|y q IH]; intros x rest H z Hz; simpl in H; [discriminate|].
  destruct (take_due q) as [[w rest']|] eqn:E.
  - specialize (IH w rest' eq_refl).
    destruct (Z.leb_spec (fst y) (fst w)) as [Hle|Hgt]; injection H as <- <-.
    + destruct Hz as [->|Hz]; [lia|]. specialize (IH z Hz). lia.
    + destruct Hz as [->|Hz]; [lia|]. now apply IH.
  - apply RuntimeFacts.take_due_none in E. subst q.
    injection H as <- <-. destruct Hz as [->|[]]. lia.
Qed.

Lemma backlog_app (q1 q2 : list (Z * task)) :
  backlog (q1 ++ q2) = (backlog q1 + backlog q2)%nat.
Proof. unfold backlog. now rewrite map_app, list_sum_app. Qed.

Lemma take_due_backlog (q : list (Z * task)) :
  forall x rest,
    take_due q = Some (x, rest) -> backlog q = (weight (snd x) + backlog rest)%nat.
Proof.
  induction q as [|y q IH]; intros x rest H; simpl in H; [discriminate|].
  destruct (take_due q) as [[w rest']|] eqn:E.
  - specialize (IH w rest' eq_refl).
    destruct (fst y <=? fst w); injection H as <- <-; unfold backlog in *; simpl.
    + reflexivity.
    + rewrite IH. simpl. lia.
  - apply RuntimeFacts.take_due_none in E. subst q. now injection H as <- <-.
Qed.

(** With one callback of its kind pending, two that are pending are one. *)
Lemma count_unique (p : task -> bool) (q : list (Z * task)) (a b : Z * task) :
  count p q = 1%nat ->
  In a q -> In b q -> p (snd a) = true -> p (snd b) = true -> a = b.
Proof.
  induction q as [|y q IH]; intros Hc Ha Hb Hpa Hpb; [contradiction|].
  rewrite RuntimeFacts.count_cons in Hc.
  assert (Hnone : forall z, count p q = 0%nat -> In z q -> p (snd z) = true -> False).
  { clear. induction q as [|w q IH]; intros z Hc Hz Hp; [contradiction|].
    rewrite RuntimeFacts.count_cons in Hc. destruct Hz as [->|Hz].
    - rewrite Hp in Hc. lia.
    - apply (IH z); [lia|assumption|assumption]. }
  destruct Ha as [->|Ha], Hb as [->|Hb].
  - reflexivity.
  - rewrite Hpa in Hc. exfalso. apply (Hnone b); [lia|assumption|assumption].
  - rewrite Hpb in Hc. exfalso. apply (Hnone a); [lia|assumption|assumption].
  - destruct (p (snd y)).
    + exfalso. apply (Hnone a); [lia|assumption|assumption].
    + apply IH; [lia|assumption|assumption|assumption|assumption].
Qed.

Lemma exec_all_clock (e : env) (cs : list cmd) :
  forall s, clock (exec_all e s cs) = clock s.
Proof.
  unfold exec_all. induction cs as [|c cs IH]; intro s; simpl; [reflexivity|].
  now rewrite IH, LoopFacts.exec_clock.
Qed.

(** The callback of a walk or of a delivery: it cannot throw, calls
    [report] no more, sets no timer, and leaves less to do. *)
Lemma handle_work (e : env) (s : state) (t : task) :
  drives t = false ->
  thrown (handle e s t) = thrown s
  /\ clock (handle e s t) = clock s
  /\ ticks (handle e s t) = ticks s
  /\ exists new,
       pending (handle e s t) = pending s ++ new
       /\ count drives new = 0%nat
       /\ (backlog new + 1 <= weight t)%nat.
Proof.
  intro Ht. destruct t as [|res|bw args|err r]; try discriminate; unfold handle.
  - rewrite LoopFacts.exec_all_thrown, exec_all_clock, RuntimeFacts.exec_all_ticks,
      LoopFacts.exec_all_pending.
    repeat split. eexists. split; [reflexivity|].
    unfold measured. destruct args as [[x|] used]; cbn [flat_map queued app].
    + split; [reflexivity|]. cbn. lia.
    + split; [reflexivity|]. cbn. lia.
  - rewrite LoopFacts.exec_all_thrown, exec_all_clock, RuntimeFacts.exec_all_ticks,
      LoopFacts.exec_all_pending.
    repeat split. eexists. split; [reflexivity|].
    unfold reported. cbn [flat_map queued app]. split; [reflexivity|]. cbn. lia.
Qed.

Lemma run_add (e : env) (a b : nat) :
  forall s, run e (a + b) s = run e b (run e a s).
Proof.
  induction a as [|a IH]; intro s; [reflexivity|]. cbn [Nat.add run].
  destruct (step e s) as [s'|] eqn:E; [apply IH|].
  now rewrite RuntimeFacts.run_stopped.
Qed.

(** The turn of a callback [y] that is pending comes, after the callbacks
    due before it have run; what is due after it is still pending then.
    [x] is the timer, of which there is one. *)
Lemma reach (e : env) (x y : Z * task) (keep : list (Z * task)) :
  drives (snd x) = true ->
  (y = x \/ fst y < fst x) ->
  Forall (fun z => fst y < fst z) keep ->
  forall N s,
    thrown s = None ->
    count drives (pending s) = 1%nat ->
    In x (pending s) ->
    In y (pending s) ->
    incl keep (pending s) ->
    clock s <= fst y ->
    (backlog (pending s) <= N)%nat ->
    exists k rest,
      thrown (run e k s) = None
      /\ take_due (pending (run e k s)) = Some (y, rest)
      /\ ticks (run e k s) = ticks s
      /\ clock (run e k s) <= fst y
      /\ count drives (pending (run e k s)) = 1%nat
      /\ (y <> x -> In x rest)
      /\ incl keep rest.
Proof.
  intros Hx Hyx Hkeep.
  induction N as [|N IH]; intros s Hthrown Hone Hxin Hyin Hkin Hclock Hback.
  all: destruct (take_due (pending s)) as [[[due t] rest0]|] eqn:E;
    [|apply RuntimeFacts.take_due_none in E; rewrite E in Hyin; contradiction].
  all: pose proof (take_due_In _ _ _ E) as Hin.
  all: pose proof (take_due_min _ _ _ E) as Hmin; cbn [fst] in Hmin.
  all: pose proof (take_due_backlog _ _ _ E) as Hb; cbn [snd] in Hb.
  all: pose proof (RuntimeFacts.take_due_count drives _ _ _ E) as Hc; cbn [snd] in Hc.
  all: assert (Hdone : (due, t) = y ->
                       exists k rest,
                         thrown (run e k s) = None
                         /\ take_due (pending (run e k s)) = Some (y, rest)
                         /\ ticks (run e k s) = ticks s
                         /\ clock (run e k s) <= fst y
                         /\ count drives (pending (run e k s)) = 1%nat
                         /\ (y <> x -> In x rest)
                         /\ incl keep rest)
    by (intro Heq; exists 0%nat, rest0; cbn [run]; rewrite <- Heq at 1;
        repeat split; try assumption;
        [intro Hne; apply Hin in Hxin as [Hxy|Hr]; [congruence|exact Hr]
        |intros z Hz; pose proof (Hkin z Hz) as Hzin;
         apply Hin in Hzin as [Hzy|Hr]; [|exact Hr];
         rewrite Forall_forall in Hkeep; specialize (Hkeep z Hz);
         rewrite Hzy, Heq in Hkeep; lia]).
  all: destruct (task_eq_dec (due, t) y) as [Heq|Hne]; [now apply Hdone|].
  all: assert (Hwork : drives t = false)
    by (destruct (drives t) eqn:Hd; [|reflexivity];
        assert (Htx : (due, t) = x)
          by (apply (count_unique drives (pending s)); try assumption;
              apply Hin; now left);
        destruct Hyx as [Hyx|Hyx]; [congruence|];
        specialize (Hmin y Hyin); rewrite <- Htx in Hyx; cbn [fst] in Hyx; lia).
  all: assert (Hw : (1 <= weight t)%nat)
    by (destruct t; try discriminate; cbn; lia).
  - lia.
  - rewrite Hwork in Hc.
    destruct (handle_work e {| clock := Z.max (clock s) due; cache := cache s;
                               pending := rest0; stdout := stdout s; sent := sent s;
                               ticks := ticks s; thrown := thrown s |} t Hwork)
      as [Ht' [Hc' [Hk' [new [Hp' [Hnew Hless]]]]]].
    cbn [thrown clock ticks pending] in Ht', Hc', Hk', Hp'.
    assert (Hstep : step e s
                    = Some (handle e {| clock := Z.max (clock s) due; cache := cache s;
                                        pending := rest0; stdout := stdout s;
                                        sent := sent s; ticks := ticks s;
                                        thrown := thrown s |} t)).
    { unfold step. now rewrite Hthrown, E. }
    set (s' := handle e _ t) in *.
    assert (Hrest : forall z, In z (pending s) -> z <> (due, t) -> In z (pending s')).
    { intros z Hz Hzne. rewrite Hp'. apply in_or_app. left.
      apply Hin in Hz as [Hz|Hz]; [congruence|exact Hz]. }
    destruct (IH s') as [k [rest [H1 [H2 [H3 [H4 [H5 [H6 H7]]]]]]]].
    + congruence.
    + rewrite Hp', RuntimeFacts.count_app, Hnew. lia.
    + apply Hrest; [assumption|]. intro Hxe. rewrite Hxe in Hx. cbn [snd] in Hx. congruence.
    + apply Hrest; [assumption|congruence].
    + intros z Hz. apply Hrest; [now apply Hkin|].
      intro Hze. rewrite Forall_forall in Hkeep. specialize (Hkeep z Hz).
      specialize (Hmin y Hyin). rewrite Hze in Hkeep. cbn [fst] in Hkeep. lia.
    + rewrite Hc'. specialize (Hmin y Hyin). lia.
    + rewrite Hp', backlog_app. lia.
    + exists (S k), rest. cbn [run]. rewrite Hstep.
      repeat split; try assumption. congruence.
Qed.

(** When the turn of the timer has come, the next turn is a call of
    [report], and what is pending beside the timer stays so. *)
Lemma timer_turn (e : env) (s : state) (due : Z) (rest : list (Z * task)) :
  thrown s = None ->
  take_due (pending s) = Some ((due, Timer), rest) ->
  ticks (run e 1 s) = S (ticks s) /\ incl rest (pending (run e 1 s)).
Proof.
  intros Hthrown E. cbn [run]. unfold step. rewrite Hthrown, E.
  match goal with |- context [handle e ?s0 Timer] =>
    pose proof (LoopFacts.handle_commands e s0 Timer) as H;
    destruct (commands e s0 Timer) as [exc|cs] end.
  - destruct H as [_ [_ [Hp [_ Hk]]]]. rewrite Hk, Hp. split; [reflexivity|].
    intros z Hz. exact Hz.
  - destruct H as [Hp [_ [Hk _]]]. rewrite Hk, Hp. split; [reflexivity|].
    intros z Hz. apply in_or_app. now left.
Qed.

(** The state in which [send] has run. *)
Lemma after_send (e : env) (s : state) (bw : option bandwidth) (tree : node) (d : N) :
  filesystem e (clock s) (path (storage (cfg e))) = (tree, d) ->
  pending (exec_all e s (send (cfg e) bw))
  = pending s ++ [(clock s + Z.of_N d, MeasureDone bw (getDirectorySize tree));
                  (clock s + 300000, Timer)]
  /\ thrown (exec_all e s (send (cfg e) bw)) = thrown s
  /\ ticks (exec_all e s (send (cfg e) bw)) = ticks s
  /\ clock (exec_all e s (send (cfg e) bw)) = clock s.
Proof.
  intro Hfs.
  rewrite LoopFacts.exec_all_pending, LoopFacts.exec_all_thrown,
    RuntimeFacts.exec_all_ticks, exec_all_clock.
  repeat split. unfold send. cbn [flat_map queued app]. now rewrite Hfs.
Qed.

(** A walk that takes longer than the timer is under way at the next call
    of [report]. *)
Lemma slow_walk_overlaps (e : env) (s : state) (bw : option bandwidth)
      (tree : node) (d : N) :
  thrown s = None ->
  count drives (pending s) = 0%nat ->
  filesystem e (clock s) (path (storage (cfg e))) = (tree, d) ->
  300000 < Z.of_N d ->
  exists k,
    ticks (run e k (exec_all e s (send (cfg e) bw))) = S (ticks s)
    /\ In (clock s + Z.of_N d, MeasureDone bw (getDirectorySize tree))
          (pending (run e k (exec_all e s (send (cfg e) bw)))).
Proof.
  intros Hthrown Hzero Hfs Hslow.
  destruct (after_send e s bw tree d Hfs) as [Hp [Ht [Hk Hc]]].
  set (s1 := exec_all e s (send (cfg e) bw)) in *.
  set (m := (clock s + Z.of_N d, MeasureDone bw (getDirectorySize tree))) in *.
  set (x := (clock s + 300000, Timer)) in *.
  assert (Hxm : fst x < fst m) by (unfold m, x; cbn [fst]; lia).
  destruct (reach e x x [m] eq_refl (or_introl eq_refl)
              ltac:(constructor; [exact Hxm|constructor])
              (backlog (pending s1)) s1)
    as [k [rest [H1 [H2 [H3 [_ [_ [_ H7]]]]]]]].
  - congruence.
  - rewrite Hp, RuntimeFacts.count_app, Hzero. reflexivity.
  - rewrite Hp. apply in_or_app. right. right. now left.
  - rewrite Hp. apply in_or_app. right. right. now left.
  - intros z [<-|[]]. rewrite Hp. apply in_or_app. right. now left.
  - rewrite Hc. unfold x. cbn [fst]. lia.
  - lia.
  - destruct (timer_turn e (run e k s1) _ rest H1 H2) as [Hticks Hincl].
    exists (k + 1)%nat. rewrite run_add. split.
    + rewrite Hticks, H3, Hk. reflexivity.
    + apply Hincl, H7. now left.
Qed.

(** A delivery that ends later than the timer is under way at the next call
    of [report]. *)
Lemma slow_delivery_overlaps (e : env) (s : state) (bw : option bandwidth)
      (tree : node) (d1 : N) (rep : report_t) (err : option string) (d2 : N) :
  thrown s = None ->
  count drives (pending s) = 0%nat ->
  filesystem e (clock s) (path (storage (cfg e))) = (tree, d1) ->
  measured (cfg e) (farmer_contact e) bw (getDirectorySize tree) = [ReporterSend rep] ->
  reporter e (clock s + Z.of_N d1) rep = (err, d2) ->
  Z.of_N d1 < 300000 ->
  300000 < Z.of_N d1 + Z.of_N d2 ->
  exists k,
    ticks (run e k (exec_all e s (send (cfg e) bw))) = S (ticks s)
    /\ In rep (sent (run e k (exec_all e s (send (cfg e) bw))))
    /\ In (clock s + Z.of_N d1 + Z.of_N d2, ReporterDone err rep)
          (pending (run e k (exec_all e s (send (cfg e) bw)))).
Proof.
  intros Hthrown Hzero Hfs Hrep Hdel Hquick Hslow.
  destruct (after_send e s bw tree d1 Hfs) as [Hp [Ht [Hk Hc]]].
  set (s1 := exec_all e s (send (cfg e) bw)) in *.
  set (m := (clock s + Z.of_N d1, MeasureDone bw (getDirectorySize tree))) in *.
  set (x := (clock s + 300000, Timer)) in *.
  set (dl := (clock s + Z.of_N d1 + Z.of_N d2, ReporterDone err rep)).
  assert (Hmx : m <> x) by discriminate.
  (* the turn of the callback of the walk *)
  assert (Hmx' : fst m < fst x) by (unfold m, x; cbn [fst]; lia).
  destruct (reach e x m [x] eq_refl (or_intror Hmx')
              ltac:(constructor; [exact Hmx'|constructor])
              (backlog (pending s1)) s1)
    as [k1 [rest1 [H1 [H2 [H3 [H4 [H5 [H6 _]]]]]]]].
  { congruence. }
  { rewrite Hp, RuntimeFacts.count_app, Hzero. reflexivity. }
  { rewrite Hp. apply in_or_app. right. right. now left. }
  { rewrite Hp. apply in_or_app. right. now left. }
  { intros z [<-|[]]. rewrite Hp. apply in_or_app. right. right. now left. }
  { rewrite Hc. unfold m, x. cbn [fst]. lia. }
  { lia. }
  set (r1 := run e k1 s1) in *.
  pose proof (RuntimeFacts.take_due_count drives _ _ _ H2) as Hcount.
  unfold m in Hcount. cbn [snd drives] in Hcount.
  (* the callback of the walk hands the report to the reporter *)
  assert (Hturn : step e r1
                  = Some (exec_all e
                            {| clock := Z.max (clock r1) (clock s + Z.of_N d1);
                               cache := cache r1; pending := rest1;
                               stdout := stdout r1; sent := sent r1;
                               ticks := ticks r1; thrown := thrown r1 |}
                            [ReporterSend rep])).
  { unfold step. rewrite H1, H2. unfold m, handle. now rewrite Hrep. }
  cbn [fst m] in H4.
  rewrite Z.max_r in Hturn by exact H4.
  unfold exec_all in Hturn. cbn [fold_left exec clock] in Hturn.
  rewrite Hdel in Hturn. unfold later in Hturn.
  cbn [clock cache pending stdout sent ticks thrown] in Hturn.
  match type of Hturn with _ = Some ?st => set (s2 := st) in * end.
  assert (Hxdl : fst x < fst dl) by (unfold dl, x; cbn [fst]; lia).
  destruct (reach e x x [dl] eq_refl (or_introl eq_refl)
              ltac:(constructor; [exact Hxdl|constructor])
              (backlog (pending s2)) s2)
    as [k2 [rest2 [G1 [G2 [G3 [_ [_ [_ G7]]]]]]]].
  { exact H1. }
  { unfold s2. cbn [pending]. rewrite RuntimeFacts.count_app.
    assert (Hdl : count drives [dl] = 0%nat) by reflexivity.
    unfold dl in Hdl. rewrite Hdl. lia. }
  { unfold s2. cbn [pending]. apply in_or_app. left. now apply H6. }
  { unfold s2. cbn [pending]. apply in_or_app. left. now apply H6. }
  { intros z [<-|[]]. unfold s2. cbn [pending]. apply in_or_app. right. now left. }
  { unfold s2, x. cbn [clock fst]. lia. }
  { lia. }
  destruct (timer_turn e (run e k2 s2) _ rest2 G1 G2) as [Hticks Hincl].
  assert (Hrun : run e (k1 + (1 + (k2 + 1))) s1 = run e 1 (run e k2 s2)).
  { rewrite run_add. fold r1. rewrite run_add.
    replace (run e 1 r1) with s2 by (cbn [run]; now rewrite Hturn).
    now rewrite run_add. }
  exists (k1 + (1 + (k2 + 1)))%nat. rewrite Hrun. split; [|split].
  - rewrite Hticks, G3. unfold s2. cbn [ticks]. now rewrite H3, Hk.
  - rewrite <- run_add.
    apply (RuntimeFacts.run_invariant e (fun st => In rep (sent st))).
    + intros st st' Hst Hin. destruct (RuntimeFacts.step_sent e st st' Hst) as [new [-> _]].
      apply in_or_app. now left.
    + unfold s2. cbn [sent]. apply in_or_app. right. now left.
  - apply Hincl, G7. now left.
Qed.

End OverlapFacts.

(** C9, as stated, fails: when the walk of the data directory takes 400
    seconds, the second tick runs at 300 seconds, while the first tick's
    measurement is still under way.  After that turn two ticks have run, two
    measurements are in flight and nothing has been sent yet. *)
Lemma C9_slow_walk_overlaps_next_tick :
  Runtime.pending (Runtime.boot Scenario.slow_disk 0 (Some Scenario.sample0_text))
  = [(400000, Runtime.MeasureDone (Some Scenario.sample0) (None, JS.Num 8192));
     (300000, Runtime.Timer)]
  /\ Runtime.clock (Runtime.run Scenario.slow_disk 1
                      (Runtime.boot Scenario.slow_disk 0 (Some Scenario.sample0_text)))
     = 300000
  /\ Runtime.ticks (Runtime.run Scenario.slow_disk 1
                      (Runtime.boot Scenario.slow_disk 0 (Some Scenario.sample0_text)))
     = 2%nat
  /\ Runtime.in_flight (Runtime.run Scenario.slow_disk 1
                          (Runtime.boot Scenario.slow_disk 0 (Some Scenario.sample0_text)))
     = 2%nat
  /\ Runtime.sent (Runtime.run Scenario.slow_disk 1
                     (Runtime.boot Scenario.slow_disk 0 (Some Scenario.sample0_text)))
     = [].
Proof. repeat split. Qed.

(** C9, amended: [send] sets the timer of the next tick in the turn in which
    it starts the measurement, before the measurement and the delivery
    complete.  What precedes the timer is the freshness decision and the
    speed test: at every moment at most one timer or speed test is pending,
    so ticks never overlap in that phase, and when the callback of a timer
    or of a speed test has its turn (the callbacks in which [send] runs) no
    other is pending.  From any such state in which [send] runs, a walk that
    takes longer than 5 minutes is still under way in a later state in which
    [report] has been called once more; and when the walk takes less than 5
    minutes and hands over a report whose delivery ends later than 5 minutes
    after [send], that delivery is still under way in such a state. *)
Theorem C9_timer_is_set_when_measurement_starts
  (e : Runtime.env) (t0 : Z) (file : option string) (n : nat) :
  (forall bw, send (Runtime.cfg e) bw
              = [StartMeasure (path (storage (Runtime.cfg e))) bw; SetTimeout 300000])
  /\ (Runtime.count Runtime.drives
        (Runtime.pending (Runtime.run e n (Runtime.boot e t0 file))) <= 1)%nat
  /\ (forall due t rest,
        Runtime.take_due (Runtime.pending (Runtime.run e n (Runtime.boot e t0 file)))
        = Some ((due, t), rest) ->
        Runtime.drives t = true ->
        Runtime.count Runtime.drives rest = 0%nat)
  /\ (forall s bw tree d,
        Runtime.thrown s = None ->
        Runtime.count Runtime.drives (Runtime.pending s) = 0%nat ->
        Runtime.filesystem e (Runtime.clock s) (path (storage (Runtime.cfg e)))
        = (tree, d) ->
        300000 < Z.of_N d ->
        exists k,
          Runtime.ticks (Runtime.run e k (Runtime.exec_all e s (send (Runtime.cfg e) bw)))
          = S (Runtime.ticks s)
          /\ In (Runtime.clock s + Z.of_N d,
                 Runtime.MeasureDone bw (getDirectorySize tree))
                (Runtime.pending
                   (Runtime.run e k (Runtime.exec_all e s (send (Runtime.cfg e) bw)))))
  /\ (forall s bw tree d1 rep err d2,
        Runtime.thrown s = None ->
        Runtime.count Runtime.drives (Runtime.pending s) = 0%nat ->
        Runtime.filesystem e (Runtime.clock s) (path (storage (Runtime.cfg e)))
        = (tree, d1) ->
        measured (Runtime.cfg e) (Runtime.farmer_contact e) bw (getDirectorySize tree)
        = [ReporterSend rep] ->
        Runtime.reporter e (Runtime.clock s + Z.of_N d1) rep = (err, d2) ->
        Z.of_N d1 < 300000 ->
        300000 < Z.of_N d1 + Z.of_N d2 ->
        exists k,
          Runtime.ticks (Runtime.run e k (Runtime.exec_all e s (send (Runtime.cfg e) bw)))
          = S (Runtime.ticks s)
          /\ In rep (Runtime.sent
                       (Runtime.run e k
                          (Runtime.exec_all e s (send (Runtime.cfg e) bw))))
          /\ In (Runtime.clock s + Z.of_N d1 + Z.of_N d2, Runtime.ReporterDone err rep)
                (Runtime.pending
                   (Runtime.run e k (Runtime.exec_all e s (send (Runtime.cfg e) bw))))).
Proof.
  assert (Hone : (Runtime.count Runtime.drives
                    (Runtime.pending (Runtime.run e n (Runtime.boot e t0 file))) <= 1)%nat).
  { apply (RuntimeFacts.run_invariant e
             (fun s => (Runtime.count Runtime.drives (Runtime.pending s) <= 1)%nat)).
    - apply RuntimeFacts.step_drives.
    - apply RuntimeFacts.boot_drives. }
  split; [reflexivity|]. split; [exact Hone|]. split; [|split].
  - intros due t rest Hdue Ht.
    pose proof (RuntimeFacts.take_due_count Runtime.drives _ _ _ Hdue) as Hc.
    cbn [snd] in Hc. rewrite Ht in Hc. lia.
  - intros s bw tree d. apply OverlapFacts.slow_walk_overlaps.
  - intros s bw tree d1 rep err d2. apply OverlapFacts.slow_delivery_overlaps.
Qed.

(** The last two parts of the theorem at work: on the slow disk the walk
    started at time 0 is under way when [report] has been called a second
    time, and with the slow reporter the delivery is. *)
Lemma C9_timer_is_set_witness :
  (exists k,
     Runtime.ticks
       (Runtime.run Scenario.slow_disk k
          (Runtime.boot Scenario.slow_disk 0 (Some Scenario.sample0_text))) = 2%nat
     /\ In (400000, Runtime.MeasureDone (Some Scenario.sample0) (None, JS.Num 8192))
           (Runtime.pending
              (Runtime.run Scenario.slow_disk k
                 (Runtime.boot Scenario.slow_disk 0 (Some Scenario.sample0_text)))))
  /\ (exists k,
        Runtime.ticks
          (Runtime.run Scenario4.slow_reporter k
             (Runtime.boot Scenario4.slow_reporter 0 (Some Scenario.sample0_text)))
        = 2%nat
        /\ In (401000,
               Runtime.ReporterDone None
                 {| storage_free := 2; storage_used := JS.Num 8192;
                    bandwidth_upload := JS.Num 100; bandwidth_download := JS.Num 200;
                    contact := "farmer"; payment := Some "1FarmerPaymentAddress" |})
              (Runtime.pending
                 (Runtime.run Scenario4.slow_reporter k
                    (Runtime.boot Scenario4.slow_reporter 0
                       (Some Scenario.sample0_text))))).
Proof.
  split.
  - destruct (C9_timer_is_set_when_measurement_starts Scenario.slow_disk 0 None 0)
      as [_ [_ [_ [Hwalk _]]]].
    destruct (Hwalk {| Runtime.clock := 0; Runtime.cache := Some Scenario.sample0_text;
                       Runtime.pending := []; Runtime.stdout := [];
                       Runtime.sent := []; Runtime.ticks := 1%nat;
                       Runtime.thrown := None |}
                (Some Scenario.sample0) Scenario.data_dir 400000%N
                eq_refl eq_refl eq_refl eq_refl) as [k [Hticks Hin]].
    exists k. split; [exact Hticks|exact Hin].
  - destruct (C9_timer_is_set_when_measurement_starts Scenario4.slow_reporter 0 None 0)
      as [_ [_ [_ [_ Hdelivery]]]].
    destruct (Hdelivery
                {| Runtime.clock := 0; Runtime.cache := Some Scenario.sample0_text;
                   Runtime.pending := []; Runtime.stdout := [];
                   Runtime.sent := []; Runtime.ticks := 1%nat;
                   Runtime.thrown := None |}
                (Some Scenario.sample0) Scenario.data_dir 1000%N
                {| storage_free := 2; storage_used := JS.Num 8192;
                   bandwidth_upload := JS.Num 100; bandwidth_download := JS.Num 200;
                   contact := "farmer"; payment := Some "1FarmerPaymentAddress" |}
                None 400000%N
                eq_refl eq_refl eq_refl eq_refl eq_refl eq_refl eq_refl)
      as [k [Hticks [_ Hin]]].
    exists k. split; [exact Hticks|exact Hin].
Defined.

(** ** The vault on every string *)

Module RepairFacts.
Import Utf8 Repair.

Lemma encode_repair_bounded (k : nat) :
  forall s, (List.length s <= k)%nat -> encode (repair s) = encode s.
Proof.
  induction k as [|k IH]; intros s Hk.
  - destruct s; [reflexivity|simpl in Hk; lia].
  - destruct s as [|u rest]; [reflexivity|].
    cbn [List.length] in Hk. cbn [repair encode].
    destruct (is_high u) eqn:Hh.
    + destruct rest as [|l rest']; [reflexivity|].
      cbn [List.length] in Hk.
      destruct (is_low l) eqn:Hl.
      * cbn [encode]. rewrite Hh, Hl. f_equal. apply IH. lia.
      * change (encode (0xFFFD :: repair (l :: rest')))
          with (replacement ++ encode (repair (l :: rest'))).
        f_equal. apply IH. cbn [List.length]. lia.
    + destruct (is_low u) eqn:Hl.
      * change (encode (0xFFFD :: repair rest))
          with (replacement ++ encode (repair rest)).
        f_equal. apply IH. lia.
      * cbn [encode]. rewrite Hh, Hl. f_equal. apply IH. lia.
Qed.

Lemma encode_repair (s : jsstring) : encode (repair s) = encode s.
Proof. apply (encode_repair_bounded (List.length s)). lia. Qed.

Lemma well_formed_repair_bounded (k : nat) :
  forall s,
    (List.length s <= k)%nat ->
    forallb is_unit s = true -> well_formed (repair s) = true.
Proof.
  induction k as [|k IH]; intros s Hk Hs.
  - destruct s; [reflexivity|simpl in Hk; lia].
  - destruct s as [|u rest]; [reflexivity|].
    cbn [List.length] in Hk. cbn [forallb] in Hs.
    apply andb_true_iff in Hs as [Hu Hrest]. cbn [repair].
    destruct (is_high u) eqn:Hh.
    + destruct rest as [|l rest']; [reflexivity|].
      cbn [List.length] in Hk. cbn [forallb] in Hrest.
      destruct (is_low l) eqn:Hl.
      * cbn [well_formed]. rewrite Hh, Hl. cbn [andb].
        apply andb_true_iff in Hrest as [_ Hrest']. apply IH; [lia|assumption].
      * change (well_formed (0xFFFD :: repair (l :: rest')))
          with (well_formed (repair (l :: rest'))).
        apply IH; [cbn [List.length]; lia|assumption].
    + destruct (is_low u) eqn:Hl.
      * change (well_formed (0xFFFD :: repair rest)) with (well_formed (repair rest)).
        apply IH; [lia|assumption].
      * cbn [well_formed]. rewrite Hh, Hl. unfold is_unit in Hu. rewrite Hu.
        apply IH; [lia|assumption].
Qed.

Lemma well_formed_repair (s : jsstring) :
  forallb is_unit s = true -> well_formed (repair s) = true.
Proof. apply (well_formed_repair_bounded (List.length s)). lia. Qed.

Lemma repair_well_formed_bounded (k : nat) :
  forall s, (List.length s <= k)%nat -> well_formed s = true -> repair s = s.
Proof.
  induction k as [|k IH]; intros s Hk Hs.
  - destruct s; [reflexivity|simpl in Hk; lia].
  - destruct s as [|u rest]; [reflexivity|].
    cbn [List.length] in Hk. cbn [well_formed] in Hs. cbn [repair].
    destruct (is_high u).
    + destruct rest as [|l rest']; [discriminate|].
      apply andb_true_iff in Hs as [-> Hs]. cbn [List.length] in Hk.
      do 2 f_equal. apply IH; [lia|assumption].
    + destruct (is_low u); [discriminate|].
      apply andb_true_iff in Hs as [_ Hs]. f_equal. apply IH; [lia|assumption].
Qed.

End RepairFacts.

(** Whatever string of 16-bit units [encrypt] is given, [decrypt] under the
    same password returns it with every unpaired surrogate replaced by
    U+FFFD, provided the decipher inverts the cipher and [base58.decode]
    inverts [base58.encode]; that is the string itself exactly when no
    surrogate in it is unpaired. *)
Theorem vault_round_trip_repairs_lone_surrogates
  (cipher_update cipher_final decipher_update : jsstring -> Buffer.t -> Buffer.t)
  (decipher_final : jsstring -> Buffer.t -> option Buffer.t)
  (base58_encode : Buffer.t -> string) (base58_decode : string -> option Buffer.t)
  (P S : jsstring) :
  decipher_inverts_cipher cipher_update cipher_final decipher_update decipher_final ->
  base58_decode_inverts_encode base58_encode base58_decode ->
  forallb Repair.is_unit S = true ->
  decrypt decipher_update decipher_final base58_decode P
    (encrypt cipher_update cipher_final base58_encode P S)
  = inr (Repair.repair S)
  /\ (Repair.repair S = S <-> Utf8.well_formed S = true).
Proof.
  intros Hcipher Hbase58 Hunits. split.
  - unfold decrypt, encrypt.
    rewrite BufferFacts.copy_copy_alloc, Hbase58.
    destruct (Hcipher P (Buffer.from_utf8 S)) as [b [Hfinal Hdata]].
    rewrite Hfinal, BufferFacts.copy_copy_alloc, Hdata.
    replace (Buffer.from_utf8 S) with (Buffer.from_utf8 (Repair.repair S))
      by (unfold Buffer.from_utf8; now rewrite RepairFacts.encode_repair).
    now rewrite toString_from_utf8 by now apply RepairFacts.well_formed_repair.
  - split.
    + intro H. rewrite <- H. now apply RepairFacts.well_formed_repair.
    + apply (RepairFacts.repair_well_formed_bounded (List.length S)). lia.
Qed.

(** The theorem at a string that ends in a high surrogate. *)
Lemma vault_round_trip_repairs_lone_surrogates_witness :
  decrypt Scenario.plain_update Scenario.plain_decipher_final Scenario.bytes_decode
    [0x70; 0x77]
    (encrypt Scenario.plain_update Scenario.plain_final Scenario.bytes_encode
       [0x70; 0x77] [0x6B; 0xD83D])
  = inr [0x6B; 0xFFFD].
Proof.
  apply (proj1 (vault_round_trip_repairs_lone_surrogates
                  Scenario.plain_update Scenario.plain_final Scenario.plain_update
                  Scenario.plain_decipher_final Scenario.bytes_encode
                  Scenario.bytes_decode [0x70; 0x77] [0x6B; 0xD83D]
                  plain_contract bytes_contract eq_refl)).
Defined.

(** ** Setting up and starting *)

Module FsFacts.
Import Fs.

Lemma put_same (fs : t) (q : string) (x : entry) : put fs q x q = Some x.
Proof. unfold put. now rewrite String.eqb_refl. Qed.

Lemma put_other (fs : t) (q q' : string) (x : entry) : q' <> q -> put fs q x q' = fs q'.
Proof. intro H. unfold put. apply String.eqb_neq in H. now rewrite H. Qed.

Section Paths.

Variable dirname : string -> string.
Variable place : string -> string.
Variable directory_only : string -> bool.

Lemma existsSync_directory (fs : t) (p : string) :
  fs (place p) = Some Directory -> existsSync place directory_only fs p = true.
Proof. unfold existsSync. now intros ->. Qed.

Lemma existsSync_nothing (fs : t) (p : string) :
  fs (place p) = None -> existsSync place directory_only fs p = false.
Proof. unfold existsSync. now intros ->. Qed.

Lemma existsSync_file (fs : t) (p : string) (content : string) :
  fs (place p) = Some (Regular content) ->
  directory_only p = false ->
  existsSync place directory_only fs p = true.
Proof. unfold existsSync. now intros -> ->. Qed.

(** What exists is at its place. *)
Lemma existsSync_true (fs : t) (p : string) :
  existsSync place directory_only fs p = true -> fs (place p) <> None.
Proof. unfold existsSync. destruct (fs (place p)); [discriminate|discriminate]. Qed.

(** Below a regular file the fault is ENOTDIR. *)
Lemma missing_below_file (fs : t) (q : string) (content : string) :
  fs (dirname q) = Some (Regular content) -> missing dirname fs q = NOTDIR.
Proof. unfold missing. cbn [absent]. now intros ->. Qed.

(** What [mkdirSync] has done when it returns. *)
Lemma mkdirSync_returns (fs fs' : t) (p : string) :
  mkdirSync dirname place fs p = inr fs' ->
  fs (place p) = None
  /\ fs (dirname (place p)) = Some Directory
  /\ fs' = put fs (place p) Directory.
Proof.
  unfold mkdirSync. destruct (fs (place p)); [discriminate|].
  destruct (fs (dirname (place p))) as [[|x]|]; try discriminate.
  intro H. injection H as <-. repeat split.
Qed.

(** What [writeFileSync] has done when it returns. *)
Lemma writeFileSync_returns (fs fs' : t) (p content : string) :
  writeFileSync dirname place directory_only fs p content = inr fs' ->
  fs (place p) <> Some Directory
  /\ fs (dirname (place p)) = Some Directory
  /\ directory_only p = false
  /\ fs' = put fs (place p) (Regular content).
Proof.
  unfold writeFileSync.
  destruct (fs (place p)) as [[|x]|]; [discriminate| |];
    (destruct (fs (dirname (place p))) as [[|y]|]; try discriminate;
     destruct (directory_only p); [discriminate|];
     intro H; injection H as <-; repeat split; discriminate).
Qed.

(** [writeFileSync] into a directory, on nothing or on a regular file. *)
Lemma writeFileSync_writes (fs : t) (p content : string) :
  fs (place p) <> Some Directory ->
  fs (dirname (place p)) = Some Directory ->
  directory_only p = false ->
  writeFileSync dirname place directory_only fs p content
  = inr (put fs (place p) (Regular content)).
Proof.
  intros Hp Hd Ht. unfold writeFileSync. rewrite Hd, Ht.
  destruct (fs (place p)) as [[|x]|]; [contradiction|reflexivity|reflexivity].
Qed.

End Paths.

End FsFacts.

Section SetupFacts.

Variable dirname : string -> string.
Variable join : string -> string -> string.
Variable place : string -> string.
Variable directory_only : string -> bool.
Variable JSON_stringify : ConfigFile.t -> string.
Variable JSON_parse : string -> option ConfigFile.t.
Variable cipher_update cipher_final : jsstring -> Buffer.t -> Buffer.t.
Variable decipher_update : jsstring -> Buffer.t -> Buffer.t.
Variable decipher_final : jsstring -> Buffer.t -> option Buffer.t.
Variable base58_encode : Buffer.t -> string.
Variable base58_decode : string -> option Buffer.t.
Variable program_datadir : string.
Variable program_password : jsstring.

(** What the validator of the data directory has done when it accepts. *)
Lemma conform_datadir_accepts (fs fs1 : Fs.t) (d : string) :
  conform_datadir dirname place directory_only fs d = inr (true, fs1) ->
  fs (place d) = None
  /\ fs (dirname (place d)) = Some Fs.Directory
  /\ fs1 = Fs.put fs (place d) Fs.Directory.
Proof.
  unfold conform_datadir.
  destruct (Fs.existsSync place directory_only fs d); [discriminate|].
  destruct (Fs.mkdirSync dirname place fs d) as [f|fs'] eqn:E; [discriminate|].
  intro H. injection H as <-. now apply FsFacts.mkdirSync_returns.
Qed.

(** The place of the configuration file in a data directory that was just
    made. *)
Lemma config_path_is_free (fs fs1 : Fs.t) (d : string) :
  conform_datadir dirname place directory_only fs d = inr (true, fs1) ->
  holds_config dirname join place directory_only d ->
  fs (place (join d CONFNAME)) = None ->
  place (join d CONFNAME) <> place d
  /\ fs1 (place (join d CONFNAME)) = None
  /\ fs1 (place d) = Some Fs.Directory.
Proof.
  intros Hd [Hj _] Hc. destruct (conform_datadir_accepts fs fs1 _ Hd) as [Hd0 [Hdp ->]].
  assert (Hcd : place (join d CONFNAME) <> place d) by congruence.
  split; [assumption|]. split.
  - now rewrite FsFacts.put_other.
  - apply FsFacts.put_same.
Qed.

(** The files the callback of the wizard writes into a data directory that
    was just made, when the key goes into a directory and not onto the
    configuration file. *)
Lemma configured_files (fs : Fs.t) (result : Result.t) (privkey : jsstring)
      (keypass : string + jsstring) (fs1 : Fs.t) :
  conform_datadir dirname place directory_only fs (Result.datadir result)
  = inr (true, fs1) ->
  fs1 (place (Result.keypath result)) = None ->
  fs1 (dirname (place (Result.keypath result))) = Some Fs.Directory ->
  directory_only (Result.keypath result) = false ->
  holds_config dirname join place directory_only (Result.datadir result) ->
  fs (place (join (Result.datadir result) CONFNAME)) = None ->
  place (Result.keypath result) <> place (join (Result.datadir result) CONFNAME) ->
  exists fs3,
    configured dirname join place directory_only JSON_stringify JSON_parse
      cipher_update cipher_final decipher_update decipher_final base58_encode
      base58_decode program_datadir program_password fs1 result privkey keypass
    = (fs3,
       start dirname join place directory_only JSON_parse decipher_update
         decipher_final base58_decode program_password fs3 keypass
         (Result.datadir result))
    /\ fs3 (place (Result.keypath result))
       = Some (Fs.Regular (encrypt cipher_update cipher_final base58_encode
                             (Result.password result) privkey))
    /\ fs3 (place (join (Result.datadir result) CONFNAME))
       = Some (Fs.Regular (JSON_stringify (wizard_config program_datadir result)))
    /\ fs3 (place (Result.datadir result)) = Some Fs.Directory
    /\ (forall q,
          q <> place (Result.keypath result) ->
          q <> place (join (Result.datadir result) CONFNAME) ->
          q <> place (Result.datadir result) ->
          fs3 q = fs q).
Proof.
  intros Hd Hk Hkd Hkt Hhold Hc Hne.
  destruct (config_path_is_free fs fs1 _ Hd Hhold Hc) as [Hcd [Hc1 Hd1]].
  destruct Hhold as [Hj Hct].
  destruct (conform_datadir_accepts fs fs1 _ Hd) as [_ [_ Hfs1]].
  set (d := Result.datadir result) in *. set (k := Result.keypath result) in *.
  set (c := join d CONFNAME) in *.
  assert (Hkdd : place k <> place d) by congruence.
  assert (Hdc : dirname (place k) <> place c) by congruence.
  unfold configured. cbn [ConfigFile.keypath wizard_config]. fold d k c.
  rewrite (FsFacts.writeFileSync_writes dirname place directory_only fs1 c)
    by (try congruence; rewrite Hj; exact Hd1).
  rewrite (FsFacts.writeFileSync_writes dirname place directory_only _ k);
    [|rewrite FsFacts.put_other by assumption; congruence
     |rewrite FsFacts.put_other by assumption; exact Hkd
     |exact Hkt].
  eexists. split; [reflexivity|].
  split; [apply FsFacts.put_same|].
  split; [rewrite FsFacts.put_other by congruence; apply FsFacts.put_same|].
  split; [rewrite !FsFacts.put_other by congruence; exact Hd1|].
  intros q Hqk Hqc Hqd. rewrite !FsFacts.put_other by assumption.
  rewrite Hfs1. now apply FsFacts.put_other.
Qed.

(** [start] on a data directory with its configuration and a key file. *)
Lemma start_opens (fs : Fs.t) (keypass : string + jsstring) (d : string)
      (config : ConfigFile.t) (text blob : string) :
  fs (place d) = Some Fs.Directory ->
  fs (place (join d CONFNAME)) = Some (Fs.Regular text) ->
  directory_only (join d CONFNAME) = false ->
  JSON_parse text = Some config ->
  fs (place (ConfigFile.keypath config)) = Some (Fs.Regular blob) ->
  directory_only (ConfigFile.keypath config) = false ->
  start dirname join place directory_only JSON_parse decipher_update decipher_final
    base58_decode program_password fs keypass d
  = match program_password with
    | [] =>
        match keypass with
        | inl err => PromptFailed err
        | inr password =>
            Opened config
              (open decipher_update decipher_final base58_decode password blob)
        end
    | _ :: _ =>
        Opened config
          (open decipher_update decipher_final base58_decode program_password blob)
    end.
Proof.
  intros Hd Hc Hct Hparse Hk Hkt. unfold start.
  rewrite (FsFacts.existsSync_directory place directory_only fs d Hd).
  rewrite (FsFacts.existsSync_file place directory_only fs _ text Hc Hct).
  cbn [negb]. unfold Fs.readFileSync. rewrite Hc, Hct, Hparse, Hk, Hkt.
  now destruct program_password.
Qed.

End SetupFacts.

(** The round trip of the vault, as [open] meets it. *)
Lemma open_after_encrypt
      (cipher_update cipher_final decipher_update : jsstring -> Buffer.t -> Buffer.t)
      (decipher_final : jsstring -> Buffer.t -> option Buffer.t)
      (base58_encode : Buffer.t -> string) (base58_decode : string -> option Buffer.t)
      (password privkey : jsstring) :
  decipher_inverts_cipher cipher_update cipher_final decipher_update decipher_final ->
  base58_decode_inverts_encode base58_encode base58_decode ->
  Utf8.well_formed privkey = true ->
  open decipher_update decipher_final base58_decode password
    (encrypt cipher_update cipher_final base58_encode password privkey)
  = KeyPair privkey.
Proof.
  intros Hcipher Hbase58 Hwf. unfold open, decrypt, encrypt.
  rewrite BufferFacts.copy_copy_alloc, Hbase58.
  destruct (Hcipher password (Buffer.from_utf8 privkey)) as [b [Hfinal Hdata]].
  rewrite Hfinal, BufferFacts.copy_copy_alloc, Hdata.
  now rewrite toString_from_utf8.
Qed.

(** The validator of the data directory refuses a path that exists and
    changes nothing then; a path it accepts names a new directory
    afterwards, beside which no place has changed, and which the validator
    refuses when it is asked again.  When that path is the directory of the
    command line and the wizard goes no further, every later run finds the
    directory, goes to [start], reports that no configuration is found and
    exits: the wizard is not offered again. *)
Theorem datadir_validator_makes_what_it_accepts
  (dirname place : string -> string) (directory_only : string -> bool)
  (fs fs' : Fs.t) (value : string) (accepted : bool) :
  conform_datadir dirname place directory_only fs value = inr (accepted, fs') ->
  (accepted = true <-> Fs.existsSync place directory_only fs value = false)
  /\ (accepted = true -> fs' (place value) = Some Fs.Directory)
  /\ (forall q, q <> place value -> fs' q = fs q)
  /\ (accepted = false -> forall q, fs' q = fs q)
  /\ conform_datadir dirname place directory_only fs' value = inr (false, fs')
  /\ (forall join JSON_stringify JSON_parse cipher_update cipher_final
             decipher_update decipher_final base58_encode base58_decode
             program_password result privkey keypass,
        accepted = true ->
        place (join value CONFNAME) <> place value ->
        fs (place (join value CONFNAME)) = None ->
        main dirname join place directory_only JSON_stringify JSON_parse
          cipher_update cipher_final decipher_update decipher_final base58_encode
          base58_decode value program_password fs' result privkey keypass
        = Some (fs', Exited "No storj configuration found in datadir")).
Proof.
  unfold conform_datadir.
  destruct (Fs.existsSync place directory_only fs value) eqn:E.
  - intro H. injection H as <- <-. rewrite E.
    split; [split; discriminate|].
    split; [discriminate|]. split; [reflexivity|]. split; [reflexivity|].
    split; [reflexivity|]. intros. discriminate.
  - destruct (Fs.mkdirSync dirname place fs value) as [f|fs1] eqn:Em; [discriminate|].
    intro H. injection H as <- <-.
    destruct (FsFacts.mkdirSync_returns dirname place fs fs1 value Em) as [H0 [_ ->]].
    assert (Hnow : Fs.existsSync place directory_only
                     (Fs.put fs (place value) Fs.Directory) value = true).
    { apply FsFacts.existsSync_directory. apply FsFacts.put_same. }
    rewrite Hnow.
    split; [split; reflexivity|].
    split; [intros _; apply FsFacts.put_same|].
    split; [intros q Hq; now apply FsFacts.put_other|].
    split; [discriminate|]. split; [reflexivity|].
    intros join JSON_stringify JSON_parse cipher_update cipher_final
           decipher_update decipher_final base58_encode base58_decode
           program_password result privkey keypass _ Hne Hfree.
    unfold main. rewrite Hnow. cbn [negb]. unfold start. rewrite Hnow. cbn [negb].
    rewrite FsFacts.existsSync_nothing; [reflexivity|].
    now rewrite FsFacts.put_other.
Qed.

(** The theorem at a home directory in which the data directory, written
    with a separator at its end, is new: the directory is there under its
    other name, and the validator refuses that name. *)
Lemma datadir_validator_makes_what_it_accepts_witness :
  Fs.put Scenario3.home "/home/farmer/data" Fs.Directory "/home/farmer/data"
  = Some Fs.Directory
  /\ conform_datadir Scenario3.dirname Scenario3.place Scenario3.directory_only
       (Fs.put Scenario3.home "/home/farmer/data" Fs.Directory) "/home/farmer/data/"
     = inr (false, Fs.put Scenario3.home "/home/farmer/data" Fs.Directory).
Proof.
  pose proof (datadir_validator_makes_what_it_accepts
                Scenario3.dirname Scenario3.place Scenario3.directory_only
                Scenario3.home (Fs.put Scenario3.home "/home/farmer/data" Fs.Directory)
                "/home/farmer/data/" true eq_refl)
    as [_ [Hdir [_ [_ [Hagain _]]]]].
  split; [exact (Hdir eq_refl)|exact Hagain].
Defined.

(** After a wizard whose answers are accepted, in a new data directory and
    with a key path in a directory, [start] finds the configuration it
    wrote and unlocks the generated key, when the password it takes (the one
    of the command line, or else the one asked for) is the password given to
    the wizard.  The contracts of [JSON], [crypto] and [bs58] are
    assumed, and of the paths that the configuration file lies in the data
    directory, that the key path does not end in a separator and that it
    names another place than the configuration file. *)
Theorem wizard_then_start_unlocks_the_new_key
  (dirname : string -> string) (join : string -> string -> string)
  (place : string -> string) (directory_only : string -> bool)
  (JSON_stringify : ConfigFile.t -> string) (JSON_parse : string -> option ConfigFile.t)
  (cipher_update cipher_final decipher_update : jsstring -> Buffer.t -> Buffer.t)
  (decipher_final : jsstring -> Buffer.t -> option Buffer.t)
  (base58_encode : Buffer.t -> string) (base58_decode : string -> option Buffer.t)
  (program_datadir : string) (program_password : jsstring)
  (fs fs1 : Fs.t) (result : Result.t) (privkey : jsstring)
  (keypass : string + jsstring) :
  conform_port (Result.port result) = true ->
  conform_datadir dirname place directory_only fs (Result.datadir result)
  = inr (true, fs1) ->
  conform_keypath dirname place directory_only fs1 (Result.keypath result) = true ->
  fs1 (dirname (place (Result.keypath result))) = Some Fs.Directory ->
  directory_only (Result.keypath result) = false ->
  holds_config dirname join place directory_only (Result.datadir result) ->
  fs (place (join (Result.datadir result) CONFNAME)) = None ->
  place (Result.keypath result) <> place (join (Result.datadir result) CONFNAME) ->
  JSON_parse (JSON_stringify (wizard_config program_datadir result))
  = Some (wizard_config program_datadir result) ->
  decipher_inverts_cipher cipher_update cipher_final decipher_update decipher_final ->
  base58_decode_inverts_encode base58_encode base58_decode ->
  Utf8.well_formed privkey = true ->
  match program_password with
  | [] => keypass = inr (Result.password result)
  | _ :: _ => program_password = Result.password result
  end ->
  exists fs3,
    wizard dirname join place directory_only JSON_stringify JSON_parse cipher_update
      cipher_final decipher_update decipher_final base58_encode base58_decode
      program_datadir program_password fs result privkey keypass
    = Some (fs3, Opened (wizard_config program_datadir result) (KeyPair privkey))
    /\ fs3 (place (Result.keypath result))
       = Some (Fs.Regular (encrypt cipher_update cipher_final base58_encode
                             (Result.password result) privkey)).
Proof.
  intros Hport Hd Hk Hkd Hkt Hhold Hc Hne Hjson Hcipher Hbase58 Hwf Hpw.
  assert (Hk0 : fs1 (place (Result.keypath result)) = None).
  { unfold conform_keypath in Hk. apply andb_true_iff in Hk as [_ Hk].
    apply negb_true_iff in Hk. unfold Fs.existsSync in Hk. rewrite Hkt in Hk.
    destruct (fs1 (place (Result.keypath result))) as [[|x]|];
      [discriminate|discriminate|reflexivity]. }
  destruct (configured_files dirname join place directory_only JSON_stringify
              JSON_parse cipher_update cipher_final decipher_update decipher_final
              base58_encode base58_decode program_datadir program_password fs result
              privkey keypass fs1 Hd Hk0 Hkd Hkt Hhold Hc Hne)
    as [fs3 [Hconf [Hkey [Hfile [Hdir _]]]]].
  exists fs3. split; [|exact Hkey].
  unfold wizard. rewrite Hport, Hd, Hk, Hconf. do 2 f_equal.
  rewrite (start_opens dirname join place directory_only JSON_parse decipher_update
             decipher_final base58_decode program_password fs3 keypass _
             (wizard_config program_datadir result) _ _ Hdir Hfile (proj2 Hhold)
             Hjson Hkey Hkt).
  destruct program_password as [|c pw].
  - rewrite Hpw. f_equal. now apply open_after_encrypt.
  - rewrite Hpw. f_equal. now apply open_after_encrypt.
Qed.

(** The theorem in an empty home directory, with the data directory written
    with a separator at its end, the key beside the configuration and the
    password asked for again. *)
Lemma wizard_then_start_unlocks_the_new_key_witness :
  exists fs3,
    wizard Scenario3.dirname Scenario3.join Scenario3.place Scenario3.directory_only
      Scenario3.JSON_stringify
      (Scenario3.JSON_parse
         (wizard_config "/home/farmer/.storj-farmer-cli"
            (Scenario3.answers "/home/farmer/.storj-farmer-cli/"
               "/home/farmer/.storj-farmer-cli/id_ecdsa")))
      Scenario.plain_update Scenario.plain_final Scenario.plain_update
      Scenario.plain_decipher_final Scenario.bytes_encode Scenario.bytes_decode
      "/home/farmer/.storj-farmer-cli" [] Scenario3.home
      (Scenario3.answers "/home/farmer/.storj-farmer-cli/"
         "/home/farmer/.storj-farmer-cli/id_ecdsa")
      Scenario3.key (inr [0x70; 0x77])
    = Some (fs3,
            Opened (wizard_config "/home/farmer/.storj-farmer-cli"
                      (Scenario3.answers "/home/farmer/.storj-farmer-cli/"
                         "/home/farmer/.storj-farmer-cli/id_ecdsa"))
                   (KeyPair Scenario3.key))
    /\ fs3 "/home/farmer/.storj-farmer-cli/id_ecdsa"
       = Some (Fs.Regular (encrypt Scenario.plain_update Scenario.plain_final
                             Scenario.bytes_encode [0x70; 0x77] Scenario3.key)).
Proof.
  apply (wizard_then_start_unlocks_the_new_key
           Scenario3.dirname Scenario3.join Scenario3.place Scenario3.directory_only
           Scenario3.JSON_stringify
           (Scenario3.JSON_parse
              (wizard_config "/home/farmer/.storj-farmer-cli"
                 (Scenario3.answers "/home/farmer/.storj-farmer-cli/"
                    "/home/farmer/.storj-farmer-cli/id_ecdsa")))
           Scenario.plain_update Scenario.plain_final Scenario.plain_update
           Scenario.plain_decipher_final Scenario.bytes_encode Scenario.bytes_decode
           "/home/farmer/.storj-farmer-cli" [] Scenario3.home
           (Fs.put Scenario3.home "/home/farmer/.storj-farmer-cli" Fs.Directory)
           (Scenario3.answers "/home/farmer/.storj-farmer-cli/"
              "/home/farmer/.storj-farmer-cli/id_ecdsa")
           Scenario3.key (inr [0x70; 0x77]));
    try reflexivity.
  - split; reflexivity.
  - discriminate.
  - exact plain_contract.
  - exact bytes_contract.
Defined.

(** The validator of the key path accepts the path of the configuration
    file, which does not exist yet; the wizard then writes the key over the
    configuration, and [start] reads the key where it looks for the
    configuration. *)
Theorem key_path_on_the_configuration_file
  (dirname : string -> string) (join : string -> string -> string)
  (place : string -> string) (directory_only : string -> bool)
  (JSON_stringify : ConfigFile.t -> string) (JSON_parse : string -> option ConfigFile.t)
  (cipher_update cipher_final decipher_update : jsstring -> Buffer.t -> Buffer.t)
  (decipher_final : jsstring -> Buffer.t -> option Buffer.t)
  (base58_encode : Buffer.t -> string) (base58_decode : string -> option Buffer.t)
  (program_datadir : string) (program_password : jsstring)
  (fs fs1 : Fs.t) (result : Result.t) (privkey : jsstring)
  (keypass : string + jsstring) :
  conform_port (Result.port result) = true ->
  conform_datadir dirname place directory_only fs (Result.datadir result)
  = inr (true, fs1) ->
  holds_config dirname join place directory_only (Result.datadir result) ->
  place (dirname (join (Result.datadir result) CONFNAME))
  = place (Result.datadir result) ->
  fs (place (join (Result.datadir result) CONFNAME)) = None ->
  Result.keypath result = join (Result.datadir result) CONFNAME ->
  conform_keypath dirname place directory_only fs1 (Result.keypath result) = true
  /\ exists fs3 outcome,
       wizard dirname join place directory_only JSON_stringify JSON_parse
         cipher_update cipher_final decipher_update decipher_final base58_encode
         base58_decode program_datadir program_password fs result privkey keypass
       = Some (fs3, outcome)
       /\ fs3 (place (join (Result.datadir result) CONFNAME))
          = Some (Fs.Regular (encrypt cipher_update cipher_final base58_encode
                                (Result.password result) privkey))
       /\ (JSON_parse (encrypt cipher_update cipher_final base58_encode
                         (Result.password result) privkey) = None ->
           outcome = Crashed JsonSyntax).
Proof.
  intros Hport Hd Hhold Hdj Hc Hk.
  destruct (config_path_is_free dirname join place directory_only fs fs1 _ Hd Hhold Hc)
    as [Hcd [Hc1 Hd1]].
  destruct Hhold as [Hj Hct].
  assert (Hvalid : conform_keypath dirname place directory_only fs1
                     (Result.keypath result) = true).
  { unfold conform_keypath. rewrite Hk.
    rewrite (FsFacts.existsSync_directory place directory_only fs1 _
               ltac:(rewrite Hdj; exact Hd1)).
    now rewrite (FsFacts.existsSync_nothing place directory_only fs1 _ Hc1). }
  split; [exact Hvalid|].
  unfold wizard. rewrite Hport, Hd, Hvalid. unfold configured.
  cbn [ConfigFile.keypath wizard_config]. rewrite Hk.
  rewrite (FsFacts.writeFileSync_writes dirname place directory_only fs1)
    by (try congruence; rewrite Hj; exact Hd1).
  rewrite (FsFacts.writeFileSync_writes dirname place directory_only);
    [|rewrite FsFacts.put_same; discriminate
     |rewrite Hj, FsFacts.put_other by congruence; exact Hd1
     |exact Hct].
  eexists _, _. split; [reflexivity|]. split; [apply FsFacts.put_same|].
  intro Hparse. unfold start.
  rewrite (FsFacts.existsSync_directory place directory_only);
    [|rewrite !FsFacts.put_other by congruence; exact Hd1].
  rewrite (FsFacts.existsSync_file place directory_only _ _ _
             (FsFacts.put_same _ _ _) Hct).
  cbn [negb]. unfold Fs.readFileSync. rewrite FsFacts.put_same, Hct.
  now rewrite Hparse.
Qed.

(** The theorem in an empty home directory, with a reader of
    configurations that knows no key text. *)
Lemma key_path_on_the_configuration_file_witness :
  conform_keypath Scenario3.dirname Scenario3.place Scenario3.directory_only
    (Fs.put Scenario3.home "/home/farmer/.storj-farmer-cli" Fs.Directory)
    "/home/farmer/.storj-farmer-cli/config.json" = true.
Proof.
  refine (proj1 (key_path_on_the_configuration_file
                   Scenario3.dirname Scenario3.join Scenario3.place
                   Scenario3.directory_only Scenario3.JSON_stringify (fun _ => None)
                   Scenario.plain_update Scenario.plain_final Scenario.plain_update
                   Scenario.plain_decipher_final Scenario.bytes_encode
                   Scenario.bytes_decode "/home/farmer/.storj-farmer-cli" []
                   Scenario3.home
                   (Fs.put Scenario3.home "/home/farmer/.storj-farmer-cli" Fs.Directory)
                   (Scenario3.answers "/home/farmer/.storj-farmer-cli"
                      "/home/farmer/.storj-farmer-cli/config.json")
                   Scenario3.key (inr [0x70; 0x77])
                   eq_refl eq_refl (conj eq_refl eq_refl) eq_refl eq_refl eq_refl)).
Defined.

(** The validator of the key path asks only whether the parent exists.  When
    the parent is a regular file, the wizard writes the configuration and
    then throws on the key; the data directory is left with a configuration
    and no key.  If it is the directory of the command line, every later run
    finds it, goes to [start] and throws on the missing key: the wizard is
    not offered again. *)
Theorem key_path_below_a_regular_file
  (dirname : string -> string) (join : string -> string -> string)
  (place : string -> string) (directory_only : string -> bool)
  (JSON_stringify : ConfigFile.t -> string) (JSON_parse : string -> option ConfigFile.t)
  (cipher_update cipher_final decipher_update : jsstring -> Buffer.t -> Buffer.t)
  (decipher_final : jsstring -> Buffer.t -> option Buffer.t)
  (base58_encode : Buffer.t -> string) (base58_decode : string -> option Buffer.t)
  (program_password : jsstring)
  (fs fs1 : Fs.t) (result : Result.t) (privkey : jsstring)
  (keypass : string + jsstring) (note : string) :
  conform_port (Result.port result) = true ->
  conform_datadir dirname place directory_only fs (Result.datadir result)
  = inr (true, fs1) ->
  fs1 (place (Result.keypath result)) = None ->
  fs1 (place (dirname (Result.keypath result))) = Some (Fs.Regular note) ->
  directory_only (dirname (Result.keypath result)) = false ->
  dirname (place (Result.keypath result)) = place (dirname (Result.keypath result)) ->
  holds_config dirname join place directory_only (Result.datadir result) ->
  fs (place (join (Result.datadir result) CONFNAME)) = None ->
  JSON_parse (JSON_stringify (wizard_config (Result.datadir result) result))
  = Some (wizard_config (Result.datadir result) result) ->
  conform_keypath dirname place directory_only fs1 (Result.keypath result) = true
  /\ exists fs2,
       main dirname join place directory_only JSON_stringify JSON_parse cipher_update
         cipher_final decipher_update decipher_final base58_encode base58_decode
         (Result.datadir result) program_password fs result privkey keypass
       = Some (fs2, Crashed (FsFault Fs.NOTDIR))
       /\ fs2 (place (join (Result.datadir result) CONFNAME))
          = Some (Fs.Regular (JSON_stringify
                                (wizard_config (Result.datadir result) result)))
       /\ fs2 (place (Result.keypath result)) = None
       /\ forall result' privkey' keypass',
            main dirname join place directory_only JSON_stringify JSON_parse
              cipher_update cipher_final decipher_update decipher_final base58_encode
              base58_decode (Result.datadir result) program_password fs2 result'
              privkey' keypass'
            = Some (fs2, Crashed (FsFault Fs.NOTDIR)).
Proof.
  intros Hport Hd Hk Hkd Hkdt Hparent Hhold Hc Hjson.
  destruct (config_path_is_free dirname join place directory_only fs fs1 _ Hd Hhold Hc)
    as [Hcd [Hc1 Hd1]].
  destruct (conform_datadir_accepts dirname place directory_only fs fs1 _ Hd)
    as [Hd0 _].
  destruct Hhold as [Hj Hct].
  set (d := Result.datadir result) in *. set (k := Result.keypath result) in *.
  set (c := join d CONFNAME) in *.
  set (text := JSON_stringify (wizard_config d result)) in *.
  assert (Hvalid : conform_keypath dirname place directory_only fs1 k = true).
  { unfold conform_keypath.
    rewrite (FsFacts.existsSync_file place directory_only fs1 _ note Hkd Hkdt).
    now rewrite (FsFacts.existsSync_nothing place directory_only fs1 _ Hk). }
  assert (Hkc : place k <> place c).
  { intro H. rewrite <- Hparent, H, Hj, Hd1 in Hkd. discriminate. }
  set (fs2 := Fs.put fs1 (place c) (Fs.Regular text)).
  assert (Hkey2 : fs2 (place k) = None).
  { unfold fs2. now rewrite FsFacts.put_other. }
  assert (Hdir2 : fs2 (place d) = Some Fs.Directory).
  { unfold fs2. rewrite FsFacts.put_other by congruence. exact Hd1. }
  assert (Hfile2 : fs2 (place c) = Some (Fs.Regular text)).
  { apply FsFacts.put_same. }
  assert (Hbelow : exists x, fs2 (dirname (place k)) = Some (Fs.Regular x)).
  { unfold fs2, Fs.put. destruct (dirname (place k) =? place c)%string.
    - now exists text.
    - exists note. now rewrite Hparent. }
  destruct Hbelow as [x Hbelow].
  split; [exact Hvalid|]. exists fs2.
  split; [|split; [exact Hfile2|split; [exact Hkey2|]]].
  - unfold main.
    rewrite (FsFacts.existsSync_nothing place directory_only fs _ Hd0). cbn [negb].
    unfold wizard. fold d k. rewrite Hport, Hd, Hvalid. unfold configured.
    cbn [ConfigFile.keypath wizard_config]. fold d k c text.
    rewrite (FsFacts.writeFileSync_writes dirname place directory_only fs1 c)
      by (try congruence; rewrite Hj; exact Hd1).
    fold fs2. unfold Fs.writeFileSync. rewrite Hkey2, Hbelow.
    now rewrite (FsFacts.missing_below_file dirname fs2 _ x Hbelow).
  - intros result' privkey' keypass'. unfold main.
    rewrite (FsFacts.existsSync_directory place directory_only fs2 _ Hdir2).
    cbn [negb]. f_equal. f_equal. unfold start.
    rewrite (FsFacts.existsSync_directory place directory_only fs2 _ Hdir2).
    fold c. rewrite (FsFacts.existsSync_file place directory_only fs2 _ text Hfile2 Hct).
    cbn [negb]. unfold Fs.readFileSync at 1. rewrite Hfile2, Hct.
    rewrite Hjson. cbn [ConfigFile.keypath wizard_config]. fold k.
    unfold Fs.readFileSync. rewrite Hkey2.
    now rewrite (FsFacts.missing_below_file dirname fs2 _ x Hbelow).
Qed.

(** The theorem in a home directory with a file of notes, below which the
    key is to go. *)
Lemma key_path_below_a_regular_file_witness :
  conform_keypath Scenario3.dirname Scenario3.place Scenario3.directory_only
    (Fs.put Scenario3.home_with_notes "/home/farmer/.storj-farmer-cli" Fs.Directory)
    "/home/farmer/notes/id_ecdsa" = true.
Proof.
  refine (proj1 (key_path_below_a_regular_file
                   Scenario3.dirname Scenario3.join Scenario3.place
                   Scenario3.directory_only Scenario3.JSON_stringify
                   (Scenario3.JSON_parse
                      (wizard_config "/home/farmer/.storj-farmer-cli"
                         (Scenario3.answers "/home/farmer/.storj-farmer-cli"
                            "/home/farmer/notes/id_ecdsa")))
                   Scenario.plain_update Scenario.plain_final Scenario.plain_update
                   Scenario.plain_decipher_final Scenario.bytes_encode
                   Scenario.bytes_decode [] Scenario3.home_with_notes
                   (Fs.put Scenario3.home_with_notes "/home/farmer/.storj-farmer-cli"
                      Fs.Directory)
                   (Scenario3.answers "/home/farmer/.storj-farmer-cli"
                      "/home/farmer/notes/id_ecdsa")
                   Scenario3.key (inr [0x70; 0x77]) "remember the milk"
                   eq_refl eq_refl eq_refl eq_refl eq_refl eq_refl
                   (conj eq_refl eq_refl) eq_refl eq_refl)).
Defined.



(** [start] has something to say on a data directory that does not exist,
    but the program never says it: the last lines call [start] on the
    directory of the command line only when it exists, and the wizard calls
    it on the directory it has just written the configuration into. *)
Theorem start_is_never_given_a_missing_directory
  (dirname : string -> string) (join : string -> string -> string)
  (place : string -> string) (directory_only : string -> bool)
  (JSON_stringify : ConfigFile.t -> string) (JSON_parse : string -> option ConfigFile.t)
  (cipher_update cipher_final decipher_update : jsstring -> Buffer.t -> Buffer.t)
  (decipher_final : jsstring -> Buffer.t -> option Buffer.t)
  (base58_encode : Buffer.t -> string) (base58_decode : string -> option Buffer.t)
  (program_datadir : string) (program_password : jsstring)
  (fs fs' : Fs.t) (result : Result.t) (privkey : jsstring)
  (keypass : string + jsstring) (outcome : started) :
  dirname (place (join (Result.datadir result) CONFNAME))
  = place (Result.datadir result) ->
  main dirname join place directory_only JSON_stringify JSON_parse cipher_update
    cipher_final decipher_update decipher_final base58_encode base58_decode
    program_datadir program_password fs result privkey keypass
  = Some (fs', outcome) ->
  outcome <> Exited "The supplied datadir does not exist".
Proof.
  intros Hj. unfold main.
  assert (Hstart : forall fs0 d,
             Fs.existsSync place directory_only fs0 d = true ->
             start dirname join place directory_only JSON_parse decipher_update
               decipher_final base58_decode program_password fs0 keypass d
             <> Exited "The supplied datadir does not exist").
  { intros fs0 d Hd. unfold start. rewrite Hd. cbn [negb].
    destruct (negb _); [discriminate|].
    destruct (Fs.readFileSync _ _ _ _ _); [discriminate|].
    destruct (JSON_parse _); [|discriminate].
    destruct (Fs.readFileSync _ _ _ _ _); [discriminate|].
    destruct (negb _); [discriminate|]. destruct keypass; discriminate. }
  destruct (Fs.existsSync place directory_only fs program_datadir) eqn:E; cbn [negb].
  - intro H. injection H as <- <-. now apply Hstart.
  - unfold wizard. destruct (conform_port _); [|discriminate].
    destruct (conform_datadir dirname place directory_only fs (Result.datadir result))
      as [f|[[|] fs1]]; [intro H; injection H as <- <-; discriminate| |discriminate].
    destruct (conform_keypath dirname place directory_only fs1 (Result.keypath result));
      [|discriminate].
    unfold configured. cbn [ConfigFile.keypath wizard_config].
    set (d := Result.datadir result) in *. set (k := Result.keypath result).
    set (c := join d CONFNAME) in *.
    destruct (Fs.writeFileSync dirname place directory_only fs1 c _) as [f|fs2] eqn:Ec;
      [intro H; injection H as <- <-; discriminate|].
    destruct (FsFacts.writeFileSync_returns dirname place directory_only _ _ _ _ Ec)
      as [Hc0 [Hcd [_ ->]]].
    rewrite Hj in Hcd.
    destruct (Fs.writeFileSync dirname place directory_only _ k _) as [f|fs3] eqn:Ek;
      [intro H; injection H as <- <-; discriminate|].
    destruct (FsFacts.writeFileSync_returns dirname place directory_only _ _ _ _ Ek)
      as [Hk0 [_ [_ ->]]].
    intro H. injection H as <- <-. apply Hstart.
    apply FsFacts.existsSync_directory.
    assert (Hdc : place d <> place c) by congruence.
    assert (Hdk : place d <> place k).
    { intro Heq. apply Hk0. rewrite <- Heq, FsFacts.put_other by assumption.
      exact Hcd. }
    now rewrite !FsFacts.put_other by assumption.
Qed.

(** The theorem at the wizard in an empty home directory. *)
Lemma start_is_never_given_a_missing_directory_witness :
  Opened (wizard_config "/home/farmer/.storj-farmer-cli"
            (Scenario3.answers "/home/farmer/.storj-farmer-cli"
               "/home/farmer/.storj-farmer-cli/id_ecdsa"))
         (KeyPair Scenario3.key)
  <> Exited "The supplied datadir does not exist".
Proof.
  apply (start_is_never_given_a_missing_directory
           Scenario3.dirname Scenario3.join Scenario3.place Scenario3.directory_only
           Scenario3.JSON_stringify
           (Scenario3.JSON_parse
              (wizard_config "/home/farmer/.storj-farmer-cli"
                 (Scenario3.answers "/home/farmer/.storj-farmer-cli"
                    "/home/farmer/.storj-farmer-cli/id_ecdsa")))
           Scenario.plain_update Scenario.plain_final Scenario.plain_update
           Scenario.plain_decipher_final Scenario.bytes_encode Scenario.bytes_decode
           "/home/farmer/.storj-farmer-cli" [] Scenario3.home
           (Fs.put
              (Fs.put (Fs.put Scenario3.home "/home/farmer/.storj-farmer-cli"
                         Fs.Directory)
                 "/home/farmer/.storj-farmer-cli/config.json"
                 (Fs.Regular "{ the configuration }"))
              "/home/farmer/.storj-farmer-cli/id_ecdsa"
              (Fs.Regular (encrypt Scenario.plain_update Scenario.plain_final
                             Scenario.bytes_encode [0x70; 0x77] Scenario3.key)))
           (Scenario3.answers "/home/farmer/.storj-farmer-cli"
              "/home/farmer/.storj-farmer-cli/id_ecdsa")
           Scenario3.key (inr [0x70; 0x77]) _ eq_refl).
  vm_compute. reflexivity.
Defined.
